(** * SuperBryn backend: the appointment store, the tool dispatcher and the
      conversation agent.

    Embedded from the sources of the repository:
    - [src/db/queries.ts]: the statements on users, appointments and
      conversation summaries, over the tables of the schema (the [CREATE
      TABLE] statements kept with the sources; the README names the file
      [src/db/schema.sql]);
    - the hard-coded slots and [getAvailableSlots] ([src/config/slots.ts] in
      the README's layout);
    - [src/services/tools.ts]: the cost ledger, the catalog and
      [executeTool];
    - [generateSummary] and [extractPreferences] ([services/summary.ts] by
      the imports of [agent.ts]);
    - [src/agent/agent.ts]: [AppointmentAgent];
    - [src/services/speech.ts]: [transcribeAudio] and [synthesizeSpeech];
    - the voice agent ([agent/livekit-agent.ts] by its imports):
      [getOrCreateSession] and the [execute] handler of [createTools].

    The persistent store is the state of the three tables; every function
    of [queries.ts] is a function from a store to either a thrown exception
    (the store is then unchanged: each function issues at most one writing
    statement) or a result and the next store.  The cost ledger is the
    module-level array [costTracker] of [tools.ts].

    Modelling boundary.
    - One call runs to completion before the next one starts: the
      interleaving of two [async] calls at their [await] points is not
      modelled, and the continuation of the summary finalizer, which the
      agent does not await, runs at the call.
    - [CURRENT_TIMESTAMP] is an argument [now] of every writing call.
    - An argument bag is a record of optional fields typed as the tool's
      declared schema types them; an absent field is JS [undefined], which
      the driver sends as SQL [NULL].
    - The store's conversion of a text parameter to a value of a column's
      type, the store's error texts and the JSON texts are parameters.
    - The value of [appointments.id] comes from a counter that moves on a
      successful insert only.
    - Costs are exact rationals; the rounding of JS doubles is not modelled.
    - The answers of the language-model service are an input of a turn; so
      are the outcomes of the speech requests and of the publications to
      the room. *)

From Stdlib Require Import ZArith QArith String List Bool Lia Floats.
From stdpp Require Import base option list sorting gmap strings.

#[local] Set Warnings "-inexact-float,-register-all".

Local Open Scope string_scope.
Local Open Scope Z_scope.

(** ** JS numbers *)

(** A JS [number] is an IEEE 754 binary64 value; [+], [*] and [/] on
    numbers are the rounded operations of [PrimFloat]. *)
Definition number : Set := PrimFloat.float.

(** The number of an integer: the nearest binary64 value (the integer
    itself below 2^53). *)
Definition Number_of_Z (z : Z) : number :=
  SF2Prim (binary_normalize prec emax z 0 false).

(** [s.length] as a number. *)
Definition length_of (s : string) : number := Number_of_Z (Z.of_nat (String.length s)).

#[global] Opaque Number_of_Z.

(** ** Exceptions and the result of a call that may throw *)

(** The columns that receive a text parameter. *)
Inductive column : Set :=
| col_contact_number | col_name | col_email
| col_appointment_date | col_appointment_time
| col_service_type | col_notes | col_session_id.

(** The ways a statement is refused by the store. *)
Inductive DbError : Set :=
| invalid_text (c : column)        (* the text is not a value of the column's type *)
| not_null_violation (c : column)
| unique_violation
| foreign_key_violation
| numeric_value_out_of_range.      (* a number outside the column's type *)

(** What a [throw] carries: [new Error(message)] of the code, an error of
    the store, or a failure of the language-model service. *)
Inductive Exn : Set :=
| Error (message : string)
| DatabaseError (e : DbError)
| ServiceError (message : string).

Inductive Result (A : Type) : Type :=
| Ok (a : A)
| Throw (e : Exn).
Arguments Ok {A} a.
Arguments Throw {A} e.

#[global] Instance Result_ret : MRet Result := fun A a => Ok a.

#[global] Instance Result_bind : MBind Result := fun A B k r =>
  match r with
  | Ok a => k a
  | Throw e => Throw e
  end.

(** A computation on a state [S] that may change the state and then either
    returns or throws; what it changed before a [throw] stays changed, as
    with JS objects mutated inside a [try]. *)
Definition StateExn (S A : Type) : Type := S -> S * Result A.

#[global] Instance StateExn_ret S : MRet (StateExn S) := fun A a s => (s, Ok a).

#[global] Instance StateExn_bind S : MBind (StateExn S) := fun A B k m s =>
  match m s with
  | (s', Ok a) => k a s'
  | (s', Throw e) => (s', Throw e)
  end.

Definition throw {S A} (e : Exn) : StateExn S A := fun s => (s, Throw e).

(** [try { body } catch (error) { handler }]. *)
Definition try_catch {S A} (body : StateExn S A) (handler : Exn -> StateExn S A)
    : StateExn S A := fun s =>
  match body s with
  | (s', Ok a) => (s', Ok a)
  | (s', Throw e) => handler e s'
  end.

(** An [async] call as the event loop sees it: it has settled with a
    value, or it is suspended at an [await]; [resume] is what the awaited
    statement does to the state when it runs, and what the call becomes
    then, up to its next [await]. *)
Inductive Async (S A : Type) : Type :=
| settled (a : A)
| awaiting (resume : S -> S * Async S A).
Arguments settled {S A} a.
Arguments awaiting {S A} resume.

(** A call in flight with nothing else in flight: every [await] is
    answered at once. *)
Fixpoint run_alone {S A} (call : Async S A) (s : S) : S * A :=
  match call with
  | settled a => (s, a)
  | awaiting resume =>
      match resume s with
      | (s', call') => run_alone call' s'
      end
  end.

(** Two calls in flight: the awaited statements reach the state in the
    order of [schedule], [true] for a statement of the first call and
    [false] for one of the second. *)
Fixpoint interleave {S A B} (schedule : list bool)
    (first : Async S A) (second : Async S B) (s : S)
    : S * (Async S A * Async S B) :=
  match schedule with
  | [] => (s, (first, second))
  | true :: later =>
      match first with
      | settled _ => interleave later first second s
      | awaiting resume =>
          match resume s with
          | (s', first') => interleave later first' second s'
          end
      end
  | false :: later =>
      match second with
      | settled _ => interleave later first second s
      | awaiting resume =>
          match resume s with
          | (s', second') => interleave later first second' s'
          end
      end
  end.

(** JS [s || null] on an optional string: [undefined] and the empty string
    are falsy. *)
Definition or_null (s : option string) : option string :=
  match s with
  | Some EmptyString => None
  | other => other
  end.

(** JS truthiness of an optional string, as in [if (newDate)]. *)
Definition truthy (s : option string) : bool :=
  match or_null s with
  | Some _ => true
  | None => false
  end.

(** SQL [COALESCE(a, b)]. *)
Definition COALESCE {A} (a b : option A) : option A :=
  match a with
  | Some _ => a
  | None => b
  end.

(** ** Rows of [schema.sql] *)

Record User : Set := mkUser {
  user_contact_number : string;
  user_name : option string;
  user_email : option string;
  user_created_at : Z;
  user_updated_at : Z
}.

Inductive Status : Set := confirmed | cancelled | completed.

Record Appointment : Set := mkAppointment {
  id : Z;
  contact_number : string;
  appointment_date : string;
  appointment_time : string;
  service_type : option string;
  notes : option string;
  status : Status;
  created_at : Z;
  updated_at : Z
}.

#[global] Instance Status_eq_dec : EqDecision Status.
Proof. solve_decision. Defined.

#[global] Instance Appointment_eq_dec : EqDecision Appointment.
Proof. solve_decision. Defined.

(** The text of a status, as compared with the [status] filter. *)
Definition status_text (s : Status) : string :=
  match s with
  | confirmed => "confirmed"
  | cancelled => "cancelled"
  | completed => "completed"
  end.

(** One entry of the cost ledger ([CostBreakdown] of [tools.ts]). *)
Record CostBreakdown : Set := mkCost {
  service : string;
  cost : number;
  unit : string
}.

(** What [book_appointment] returns about the appointment, and what the
    session keeps in [bookedAppointments]. *)
Record BookedAppointment : Set := mkBooked {
  booked_id : Z;
  booked_date : string;
  booked_time : string;
  booked_service_type : option string
}.

(** [extractPreferences] of [summary.ts]: the two optional tags. *)
Record Preferences : Set := mkPreferences {
  time_preference : option string;
  priority : option string
}.

Record ConversationSummary : Set := mkSummary {
  summary_contact_number : string;
  summary_session_id : string;
  summary_text : string;
  summary_booked_appointments : list BookedAppointment;
  summary_user_preferences : Preferences;
  summary_cost_total : number;
  summary_cost_breakdown : list CostBreakdown;
  summary_created_at : Z
}.

(** The store: the three tables and the sequence behind [appointments.id]. *)
Record Db : Type := mkDb {
  users : gmap string User;
  appointments : list Appointment;
  appointments_id_seq : Z;
  conversation_summaries : list ConversationSummary
}.

Definition with_users (d : Db) (us : gmap string User) : Db :=
  mkDb us (appointments d) (appointments_id_seq d) (conversation_summaries d).

Definition with_appointments (d : Db) (rows : list Appointment) : Db :=
  mkDb (users d) rows (appointments_id_seq d) (conversation_summaries d).

(** ** The store's statements ([queries.ts] over [schema.sql]) *)

Section Backend.

(** The store's input conversion of a text parameter for a column of type
    [DATE], [TIME], [VARCHAR(n)] or [TEXT]: [None] when the store refuses
    the text, else the value it keeps.  Left abstract. *)
Variable store_in : column -> string -> option string.

(** The message text of an error raised by the store.  Left abstract. *)
Variable db_message : DbError -> string.

(** A parameter bound to a typed column; [NULL] passes through. *)
Definition bind_param (c : column) (p : option string) : Result (option string) :=
  match p with
  | None => Ok None
  | Some s =>
      match store_in c s with
      | Some v => Ok (Some v)
      | None => Throw (DatabaseError (invalid_text c))
      end
  end.

(** [NOT NULL] (and [PRIMARY KEY]) on a column. *)
Definition required (c : column) (p : option string) : Result string :=
  match p with
  | Some v => Ok v
  | None => Throw (DatabaseError (not_null_violation c))
  end.

(** *** Users *)

(** [INSERT INTO users ... ON CONFLICT (contact_number) DO UPDATE SET
    name = COALESCE(EXCLUDED.name, users.name), email = COALESCE(...),
    updated_at = CURRENT_TIMESTAMP RETURNING *], with the parameters
    [contactNumber, name || null, email || null]. *)
Definition createOrUpdateUser (now : Z) (contactNumber name email : option string)
    (d : Db) : Result (User * Db) :=
  p1 ← bind_param col_contact_number contactNumber;
  p2 ← bind_param col_name (or_null name);
  p3 ← bind_param col_email (or_null email);
  key ← required col_contact_number p1;
  let row :=
    match users d !! key with
    | None => mkUser key p2 p3 now now
    | Some u =>
        mkUser (user_contact_number u)
               (COALESCE p2 (user_name u))
               (COALESCE p3 (user_email u))
               (user_created_at u) now
    end in
  Ok (row, with_users d (<[key := row]> (users d))).

(** [SELECT * FROM users WHERE contact_number = $1]. *)
Definition getUser (contactNumber : option string) (d : Db) : option User :=
  key ← contactNumber; users d !! key.

(** *** Appointments *)

(** The columns of [UNIQUE(contact_number, appointment_date,
    appointment_time, status)]. *)
Definition unique_key (r : Appointment) : string * string * string * Status :=
  (contact_number r, appointment_date r, appointment_time r, status r).

(** [WHERE appointment_date = $1 AND appointment_time = $2 AND
    status = 'confirmed'], at the values the parameters were bound to; a
    [NULL] parameter matches no row. *)
Definition holds_slot (pd pt : option string) (r : Appointment) : Prop :=
  Some (appointment_date r) = pd /\ Some (appointment_time r) = pt /\
  status r = confirmed.

#[global] Instance holds_slot_dec pd pt r : Decision (holds_slot pd pt r).
Proof. unfold holds_slot. apply _. Defined.

(** The values of the SQL type [INTEGER], the type of [appointments.id]. *)
Definition INTEGER (i : Z) : Prop := -2147483648 <= i <= 2147483647.

#[global] Instance INTEGER_dec i : Decision (INTEGER i).
Proof. unfold INTEGER. apply _. Defined.

(** A number parameter compared with [appointments.id]: [NULL] passes
    through, and a number outside [INTEGER] refuses the statement before
    any row is looked at. *)
Definition bind_id (p : option Z) : Result (option Z) :=
  match p with
  | None => Ok None
  | Some i =>
      if decide (INTEGER i) then Ok (Some i)
      else Throw (DatabaseError numeric_value_out_of_range)
  end.

(** [WHERE id = $1 AND contact_number = $2], for a parameter [$1] that the
    store takes as an [INTEGER]; the contact text is compared as it is
    given, and a [NULL] parameter matches no row. *)
Definition owned_row (appointmentId : option Z) (contactNumber : option string)
    (r : Appointment) : Prop :=
  Some (id r) = appointmentId /\ Some (contact_number r) = contactNumber /\
  INTEGER (id r).

#[global] Instance owned_row_dec i c r : Decision (owned_row i c r).
Proof. unfold owned_row. apply _. Defined.

(** [AND id != $3]; a [NULL] parameter matches no row. *)
Definition other_row (appointmentId : option Z) (r : Appointment) : Prop :=
  match appointmentId with
  | Some i => id r <> i
  | None => False
  end.

#[global] Instance other_row_dec i r : Decision (other_row i r).
Proof. destruct i; simpl; apply _. Defined.

(** A statement that only reads, as a step on the store. *)
Definition reads {A} (f : Db -> Result A) : StateExn Db A := fun d => (d, f d).

(** The conflict query of [createAppointment]: [SELECT * FROM appointments
    WHERE appointment_date = $1 AND appointment_time = $2 AND status =
    'confirmed']. *)
Definition SELECT_confirmed (appointmentDate appointmentTime : option string) (d : Db)
    : Result (list Appointment) :=
  pd ← bind_param col_appointment_date appointmentDate;
  pt ← bind_param col_appointment_time appointmentTime;
  Ok (filter (holds_slot pd pt) (appointments d)).

(** The store after [nextval] of the sequence behind [appointments.id]. *)
Definition nextval (d : Db) : Db :=
  mkDb (users d) (appointments d) (appointments_id_seq d + 1) (conversation_summaries d).

(** [INSERT INTO appointments (contact_number, appointment_date,
    appointment_time, service_type, notes, status) VALUES ($1, $2, $3, $4,
    $5, 'confirmed') RETURNING *], with [serviceType || null] and [notes ||
    null].  A parameter the store cannot convert refuses the statement
    before it runs.  The row then takes the next value of the sequence for
    its [id], and is checked against [NOT NULL], the [UNIQUE] constraint
    and the reference to [users]: a row refused by one of them has consumed
    the value of the sequence. *)
Definition INSERT_appointment (now : Z)
    (contactNumber appointmentDate appointmentTime serviceType notes_ : option string)
    : StateExn Db Appointment := fun d =>
  match (p1 ← bind_param col_contact_number contactNumber;
         pd ← bind_param col_appointment_date appointmentDate;
         pt ← bind_param col_appointment_time appointmentTime;
         p4 ← bind_param col_service_type (or_null serviceType);
         p5 ← bind_param col_notes (or_null notes_);
         Ok (p1, pd, pt, p4, p5)) with
  | Throw e => (d, Throw e)
  | Ok (p1, pd, pt, p4, p5) =>
      match (c ← required col_contact_number p1;
             dt ← required col_appointment_date pd;
             tm ← required col_appointment_time pt;
             let row :=
               mkAppointment (appointments_id_seq d) c dt tm p4 p5 confirmed now now in
             if bool_decide (unique_key row ∈ unique_key <$> appointments d) then
               Throw (DatabaseError unique_violation)
             else if bool_decide (users d !! c = None) then
               Throw (DatabaseError foreign_key_violation)
             else Ok row) with
      | Throw e => (nextval d, Throw e)
      | Ok row =>
          (mkDb (users d) (appointments d ++ [row])
                (appointments_id_seq d + 1) (conversation_summaries d),
           Ok row)
      end
  end.

(** [createAppointment]: the conflict query on (date, time, 'confirmed'),
    the [throw] when it finds a row, else the [INSERT].  The two statements
    are awaited one after the other, outside any transaction. *)
Definition createAppointment (now : Z)
    (contactNumber appointmentDate appointmentTime serviceType notes_ : option string)
    : StateExn Db Appointment :=
  (* Check for conflicts *)
  conflictCheck ← reads (SELECT_confirmed appointmentDate appointmentTime);
  if negb (bool_decide (conflictCheck = [])) then
    throw (Error "Appointment slot already booked")
  else
    INSERT_appointment now contactNumber appointmentDate appointmentTime
                       serviceType notes_.

(** [createAppointment] in flight: the promise of the conflict query, and
    behind it the promise of the [INSERT]. *)
Definition createAppointment_async (now : Z)
    (contactNumber appointmentDate appointmentTime serviceType notes_ : option string)
    : Async Db (Result Appointment) :=
  awaiting (fun d =>
    (* Check for conflicts *)
    match SELECT_confirmed appointmentDate appointmentTime d with
    | Throw e => (d, settled (Throw e))
    | Ok conflictCheck =>
        if negb (bool_decide (conflictCheck = [])) then
          (d, settled (Throw (Error "Appointment slot already booked")))
        else
          (d, awaiting (fun d' =>
                match INSERT_appointment now contactNumber appointmentDate
                        appointmentTime serviceType notes_ d' with
                | (d'', r) => (d'', settled r)
                end))
    end).

(** [ORDER BY appointment_date DESC, appointment_time DESC] on the kept
    values (ISO texts compare as the dates and times do). *)
Definition listed_before (a b : Appointment) : Prop :=
  match String.compare (appointment_date a) (appointment_date b) with
  | Gt => True
  | Lt => False
  | Eq => String.compare (appointment_time a) (appointment_time b) <> Lt
  end.

#[global] Instance listed_before_dec a b : Decision (listed_before a b).
Proof. unfold listed_before. destruct (String.compare _ _); apply _. Defined.

(** [getAppointments]: the rows of the contact, filtered by status when
    the [status] argument is truthy, most recent first. *)
Definition getAppointments (contactNumber status_ : option string) (d : Db)
    : list Appointment :=
  let by_contact :=
    filter (fun r => Some (contact_number r) = contactNumber) (appointments d) in
  let rows :=
    if truthy status_ then
      filter (fun r => Some (status_text (status r)) = status_) by_contact
    else by_contact in
  merge_sort listed_before rows.

(** An [UPDATE appointments SET ... WHERE id = $n AND contact_number = $m
    RETURNING *]: the matching rows are rewritten by [set]; the statement is
    refused when a rewritten row then shares its [unique_key] with another
    row; [rows[0] || null] is the first rewritten row. *)
Definition UPDATE_owned (appointmentId : option Z) (contactNumber : option string)
    (set : Appointment -> Appointment) (d : Db) : Result (option Appointment * Db) :=
  let hit r := bool_decide (owned_row appointmentId contactNumber r) in
  let rows' : list Appointment :=
    (fun r => if hit r then set r else r) <$> appointments d in
  let sharing r := filter (fun r' => unique_key r' = unique_key (set r)) rows' in
  let clash r := hit r && negb (bool_decide (length (sharing r) = 1%nat)) in
  match set <$> filter (owned_row appointmentId contactNumber) (appointments d) with
  | [] => Ok (None, d)
  | first :: _ =>
      if existsb clash (appointments d) then Throw (DatabaseError unique_violation)
      else Ok (Some first, with_appointments d rows')
  end.

(** [SET status = 'cancelled', updated_at = CURRENT_TIMESTAMP]. *)
Definition set_cancelled (now : Z) (r : Appointment) : Appointment :=
  mkAppointment (id r) (contact_number r) (appointment_date r) (appointment_time r)
    (service_type r) (notes r) cancelled (created_at r) now.

(** [UPDATE appointments SET status = 'cancelled', updated_at =
    CURRENT_TIMESTAMP WHERE id = $1 AND contact_number = $2 RETURNING *]. *)
Definition cancelAppointment (now : Z) (appointmentId : option Z)
    (contactNumber : option string) (d : Db) : Result (option Appointment * Db) :=
  i ← bind_id appointmentId;
  UPDATE_owned i contactNumber (set_cancelled now) d.

(** The [SET] list built by [modifyAppointment]: each supplied field, then
    [updated_at]. *)
Definition set_date_time (now : Z) (newDate newTime : option string)
    (r : Appointment) : Appointment :=
  mkAppointment (id r) (contact_number r)
    (default (appointment_date r) newDate) (default (appointment_time r) newTime)
    (service_type r) (notes r) (status r) (created_at r) now.

(** [modifyAppointment]: the conflict query under [if (newDate &&
    newTime)], the [throw] when no field is supplied, then the [UPDATE]. *)
Definition modifyAppointment (now : Z) (appointmentId : option Z)
    (contactNumber newDate newTime : option string) (d : Db)
    : Result (option Appointment * Db) :=
  (* Check for conflicts if date/time changed *)
  _ ← (if truthy newDate && truthy newTime then
         pd ← bind_param col_appointment_date newDate;
         pt ← bind_param col_appointment_time newTime;
         i ← bind_id appointmentId;
         let conflictCheck :=
           filter (fun r => holds_slot pd pt r /\ other_row i r)
                  (appointments d) in
         if negb (bool_decide (conflictCheck = [])) then
           Throw (Error "New appointment slot already booked")
         else Ok tt
       else Ok tt);
  if negb (truthy newDate || truthy newTime) then
    Throw (Error "No fields to update")
  else
    pd ← bind_param col_appointment_date (or_null newDate);
    pt ← bind_param col_appointment_time (or_null newTime);
    i ← bind_id appointmentId;
    UPDATE_owned i contactNumber (set_date_time now pd pt) d.

(** [SELECT * FROM appointments WHERE id = $1 AND contact_number = $2]
    and [rows[0] || null]. *)
Definition getAppointmentById (appointmentId : option Z)
    (contactNumber : option string) (d : Db) : option Appointment :=
  head (filter (fun r => Some (id r) = appointmentId /\
                         Some (contact_number r) = contactNumber)
               (appointments d)).

(** [saveConversationSummary]: [INSERT INTO conversation_summaries ...
    RETURNING *]; [contact_number] references [users]. *)
Definition saveConversationSummary (now : Z) (contactNumber sessionId summary : string)
    (bookedAppointments : list BookedAppointment) (userPreferences : Preferences)
    (costTotal : number) (costBreakdown : list CostBreakdown) (d : Db)
    : Result (ConversationSummary * Db) :=
  p1 ← bind_param col_contact_number (Some contactNumber);
  p2 ← bind_param col_session_id (Some sessionId);
  c ← required col_contact_number p1;
  sid ← required col_session_id p2;
  let row := mkSummary c sid summary bookedAppointments userPreferences
                       costTotal costBreakdown now in
  if bool_decide (users d !! c = None) then
    Throw (DatabaseError foreign_key_violation)
  else
    Ok (row, mkDb (users d) (appointments d) (appointments_id_seq d)
                  (conversation_summaries d ++ [row])).

(** ** The slot catalog ([config/slots.ts]) *)

Record Slot : Set := mkSlot {
  slot_date : string;
  slot_time : string;
  available : bool
}.

Definition AVAILABLE_SLOTS : list Slot :=
  [ mkSlot "2024-01-15" "09:00" true; mkSlot "2024-01-15" "10:00" true;
    mkSlot "2024-01-15" "11:00" true; mkSlot "2024-01-15" "14:00" true;
    mkSlot "2024-01-15" "15:00" true;
    mkSlot "2024-01-16" "09:00" true; mkSlot "2024-01-16" "10:00" true;
    mkSlot "2024-01-16" "11:00" true; mkSlot "2024-01-16" "14:00" true;
    mkSlot "2024-01-16" "15:00" true;
    mkSlot "2024-01-17" "09:00" true; mkSlot "2024-01-17" "10:00" true;
    mkSlot "2024-01-17" "11:00" true; mkSlot "2024-01-17" "14:00" true;
    mkSlot "2024-01-17" "15:00" true ].

Definition getAvailableSlots (date : option string) : list Slot :=
  if truthy date then
    filter (fun slot => Some (slot_date slot) = date /\ available slot = true)
           AVAILABLE_SLOTS
  else
    filter (fun slot => available slot = true) AVAILABLE_SLOTS.

(** ** The cost ledger and the dispatcher ([services/tools.ts]) *)

(** The process state a dispatch works on: the store and [costTracker]. *)
Record World : Type := mkWorld {
  db : Db;
  costTracker : list CostBreakdown
}.

(** A computation of [tools.ts] on the world. *)
Definition Tool : Type -> Type := StateExn World.

(** [await] of a function of [queries.ts]. *)
Definition query {A} (f : Db -> Result (A * Db)) : Tool A := fun w =>
  match f (db w) with
  | Ok (a, d') => (mkWorld d' (costTracker w), Ok a)
  | Throw e => (w, Throw e)
  end.

(** [await] of a function of [queries.ts] that may leave the store changed
    when it throws. *)
Definition statement {A} (f : StateExn Db A) : Tool A := fun w =>
  match f (db w) with
  | (d', r) => (mkWorld d' (costTracker w), r)
  end.

(** [costTracker.push({ service, cost, unit })]. *)
Definition addCost (service_ : string) (cost_ : number) (unit_ : string) : Tool () :=
  fun w => (mkWorld (db w) (costTracker w ++ [mkCost service_ cost_ unit_]), Ok tt).

(** [costTracker.reduce((sum, item) => sum + item.cost, 0)]. *)
Definition getTotalCost (ledger : list CostBreakdown) : number :=
  fold_left (fun sum item => (sum + cost item)%float) ledger 0%float.

(** [costTracker.length = 0]. *)
Definition resetCost (w : World) : World := mkWorld (db w) [].

(** The argument bag of a tool call: the properties the catalog declares. *)
Record Args : Set := mkArgs {
  arg_contact_number : option string;
  arg_name : option string;
  arg_email : option string;
  arg_date : option string;
  arg_appointment_date : option string;
  arg_appointment_time : option string;
  arg_service_type : option string;
  arg_notes : option string;
  arg_status : option string;
  arg_appointment_id : option Z;
  arg_new_date : option string;
  arg_new_time : option string
}.

Definition no_args : Args :=
  mkArgs None None None None None None None None None None None None.

Record ToolCall : Set := mkToolCall {
  name : string;
  arguments : Args
}.

(** The names of [toolDefinitions], in order. *)
Definition toolDefinitions : list string :=
  [ "identify_user"; "fetch_slots"; "book_appointment"; "retrieve_appointments";
    "cancel_appointment"; "modify_appointment"; "end_conversation" ].

(** One appointment of the [retrieve_appointments] result. *)
Record ListedAppointment : Set := mkListed {
  listed_id : Z;
  listed_date : string;
  listed_time : string;
  listed_service_type : option string;
  listed_status : Status;
  listed_notes : option string
}.

(** The operation-specific part of a result object. *)
Inductive Payload : Set :=
| no_payload
| payload_user (user : User)
| payload_slots (slots : list (string * string)) (count : nat)
| payload_booked (appointment : BookedAppointment)
| payload_appointments (listed : list ListedAppointment) (count : nat)
| payload_appointment (appointment_id : Z) (date time : string).

(** What [executeTool] returns: [{ success, message?, error?, ... }]. *)
Record ToolResult : Set := mkToolResult {
  success : bool;
  message : option string;
  error : option string;
  payload : Payload
}.

Definition succeeded (message_ : option string) (p : Payload) : ToolResult :=
  mkToolResult true message_ None p.

(** [error.message]. *)
Definition exn_message (e : Exn) : string :=
  match e with
  | Error m => m
  | DatabaseError e => db_message e
  | ServiceError m => m
  end.

(** [{ success: false, error: error.message || 'Unknown error' }]. *)
Definition failed (e : Exn) : ToolResult :=
  mkToolResult false None
    (Some (if bool_decide (exn_message e = EmptyString) then "Unknown error" else exn_message e))
    no_payload.

(** The text a template literal gives an optional string. *)
Definition template (s : option string) : string := default "undefined" s.

(** The body of the [try] of [executeTool]: the [switch] on the name. *)
Definition tool_switch (now : Z) (toolCall : ToolCall) : Tool ToolResult :=
  let args := arguments toolCall in
  if decide (name toolCall = "identify_user") then
    _ ← addCost "identify_user" 0.001%float "call";
    user ← query (createOrUpdateUser now (arg_contact_number args)
                    (arg_name args) (arg_email args));
    mret (succeeded
            (Some ("User identified: " +:+ template (arg_contact_number args)))
            (payload_user user))
  else if decide (name toolCall = "fetch_slots") then
    _ ← addCost "fetch_slots" 0.001%float "call";
    let slots := getAvailableSlots (arg_date args) in
    mret (succeeded None
            (payload_slots ((fun s => (slot_date s, slot_time s)) <$> slots)
                           (length slots)))
  else if decide (name toolCall = "book_appointment") then
    _ ← addCost "book_appointment" 0.002%float "call";
    appointment ← statement (createAppointment now (arg_contact_number args)
                           (arg_appointment_date args) (arg_appointment_time args)
                           (arg_service_type args) (arg_notes args));
    mret (succeeded (Some "Appointment booked successfully")
            (payload_booked
               (mkBooked (id appointment) (appointment_date appointment)
                         (appointment_time appointment) (service_type appointment))))
  else if decide (name toolCall = "retrieve_appointments") then
    _ ← addCost "retrieve_appointments" 0.001%float "call";
    appointments_ ← query (fun d =>
        Ok (getAppointments (arg_contact_number args) (arg_status args) d, d));
    mret (succeeded None
            (payload_appointments
               ((fun apt => mkListed (id apt) (appointment_date apt)
                              (appointment_time apt) (service_type apt)
                              (status apt) (notes apt)) <$> appointments_)
               (length appointments_)))
  else if decide (name toolCall = "cancel_appointment") then
    _ ← addCost "cancel_appointment" 0.002%float "call";
    appointment ← query (cancelAppointment now (arg_appointment_id args)
                           (arg_contact_number args));
    match appointment with
    | None => throw (Error "Appointment not found or already cancelled")
    | Some appointment =>
        mret (succeeded (Some "Appointment cancelled successfully")
                (payload_appointment (id appointment) (appointment_date appointment)
                                     (appointment_time appointment)))
    end
  else if decide (name toolCall = "modify_appointment") then
    _ ← addCost "modify_appointment" 0.002%float "call";
    appointment ← query (modifyAppointment now (arg_appointment_id args)
                           (arg_contact_number args)
                           (arg_new_date args) (arg_new_time args));
    match appointment with
    | None => throw (Error "Appointment not found")
    | Some appointment =>
        mret (succeeded (Some "Appointment modified successfully")
                (payload_appointment (id appointment) (appointment_date appointment)
                                     (appointment_time appointment)))
    end
  else if decide (name toolCall = "end_conversation") then
    _ ← addCost "end_conversation" 0.001%float "call";
    mret (succeeded (Some "Conversation ended") no_payload)
  else
    throw (Error ("Unknown tool: " +:+ name toolCall)).

(** [executeTool]: the [try] around the [switch], and the [catch] that
    turns whatever was thrown into a result object. *)
Definition executeTool (now : Z) (toolCall : ToolCall) (w : World)
    : ToolResult * World :=
  match tool_switch now toolCall w with
  | (w', Ok result) => (result, w')
  | (w', Throw e) => (failed e, w')
  end.

(** A call of [queries.ts] in flight inside [executeTool]: its statements
    reach the store of the world, and [settle] is what [executeTool] does
    with the outcome of the call. *)
Fixpoint awaited {A B} (call : Async Db A) (settle : A -> B) : Async World B :=
  match call with
  | settled a => settled (settle a)
  | awaiting resume =>
      awaiting (fun w =>
        match resume (db w) with
        | (d', call') => (mkWorld d' (costTracker w), awaited call' settle)
        end)
  end.

(** The case ['book_appointment'] of [executeTool] as the event loop runs
    it: [addCost] at the call, then the awaited [createAppointment], then
    the result object, or the one of the [catch]. *)
Definition book_in_flight (now : Z) (toolCall : ToolCall) (w : World)
    : World * Async World ToolResult :=
  let args := arguments toolCall in
  (mkWorld (db w) (costTracker w ++ [mkCost "book_appointment" 0.002%float "call"]),
   awaited
     (createAppointment_async now (arg_contact_number args)
        (arg_appointment_date args) (arg_appointment_time args)
        (arg_service_type args) (arg_notes args))
     (fun outcome =>
        match outcome with
        | Ok appointment =>
            succeeded (Some "Appointment booked successfully")
              (payload_booked
                 (mkBooked (id appointment) (appointment_date appointment)
                           (appointment_time appointment) (service_type appointment)))
        | Throw e => failed e
        end)).

(** ** The summary finalizer ([services/summary.ts]) *)

Inductive Role : Set := role_user | role_assistant | role_system | role_tool.

#[global] Instance Role_eq_dec : EqDecision Role.
Proof. solve_decision. Defined.

Definition role_text (r : Role) : string :=
  match r with
  | role_user => "user"
  | role_assistant => "assistant"
  | role_system => "system"
  | role_tool => "tool"
  end.

Record ConversationMessage : Set := mkConversationMessage {
  cm_role : Role;
  cm_content : string
}.

(** A [tool_calls] entry of a model reply. *)
Record ModelToolCall : Set := mkModelToolCall {
  call_id : string;
  function_name : string;
  function_arguments : string
}.

(** [response.choices[0]?.message]. *)
Record ModelReply : Set := mkModelReply {
  reply_content : option string;
  reply_tool_calls : list ModelToolCall
}.

(** What [openai.chat.completions.create] resolves to. *)
Record Completion : Set := mkCompletion {
  usage_completion_tokens : option Z;
  first_choice : option ModelReply
}.

(** The outcome of one call of the language-model service. *)
Inductive LlmOutcome : Set :=
| resolves (response : Completion)
| rejects (message : string).

Definition await {S} (o : LlmOutcome) : StateExn S Completion :=
  match o with
  | resolves response => mret response
  | rejects m => throw (ServiceError m)
  end.

(** [JSON.stringify(bookedAppointments, null, 2)].  Left abstract. *)
Variable JSON_stringify_booked : list BookedAppointment -> string.

Definition newline : string := String (Ascii.ascii_of_nat 10) EmptyString.

(** [String.prototype.toLowerCase] on the ASCII letters. *)
Definition lower_ascii (c : Ascii.ascii) : Ascii.ascii :=
  let n := Ascii.nat_of_ascii c in
  if ((65 <=? n) && (n <=? 90))%nat then Ascii.ascii_of_nat (n + 32) else c.

Fixpoint toLowerCase (s : string) : string :=
  match s with
  | EmptyString => EmptyString
  | String c s' => String (lower_ascii c) (toLowerCase s')
  end.

(** [String.prototype.includes]. *)
Fixpoint includes (s sub : string) : bool :=
  String.prefix sub s ||
  match s with
  | EmptyString => false
  | String _ s' => includes s' sub
  end.

Definition extractPreferences (messages : list ConversationMessage) : Preferences :=
  let userMessages := filter (fun m => cm_role m = role_user) messages in
  let text := toLowerCase (String.concat " " (cm_content <$> userMessages)) in
  let time_preference1 :=
    if includes text "morning" || includes text "am" then Some "morning" else None in
  let time_preference2 :=
    if includes text "afternoon" || includes text "pm"
    then Some "afternoon" else time_preference1 in
  let priority_ :=
    if includes text "urgent" || includes text "asap" then Some "urgent" else None in
  mkPreferences time_preference2 priority_.

(** [(tokens / 1000) * rate]. *)
Definition token_cost (tokens rate : number) : number :=
  ((tokens / 1000) * rate)%float.

#[global] Arguments token_cost : simpl never.

Definition summary_prompt (conversationText booked : string) : string :=
  String.concat newline
    [ "Generate a concise summary of this conversation with a customer service AI agent. ";
      "Include:";
      "1. Main topics discussed";
      "2. Customer requests";
      "3. Actions taken (appointments booked, retrieved, cancelled, etc.)";
      "4. Any important details mentioned by the customer";
      EmptyString;
      "Conversation:";
      conversationText;
      EmptyString;
      "Booked Appointments:";
      booked;
      EmptyString;
      "Keep the summary under 200 words and be specific about dates, times, and actions taken." ].

Definition summary_failed : string :=
  "Summary generation failed. Conversation details saved.".

(** [costTracker], read. *)
Definition read_costTracker : Tool (list CostBreakdown) :=
  fun w => (w, Ok (costTracker w)).

Definition generateSummary (now : Z) (summarizer : LlmOutcome)
    (messages : list ConversationMessage) (contactNumber sessionId : string)
    (bookedAppointments : list BookedAppointment) : Tool string :=
  try_catch
    (let conversationText :=
       String.concat newline
         ((fun m =>
             if decide (cm_role m = role_tool) then "Tool: " +:+ cm_content m
             else role_text (cm_role m) +:+ ": " +:+ cm_content m)
          <$> filter (fun m => cm_role m <> role_system) messages) in
     let userPreferences := extractPreferences messages in
     let prompt :=
       summary_prompt conversationText (JSON_stringify_booked bookedAppointments) in
     let summaryInputTokens := (length_of prompt / 4)%float in
     _ ← addCost "openai_summary" (token_cost summaryInputTokens 0.01%float) "1k_tokens";
     response ← await summarizer;
     let summaryOutputTokens := default 0 (usage_completion_tokens response) in
     _ ← addCost "openai_summary_output"
           (token_cost (Number_of_Z summaryOutputTokens) 0.03%float) "1k_tokens";
     let summary :=
       default "No summary generated."
               (or_null (first_choice response ≫= reply_content)) in
     ledger ← read_costTracker;
     _ ← query (saveConversationSummary now contactNumber sessionId summary
                  bookedAppointments userPreferences (getTotalCost ledger) ledger);
     mret summary)
    (fun _ => mret summary_failed).

(** [generateSummary] is an [async] function.  A caller that does not
    [await] it gets control back at its first [await], the request to the
    summarizer: [generateSummary_called] is the body up to there, the
    building of the prompt and the charge of its tokens. *)
Definition generateSummary_called (messages : list ConversationMessage)
    (bookedAppointments : list BookedAppointment) : Tool () :=
  let conversationText :=
    String.concat newline
      ((fun m =>
          if decide (cm_role m = role_tool) then "Tool: " +:+ cm_content m
          else role_text (cm_role m) +:+ ": " +:+ cm_content m)
       <$> filter (fun m => cm_role m <> role_system) messages) in
  let prompt :=
    summary_prompt conversationText (JSON_stringify_booked bookedAppointments) in
  let summaryInputTokens := (length_of prompt / 4)%float in
  addCost "openai_summary" (token_cost summaryInputTokens 0.01%float) "1k_tokens".

(** [generateSummary_answered] is the rest of the body, which runs when
    the summarizer has answered: the ledger it reads and the booked
    appointments it saves are those of that moment. *)
Definition generateSummary_answered (now : Z) (summarizer : LlmOutcome)
    (messages : list ConversationMessage) (contactNumber sessionId : string)
    (bookedAppointments : list BookedAppointment) : Tool string :=
  try_catch
    (let userPreferences := extractPreferences messages in
     response ← await summarizer;
     let summaryOutputTokens := default 0 (usage_completion_tokens response) in
     _ ← addCost "openai_summary_output"
           (token_cost (Number_of_Z summaryOutputTokens) 0.03%float) "1k_tokens";
     let summary :=
       default "No summary generated."
               (or_null (first_choice response ≫= reply_content)) in
     ledger ← read_costTracker;
     _ ← query (saveConversationSummary now contactNumber sessionId summary
                  bookedAppointments userPreferences (getTotalCost ledger) ledger);
     mret summary)
    (fun _ => mret summary_failed).

(** ** The conversation agent ([agent/agent.ts]) *)

(** A [ChatCompletionMessageParam] of the session's history. *)
Record ChatMessage : Set := mkChatMessage {
  role : Role;
  content : option string;
  tool_calls : list ModelToolCall;
  tool_call_id : option string
}.

(** A [ToolCall] after execution: name, arguments and result. *)
Record ToolExecution : Set := mkToolExecution {
  executed : ToolCall;
  result : ToolResult
}.

Record AgentState : Set := mkAgentState {
  contactNumber : option string;
  sessionId : string;
  messages : list ChatMessage;
  toolCalls : list ToolExecution;
  bookedAppointments : list BookedAppointment;
  conversationEnded : bool
}.

(** What the agent's [EventEmitter] was given. *)
Inductive Event : Set :=
| event_toolCall (toolExecution : ToolExecution)
| event_summary (summary : string) (booked : list BookedAppointment)
                (calls : list ToolExecution).

(** The agent object: its state and what it emitted.  [summaryRuns] is not
    a field of the source: it counts the calls of [generateAndEmitSummary]. *)
Record Agent : Set := mkAgent {
  state : AgentState;
  emitted : list Event;
  summaryRuns : nat
}.

Definition system_prompt : string :=
  String.concat newline
    [ "You are a friendly AI assistant helping users book appointments. ";
      "Be conversational, helpful, and concise. Always confirm appointment details before booking.";
      "When booking appointments, extract dates in YYYY-MM-DD format and times in HH:MM format (24-hour).";
      "Use the available tools to help users." ].

(** [new AppointmentAgent(sessionId)]. *)
Definition new_AppointmentAgent (sessionId_ : string) : Agent :=
  mkAgent
    (mkAgentState None sessionId_
       [mkChatMessage role_system (Some system_prompt) [] None] [] [] false)
    [] 0.

(** A turn works on the agent and on the world. *)
Definition Turn : Type -> Type := StateExn (Agent * World).

Definition in_world {A} (m : Tool A) : Turn A := fun s =>
  match m (snd s) with
  | (w', r) => ((fst s, w'), r)
  end.

Definition read_state : Turn AgentState := fun s => (s, Ok (state (fst s))).

Definition write_state (f : AgentState -> AgentState) : Turn () := fun s =>
  ((mkAgent (f (state (fst s))) (emitted (fst s)) (summaryRuns (fst s)), snd s), Ok tt).

Definition emit (e : Event) : Turn () := fun s =>
  ((mkAgent (state (fst s)) (emitted (fst s) ++ [e]) (summaryRuns (fst s)), snd s), Ok tt).

Definition count_summary_run : Turn () := fun s =>
  ((mkAgent (state (fst s)) (emitted (fst s)) (S (summaryRuns (fst s))), snd s), Ok tt).

Definition push_message (m : ChatMessage) (st : AgentState) : AgentState :=
  mkAgentState (contactNumber st) (sessionId st) (messages st ++ [m]) (toolCalls st)
    (bookedAppointments st) (conversationEnded st).

Definition push_toolCall (t : ToolExecution) (st : AgentState) : AgentState :=
  mkAgentState (contactNumber st) (sessionId st) (messages st) (toolCalls st ++ [t])
    (bookedAppointments st) (conversationEnded st).

Definition push_bookedAppointment (b : BookedAppointment) (st : AgentState) : AgentState :=
  mkAgentState (contactNumber st) (sessionId st) (messages st) (toolCalls st)
    (bookedAppointments st ++ [b]) (conversationEnded st).

Definition set_contactNumber (c : option string) (st : AgentState) : AgentState :=
  mkAgentState c (sessionId st) (messages st) (toolCalls st)
    (bookedAppointments st) (conversationEnded st).

Definition set_conversationEnded (st : AgentState) : AgentState :=
  mkAgentState (contactNumber st) (sessionId st) (messages st) (toolCalls st)
    (bookedAppointments st) true.

(** [JSON.parse] of the arguments text of a tool call: [None] when it
    throws.  Left abstract. *)
Variable JSON_parse : string -> option Args.

(** [JSON.stringify(toolExecution.result)].  Left abstract. *)
Variable JSON_stringify_result : ToolResult -> string.

(** [JSON.stringify('')]: the two-character text of an empty JSON string. *)
Definition JSON_empty_string : string :=
  String (Ascii.ascii_of_nat 34) (String (Ascii.ascii_of_nat 34) EmptyString).

(** What the language-model service answers during one turn, and the
    store's clock: [follow_up i], [summarizer i] and [timestamp i] are read
    while the [i]-th tool call of the turn is handled. *)
Record Environment : Set := mkEnvironment {
  chat : LlmOutcome;
  follow_up : nat -> LlmOutcome;
  summarizer : nat -> LlmOutcome;
  timestamp : nat -> Z
}.

(** [messages.reduce((sum, m) => sum + (m.content?.length || 0) / 4, 0)]. *)
Definition inputTokens (ms : list ChatMessage) : number :=
  fold_left
    (fun sum m => (sum + length_of (default EmptyString (content m)) / 4)%float)
    ms 0%float.

(** The finalizer has nothing to wait for. *)
Definition nothing_in_flight : Turn () := mret tt.

(** [generateAndEmitSummary] is [async] and [processUserMessage] calls it
    without [await] (agent.ts, line 117).  The call runs the body up to its
    first [await], the one inside [generateSummary], and returns to the
    caller; what it returns here is the rest of the body, which runs when
    the summarizer has answered.  The history, the contact number and the
    session id are those of the call; [this.state.bookedAppointments] and
    [this.state.toolCalls] are arrays of the session, read when the rest
    runs. *)
Definition generateAndEmitSummary (now : Z) (summarizer_ : LlmOutcome)
    : Turn (Turn ()) :=
  _ ← count_summary_run;
  st ← read_state;
  if negb (truthy (contactNumber st)) then mret nothing_in_flight
  else
    let summaryMessages :=
      (fun m => mkConversationMessage (role m)
                  (default JSON_empty_string (content m)))
      <$> messages st in
    _ ← in_world (generateSummary_called summaryMessages (bookedAppointments st));
    mret
      (try_catch
         (st1 ← read_state;
          summary ← in_world
            (generateSummary_answered now summarizer_ summaryMessages
               (default EmptyString (contactNumber st)) (sessionId st)
               (bookedAppointments st1));
          st' ← read_state;
          emit (event_summary summary (bookedAppointments st') (toolCalls st')))
         (fun _ => mret tt)).

(** [JSON.parse(toolCall.function.arguments || '{}')]. *)
Definition parse_arguments (text : string) : Turn Args :=
  match JSON_parse (if decide (text = EmptyString) then "{}" else text) with
  | Some args => mret args
  | None => throw (Error "Unexpected token in JSON")
  end.

(** [toolExecution.result = await executeTool(toolExecution)]. *)
Definition run_executeTool (now : Z) (toolCall : ToolCall) : Turn ToolResult :=
  in_world (fun w =>
    match executeTool now toolCall w with
    | (r, w') => (w', Ok r)
    end).

Definition chat_cost : Turn () :=
  st ← read_state;
  in_world (addCost "openai_chat" (token_cost (inputTokens (messages st)) 0.01%float)
                    "1k_tokens").

Definition chat_output_cost (response : Completion) : Turn () :=
  in_world (addCost "openai_chat_output"
              (token_cost (Number_of_Z (default 0 (usage_completion_tokens response)))
                          0.03%float)
              "1k_tokens").

(** The [if / else if] on the tool's name that follows the execution:
    "Handle specific tool results".  It returns what the call of the
    finalizer left in flight. *)
Definition handle_specific_result (now : Z) (summarizer_ : LlmOutcome)
    (toolCall : ModelToolCall) (args : Args) (result_ : ToolResult) : Turn (Turn ()) :=
  if decide (function_name toolCall = "identify_user") then
    _ ← (if success result_
         then write_state (set_contactNumber (arg_contact_number args))
         else mret tt);
    mret nothing_in_flight
  else if decide (function_name toolCall = "book_appointment") then
    _ ← (if success result_
         then match payload result_ with
              | payload_booked b => write_state (push_bookedAppointment b)
              | _ => mret tt
              end
         else mret tt);
    mret nothing_in_flight
  else if decide (function_name toolCall = "end_conversation") then
    _ ← write_state set_conversationEnded;
    (* Generate summary *)
    generateAndEmitSummary now summarizer_
  else mret nothing_in_flight.

(** The body of [for (const toolCall of message.tool_calls)], from the
    [i]-th call on.  The finalizer that [end_conversation] started is in
    flight while the loop goes on; its request was sent before the
    follow-up request, and its response is taken to arrive first, while
    the follow-up response is awaited: the rest of the finalizer runs
    there, after the input tokens of the follow-up were charged. *)
Fixpoint handle_tool_calls (env : Environment) (i : nat) (calls : list ModelToolCall)
    (assistantResponse : string) : Turn string :=
  match calls with
  | [] => mret assistantResponse
  | toolCall :: rest =>
      args ← parse_arguments (function_arguments toolCall);
      let toolExecution0 := mkToolCall (function_name toolCall) args in
      (* Execute tool *)
      result_ ← run_executeTool (timestamp env i) toolExecution0;
      let toolExecution := mkToolExecution toolExecution0 result_ in
      _ ← write_state (push_toolCall toolExecution);
      (* Emit tool call event for frontend *)
      _ ← emit (event_toolCall toolExecution);
      (* Handle specific tool results *)
      summary_in_flight ← handle_specific_result (timestamp env i) (summarizer env i)
            toolCall args result_;
      (* Add tool result to conversation *)
      _ ← write_state (push_message
             (mkChatMessage role_assistant None [toolCall] None));
      _ ← write_state (push_message
             (mkChatMessage role_tool (Some (JSON_stringify_result result_)) []
                            (Some (call_id toolCall))));
      (* Get response after tool execution *)
      _ ← chat_cost;
      _ ← summary_in_flight;
      followUpResponse ← await (follow_up env i);
      _ ← chat_output_cost followUpResponse;
      handle_tool_calls env (S i) rest
        (default assistantResponse
                 (or_null (first_choice followUpResponse ≫= reply_content)))
  end.

Definition conversation_ended_reply : string :=
  "The conversation has ended. Thank you!".

Definition processUserMessage (env : Environment) (transcript : string) : Turn string :=
  st ← read_state;
  if conversationEnded st then mret conversation_ended_reply
  else
    (* Add user message *)
    _ ← write_state (push_message (mkChatMessage role_user (Some transcript) [] None));
    try_catch
      (_ ← chat_cost;
       (* Call OpenAI with tools *)
       response ← await (chat env);
       _ ← chat_output_cost response;
       match first_choice response with
       | None => mret "I apologize, but I could not generate a response."
       | Some message_ =>
           (* Handle tool calls *)
           assistantResponse ←
             handle_tool_calls env 0 (reply_tool_calls message_)
               (default EmptyString (reply_content message_));
           (* Add assistant response *)
           _ ← write_state (push_message
                  (mkChatMessage role_assistant (Some assistantResponse) [] None));
           mret assistantResponse
       end)
      (fun _ => mret "I apologize, but I encountered an error. Please try again.").

(** A whole conversation: the turns in order, each with its environment. *)
Fixpoint conversation (turns : list (Environment * string)) (s : Agent * World)
    : list (Result string) * (Agent * World) :=
  match turns with
  | [] => ([], s)
  | (env, transcript) :: rest =>
      match processUserMessage env transcript s with
      | (s', reply) =>
          match conversation rest s' with
          | (replies, s'') => (reply :: replies, s'')
          end
      end
  end.

(** ** The speech services ([services/speech.ts]) *)

(** The outcome of the transcription request: the transcript of the first
    alternative when the response has one, or a rejection. *)
Inductive SttOutcome : Set :=
| stt_resolves (transcript : option string)
| stt_rejects (message : string).

(** The outcome of the synthesis request: [fetch] rejects, the response
    is not [ok] (with its body text), or the audio is returned. *)
Inductive TtsOutcome : Set :=
| tts_rejects (message : string)
| tts_not_ok (body : string)
| tts_ok (audio : string).

(** [transcribeAudio]: the charge, the request, [?? ''] on the transcript;
    the [catch] logs and throws the error again. *)
Definition transcribeAudio (outcome : SttOutcome) : Tool string :=
  try_catch
    (_ ← addCost "deepgram_stt" 0.0043%float "minute";
     match outcome with
     | stt_resolves transcript => mret (default EmptyString transcript)
     | stt_rejects m => throw (ServiceError m)
     end)
    (fun error => throw error).

(** [synthesizeSpeech]: the charge of [text.length * 0.0001], the request,
    the [throw] when the response is not [ok]; the [catch] logs and throws
    the error again. *)
Definition synthesizeSpeech (text : string) (outcome : TtsOutcome) : Tool string :=
  try_catch
    (_ ← addCost "cartesia_tts" (length_of text * 0.0001)%float "character";
     match outcome with
     | tts_rejects m => throw (ServiceError m)
     | tts_not_ok body => throw (Error ("Cartesia TTS failed: " +:+ body))
     | tts_ok audio => mret audio
     end)
    (fun error => throw error).

(** ** The tool handler of the voice agent ([agent/livekit-agent.ts]) *)

(** [AgentSessionState]: the state the voice agent keeps per room. *)
Record AgentSessionState : Set := mkAgentSessionState {
  room_sessionId : string;
  room_contactNumber : option string;
  room_bookedAppointments : list BookedAppointment;
  room_conversationHistory : list ConversationMessage;
  room_toolCalls : list ToolExecution
}.

(** [getOrCreateSession] on the module-level map [sessions]; [uuid] is the
    value [uuidv4()] would give. *)
Definition getOrCreateSession (uuid roomName : string)
    (sessions : gmap string AgentSessionState)
    : AgentSessionState * gmap string AgentSessionState :=
  match sessions !! roomName with
  | Some session => (session, sessions)
  | None =>
      let session := mkAgentSessionState uuid None [] [] [] in
      (session, <[roomName := session]> sessions)
  end.

(** A data message published to the room. *)
Inductive RoomData : Set :=
| data_summary (summary : string) (booked : list BookedAppointment)
               (calls : list ToolExecution) (total : number)
               (breakdown : list CostBreakdown)
| data_toolCall (toolCall : ToolExecution).

(** The outcome of [ctx.room.localParticipant?.publishData]: delivered,
    skipped because there is no local participant, or rejected, with the
    text [String(error)] of the rejection. *)
Inductive PublishOutcome : Set :=
| delivered
| no_participant
| publish_rejects (error_text : string).

(** What the handler works on: the room's session, the data published so
    far, and the world. *)
Record RoomState : Type := mkRoomState {
  session : AgentSessionState;
  published : list RoomData;
  room_world : World
}.

Definition Room : Type -> Type := StateExn RoomState.

Definition room_in_world {A} (m : Tool A) : Room A := fun s =>
  match m (room_world s) with
  | (w', r) => (mkRoomState (session s) (published s) w', r)
  end.

Definition read_session : Room AgentSessionState := fun s => (s, Ok (session s)).

Definition write_session (f : AgentSessionState -> AgentSessionState) : Room () :=
  fun s => (mkRoomState (f (session s)) (published s) (room_world s), Ok tt).

Definition publishData (outcome : PublishOutcome) (data : RoomData) : Room () := fun s =>
  match outcome with
  | delivered =>
      (mkRoomState (session s) (published s ++ [data]) (room_world s), Ok tt)
  | no_participant => (s, Ok tt)
  | publish_rejects error_text => (s, Throw (ServiceError error_text))
  end.

Definition room_push_toolCall (t : ToolExecution) (st : AgentSessionState)
    : AgentSessionState :=
  mkAgentSessionState (room_sessionId st) (room_contactNumber st)
    (room_bookedAppointments st) (room_conversationHistory st) (room_toolCalls st ++ [t]).

Definition room_set_contactNumber (c : option string) (st : AgentSessionState)
    : AgentSessionState :=
  mkAgentSessionState (room_sessionId st) c
    (room_bookedAppointments st) (room_conversationHistory st) (room_toolCalls st).

Definition room_push_bookedAppointment (b : BookedAppointment) (st : AgentSessionState)
    : AgentSessionState :=
  mkAgentSessionState (room_sessionId st) (room_contactNumber st)
    (room_bookedAppointments st ++ [b]) (room_conversationHistory st) (room_toolCalls st).

(** [toolCall.result = ...] in the [catch]: the [toolCall] object is the
    one that was pushed to [session.toolCalls], so the recorded call gets
    the new result. *)
Definition room_overwrite_result (toolCall : ToolCall) (r : ToolResult)
    (st : AgentSessionState) : AgentSessionState :=
  mkAgentSessionState (room_sessionId st) (room_contactNumber st)
    (room_bookedAppointments st) (room_conversationHistory st)
    (match reverse (room_toolCalls st) with
     | _ :: earlier => reverse earlier ++ [mkToolExecution toolCall r]
     | [] => []
     end).

(** [String(error)] of what the [catch] of the handler receives. *)
Definition String_of_error (e : Exn) : string :=
  match e with
  | ServiceError text => text
  | Error m => "Error: " +:+ m
  | DatabaseError d => "error: " +:+ db_message d
  end.

(** What happens around one call of the handler: the clock, the answer of
    the summarization service, and the outcomes of the two publications. *)
Record RoomEnvironment : Set := mkRoomEnvironment {
  room_now : Z;
  room_summarizer : LlmOutcome;
  publish_summary : PublishOutcome;
  publish_toolCall : PublishOutcome
}.

(** The [if / else if] on the tool's name that follows the execution:
    "Track specific tool results". *)
Definition track_tool_result (env : RoomEnvironment) (toolName : string) (args : Args)
    (result_ : ToolResult) : Room () :=
  if bool_decide (toolName = "identify_user") && success result_ then
    write_session (room_set_contactNumber (arg_contact_number args))
  else if bool_decide (toolName = "book_appointment") && success result_ then
    match payload result_ with
    | payload_booked b => write_session (room_push_bookedAppointment b)
    | _ => mret tt
    end
  else if bool_decide (toolName = "end_conversation") then
    (* Generate and send summary *)
    st ← read_session;
    if truthy (room_contactNumber st) then
      try_catch
        (summary ← room_in_world
           (generateSummary (room_now env) (room_summarizer env)
              (room_conversationHistory st)
              (default EmptyString (room_contactNumber st))
              (room_sessionId st) (room_bookedAppointments st));
         (* Send summary to room via data message with cost breakdown *)
         ledger ← room_in_world read_costTracker;
         publishData (publish_summary env)
           (data_summary summary (room_bookedAppointments st)
              (room_toolCalls st) (getTotalCost ledger) ledger))
        (fun _ => mret tt)
    else mret tt
  else mret tt.

(** The [execute] function that [createTools] gives each tool. *)
Definition execute (env : RoomEnvironment) (toolName : string) (args : Args)
    : Room string :=
  let toolCall := mkToolCall toolName args in
  try_catch
    (result_ ← room_in_world (fun w =>
        match executeTool (room_now env) toolCall w with
        | (r, w') => (w', Ok r)
        end);
     let recorded_call := mkToolExecution toolCall result_ in
     _ ← write_session (room_push_toolCall recorded_call);
     (* Track specific tool results *)
     _ ← track_tool_result env toolName args result_;
     (* Send tool call update to frontend *)
     _ ← publishData (publish_toolCall env) (data_toolCall recorded_call);
     mret (JSON_stringify_result result_))
    (fun error =>
       let failure := mkToolResult false None (Some (String_of_error error)) no_payload in
       _ ← write_session (room_overwrite_result toolCall failure);
       mret (JSON_stringify_result failure)).

(** What the voice agent's handler answers when the publication of the
    tool call is rejected with [text]. *)
Definition unpublished (text : string) : ToolResult :=
  mkToolResult false None (Some text) no_payload.

(** ** Runs of the dispatcher, and what the properties speak about *)

(** One dispatch of a run: the call with its timestamp, the world before,
    the result and the world after. *)
Record Step : Type := mkStep {
  step_now : Z;
  step_call : ToolCall;
  before : World;
  outcome : ToolResult;
  after : World
}.

(** The calls of a run, dispatched one after the other. *)
Fixpoint dispatch_trace (calls : list (Z * ToolCall)) (w : World) : list Step :=
  match calls with
  | [] => []
  | (now, toolCall) :: rest =>
      match executeTool now toolCall w with
      | (r, w') => mkStep now toolCall w r w' :: dispatch_trace rest w'
      end
  end.

(** No two confirmed rows share a (date, time). *)
Definition slot_exclusive (rows : list Appointment) : Prop :=
  forall i j r1 r2,
    rows !! i = Some r1 -> rows !! j = Some r2 ->
    status r1 = confirmed -> status r2 = confirmed ->
    appointment_date r1 = appointment_date r2 ->
    appointment_time r1 = appointment_time r2 ->
    i = j.

(** A confirmed row holds the (date, time) that the texts [date] and [time]
    are bound to. *)
Definition slot_held (date time : option string) (d : Db) : Prop :=
  exists pd pt r,
    bind_param col_appointment_date date = Ok pd /\
    bind_param col_appointment_time time = Ok pt /\
    r ∈ appointments d /\ holds_slot pd pt r.

(** A successful [book_appointment] step for the texts [date] and [time]. *)
Definition booked_slot (date time : option string) (s : Step) : Prop :=
  arg_appointment_date (arguments (step_call s)) = date /\
  arg_appointment_time (arguments (step_call s)) = time /\
  success (outcome s) = true.

#[global] Instance booked_slot_dec date time s : Decision (booked_slot date time s).
Proof. unfold booked_slot. apply _. Defined.

(** The rational that a finite number stands for. *)
Definition exact (x : number) : Q :=
  match Prim2SF x with
  | S754_finite negative m e =>
      ((if negative then -1 else 1) * inject_Z (Z.pos m) * 2 ^ e)%Q
  | _ => 0%Q
  end.

(** The arithmetic sum of the costs of a ledger. *)
Definition arithmetic_sum (ledger : list CostBreakdown) : Q :=
  fold_right (fun item sum => (exact (cost item) + sum)%Q) 0%Q ledger.

(** The ledger after a cataloged operation was charged. *)
Definition charged (w : World) (service_ : string) (cost_ : number) : list CostBreakdown :=
  (costTracker w ++ [mkCost service_ cost_ "call"])%list.


(** The rows of [appointments] after an [UPDATE ... WHERE id = $n AND
    contact_number = $m]. *)
Definition rewritten (appointmentId : option Z) (contactNumber : option string)
    (set : Appointment -> Appointment) (rows : list Appointment) : list Appointment :=
  (fun r => if bool_decide (owned_row appointmentId contactNumber r) then set r else r)
  <$> rows.

(** The primary key of [appointments] and the sequence behind it: the ids
    are distinct and below the next value of the sequence. *)
Definition well_keyed (d : Db) : Prop :=
  NoDup (id <$> appointments d) /\
  forall r, r ∈ appointments d -> id r < appointments_id_seq d.

(** A modification that supplies exactly one of [new_date] and [new_time]. *)
Definition one_field_modify (tc : ToolCall) : Prop :=
  name tc = "modify_appointment" /\
  truthy (arg_new_date (arguments tc)) <> truthy (arg_new_time (arguments tc)).

(** The row [ON CONFLICT ... DO UPDATE] leaves for a stored user. *)
Definition merged (now : Z) (p2 p3 : option string) (u : User) : User :=
  mkUser (user_contact_number u) (COALESCE p2 (user_name u))
         (COALESCE p3 (user_email u)) (user_created_at u) now.

(** The call with its empty [name] and [email] taken as absent. *)
Definition empty_as_absent (tc : ToolCall) : ToolCall :=
  let a := arguments tc in
  mkToolCall (name tc)
    (mkArgs (arg_contact_number a) (or_null (arg_name a)) (or_null (arg_email a))
       (arg_date a) (arg_appointment_date a) (arg_appointment_time a)
       (arg_service_type a) (arg_notes a) (arg_status a) (arg_appointment_id a)
       (arg_new_date a) (arg_new_time a)).

(** [triple P m Q E]: from an agent satisfying [P], the computation [m]
    ends in an agent satisfying [Q] when it returns and [E] when it
    throws, whatever the world is. *)
Definition triple {A} (P : Agent -> Prop) (m : Turn A)
    (Q : A -> Agent -> Prop) (E : Agent -> Prop) : Prop :=
  forall s, P (fst s) ->
    match m s with
    | (s', Ok a) => Q a (fst s')
    | (s', Throw _) => E (fst s')
    end.

(** A recorded dispatch of [end_conversation]. *)
Definition is_end (t : ToolExecution) : Prop :=
  name (executed t) = "end_conversation".

#[global] Instance is_end_dec t : Decision (is_end t).
Proof. unfold is_end. apply _. Defined.

(** How many times the session dispatched [end_conversation]. *)
Definition ends (st : AgentState) : nat := length (filter is_end (toolCalls st)).

(** The session's terminal flag is set exactly when [end_conversation] was
    dispatched, and the finalizer ran once for each such dispatch. *)
Definition finalized (ag : Agent) : Prop :=
  summaryRuns ag = ends (state ag) /\
  (conversationEnded (state ag) = true <-> ends (state ag) <> 0%nat).

(** The agents a session can be in: a new agent, and the agent after a
    turn taken in any world. *)
Inductive reachable : Agent -> Prop :=
| reachable_new sessionId_ : reachable (new_AppointmentAgent sessionId_)
| reachable_turn ag w env transcript :
    reachable ag ->
    reachable (fst (fst (processUserMessage env transcript (ag, w)))).

(** The entry that [executeTool] charges for a cataloged operation: 0.002
    for the three operations that write appointments, 0.001 for the
    others. *)
Definition operation_cost (operation : string) : number :=
  if decide (operation = "book_appointment") then 0.002%float
  else if decide (operation = "cancel_appointment") then 0.002%float
  else if decide (operation = "modify_appointment") then 0.002%float
  else 0.001%float.

(** The world after the calls of a run. *)
Definition dispatch_all (calls : list (Z * ToolCall)) (w : World) : World :=
  fold_left (fun w c => snd (executeTool c.1 c.2 w)) calls w.


(** The rows [getAppointments] selects: those of the contact, with the
    given status when the [status] argument is truthy. *)
Definition selected (contactNumber status_ : option string) (r : Appointment) : Prop :=
  Some (contact_number r) = contactNumber /\
  (truthy status_ = true -> Some (status_text (status r)) = status_).

#[global] Instance selected_dec c s r : Decision (selected c s r).
Proof. unfold selected. apply _. Defined.

(** What a recorded tool call added to [bookedAppointments]: the
    appointment of a successful [book_appointment]. *)
Definition booked_by (t : ToolExecution) : option BookedAppointment :=
  if decide (name (executed t) = "book_appointment") then
    if success (result t) then
      match payload (result t) with
      | payload_booked b => Some b
      | _ => None
      end
    else None
  else None.

(** What a recorded tool call made of [contactNumber]: the
    [contact_number] argument of a successful [identify_user]. *)
Definition identified_by (t : ToolExecution) : option (option string) :=
  if decide (name (executed t) = "identify_user") then
    if success (result t) then Some (arg_contact_number (arguments (executed t)))
    else None
  else None.

(** The session fields are the fold of the recorded tool calls. *)
Definition recorded (ag : Agent) : Prop :=
  bookedAppointments (state ag) = omap booked_by (toolCalls (state ag)) /\
  contactNumber (state ag) = mjoin (last (omap identified_by (toolCalls (state ag)))).

(** The session and the ledger of [s] continue those of [s0]: same session
    id, and the history, the recorded tool calls, the booked appointments,
    the emitted events and the ledger of [s0] are prefixes of those of
    [s]. *)
Definition continues (s0 s : Agent * World) : Prop :=
  sessionId (state s.1) = sessionId (state s0.1) /\
  messages (state s0.1) `prefix_of` messages (state s.1) /\
  toolCalls (state s0.1) `prefix_of` toolCalls (state s.1) /\
  bookedAppointments (state s0.1) `prefix_of` bookedAppointments (state s.1) /\
  emitted s0.1 `prefix_of` emitted s.1 /\
  costTracker s0.2 `prefix_of` costTracker s.2.

(** [holds_through P m]: the computation [m] keeps [P] true of the agent
    and the world, whether it returns or throws. *)
Definition holds_through {A} (P : Agent * World -> Prop) (m : Turn A) : Prop :=
  forall s, P s -> P (fst (m s)).

(** What a finalizer in flight does when it runs: it returns, it leaves
    the session state and the count of the finalizer's runs as they are,
    and it only adds to what was emitted and to the ledger. *)
Definition reports_only (k : Turn ()) : Prop :=
  forall s, exists events,
    snd (k s) = Ok tt /\
    state (fst (fst (k s))) = state (fst s) /\
    summaryRuns (fst (fst (k s))) = summaryRuns (fst s) /\
    emitted (fst (fst (k s))) = (emitted (fst s) ++ events)%list /\
    costTracker (snd s) `prefix_of` costTracker (snd (fst (k s))).

(** ** The dispatcher, case by case *)

Ltac tool_case H :=
  unfold executeTool, tool_switch; rewrite H; simpl;
  unfold mbind, mret, StateExn_bind, StateExn_ret, addCost, query, throw; simpl.

Lemma executeTool_identify now tc w :
  name tc = "identify_user" ->
  executeTool now tc w =
  match createOrUpdateUser now (arg_contact_number (arguments tc))
          (arg_name (arguments tc)) (arg_email (arguments tc)) (db w) with
  | Ok (user, d') =>
      (succeeded
         (Some ("User identified: " +:+ template (arg_contact_number (arguments tc))))
         (payload_user user),
       mkWorld d' (charged w "identify_user" 0.001%float))
  | Throw e => (failed e, mkWorld (db w) (charged w "identify_user" 0.001%float))
  end.
Proof.
  intros H. tool_case H.
  destruct (createOrUpdateUser _ _ _ _ _) as [[u d']|e]; reflexivity.
Qed.

Lemma executeTool_book now tc w :
  name tc = "book_appointment" ->
  executeTool now tc w =
  match createAppointment now (arg_contact_number (arguments tc))
          (arg_appointment_date (arguments tc)) (arg_appointment_time (arguments tc))
          (arg_service_type (arguments tc)) (arg_notes (arguments tc)) (db w) with
  | (d', Ok a) =>
      (succeeded (Some "Appointment booked successfully")
         (payload_booked (mkBooked (id a) (appointment_date a) (appointment_time a)
                                   (service_type a))),
       mkWorld d' (charged w "book_appointment" 0.002%float))
  | (d', Throw e) => (failed e, mkWorld d' (charged w "book_appointment" 0.002%float))
  end.
Proof.
  intros H. tool_case H. unfold statement. simpl.
  destruct (createAppointment _ _ _ _ _ _ _) as [d' [a|e]]; reflexivity.
Qed.

(** Run with nothing else in flight, the call in flight is the
    [book_appointment] case of [executeTool]. *)
Lemma book_in_flight_alone now tc w :
  name tc = "book_appointment" ->
  run_alone (snd (book_in_flight now tc w)) (fst (book_in_flight now tc w))
  = (snd (executeTool now tc w), fst (executeTool now tc w)).
Proof.
  intros H. tool_case H. unfold statement, book_in_flight. simpl.
  unfold createAppointment, reads, throw.
  unfold mbind, StateExn_bind. simpl.
  destruct (SELECT_confirmed _ _ _) as [rows|e]; simpl; [|reflexivity].
  destruct (negb _); simpl; [reflexivity|].
  destruct (INSERT_appointment _ _ _ _ _ _ _) as [d' [a|e]]; reflexivity.
Qed.

Lemma executeTool_cancel now tc w :
  name tc = "cancel_appointment" ->
  executeTool now tc w =
  match cancelAppointment now (arg_appointment_id (arguments tc))
          (arg_contact_number (arguments tc)) (db w) with
  | Ok (Some a, d') =>
      (succeeded (Some "Appointment cancelled successfully")
         (payload_appointment (id a) (appointment_date a) (appointment_time a)),
       mkWorld d' (charged w "cancel_appointment" 0.002%float))
  | Ok (None, d') =>
      (failed (Error "Appointment not found or already cancelled"),
       mkWorld d' (charged w "cancel_appointment" 0.002%float))
  | Throw e => (failed e, mkWorld (db w) (charged w "cancel_appointment" 0.002%float))
  end.
Proof.
  intros H. tool_case H.
  destruct (cancelAppointment _ _ _ _) as [[[a|] d']|e]; reflexivity.
Qed.

Lemma executeTool_modify now tc w :
  name tc = "modify_appointment" ->
  executeTool now tc w =
  match modifyAppointment now (arg_appointment_id (arguments tc))
          (arg_contact_number (arguments tc)) (arg_new_date (arguments tc))
          (arg_new_time (arguments tc)) (db w) with
  | Ok (Some a, d') =>
      (succeeded (Some "Appointment modified successfully")
         (payload_appointment (id a) (appointment_date a) (appointment_time a)),
       mkWorld d' (charged w "modify_appointment" 0.002%float))
  | Ok (None, d') =>
      (failed (Error "Appointment not found"),
       mkWorld d' (charged w "modify_appointment" 0.002%float))
  | Throw e => (failed e, mkWorld (db w) (charged w "modify_appointment" 0.002%float))
  end.
Proof.
  intros H. tool_case H.
  destruct (modifyAppointment _ _ _ _ _ _) as [[[a|] d']|e]; reflexivity.
Qed.

(** The operations that only read: the store is as before. *)
Lemma executeTool_reads now tc w :
  name tc <> "identify_user" -> name tc <> "book_appointment" ->
  name tc <> "cancel_appointment" -> name tc <> "modify_appointment" ->
  db (snd (executeTool now tc w)) = db w.
Proof.
  intros H1 H2 H3 H4. unfold executeTool, tool_switch.
  repeat case_decide; try congruence;
    unfold mbind, mret, StateExn_bind, StateExn_ret, addCost, query, throw;
    simpl; reflexivity.
Qed.

(** The dispatch of a name outside the catalog leaves the world as it is. *)
Lemma executeTool_unknown now tc w :
  name tc ∉ toolDefinitions ->
  executeTool now tc w = (failed (Error ("Unknown tool: " +:+ name tc)), w).
Proof.
  intros H. unfold executeTool, tool_switch.
  repeat case_decide;
    try (exfalso; apply H; unfold toolDefinitions;
         match goal with E : name tc = _ |- _ => rewrite E end;
         set_solver).
  reflexivity.
Qed.

(** ** The uniform envelope *)

(** Whatever the [switch] returns is a success envelope. *)
Lemma tool_switch_returns now tc w w' r :
  tool_switch now tc w = (w', Ok r) -> success r = true /\ error r = None.
Proof.
  unfold tool_switch.
  repeat case_decide;
    unfold mbind, mret, StateExn_bind, StateExn_ret, addCost, query, statement, throw;
    simpl;
    repeat match goal with
           | |- context [createAppointment ?n ?c ?dt ?tm ?sv ?nt ?d] =>
               destruct (createAppointment n c dt tm sv nt d) as [? [?|?]]; simpl
           | |- context [match ?f (db w) with _ => _ end] => destruct (f (db w)) as [[? ?]|?]; simpl
           | |- context [match ?o with Some _ => _ | None => _ end] => destruct o; simpl
           end;
    intros E; inversion E; subst; split; reflexivity.
Qed.

(** C6: for every operation name and argument bag, a dispatch returns the
    uniform envelope and never lets a failure of the operation escape:
    either the operation returned and the envelope has [success = true]
    and no error, or the operation threw and the envelope is
    [{success: false, error: <message>}] with a non-empty error text that
    is the thrown message whenever that message is not empty.  The
    unknown-operation case is converted in the same way. *)
Theorem executeTool_uniform_envelope (now : Z) (tc : ToolCall) (w : World) :
  (exists r, tool_switch now tc w = (snd (executeTool now tc w), Ok r) /\
             fst (executeTool now tc w) = r /\
             success r = true /\ error r = None) \/
  (exists e m, tool_switch now tc w = (snd (executeTool now tc w), Throw e) /\
               fst (executeTool now tc w) = mkToolResult false None (Some m) no_payload /\
               m <> EmptyString /\
               (exn_message e <> EmptyString -> m = exn_message e) /\
               (name tc ∉ toolDefinitions -> m = "Unknown tool: " +:+ name tc)).
Proof.
  unfold executeTool.
  destruct (tool_switch now tc w) as [w' [r|e]] eqn:E; simpl.
  - left. exists r. destruct (tool_switch_returns _ _ _ _ _ E). auto.
  - right.
    exists e, (if bool_decide (exn_message e = EmptyString)
               then "Unknown error" else exn_message e).
    repeat split.
    + case_bool_decide; [discriminate | assumption].
    + intros Hne. case_bool_decide; congruence.
    + intros Hout.
      pose proof (executeTool_unknown now tc w Hout) as Hu.
      unfold executeTool in Hu. rewrite E in Hu.
      injection Hu as Hu _. exact Hu.
Qed.

(** ** The cost ledger *)




(** ** Booking: one confirmed appointment per slot *)

Ltac unfold_result := unfold mbind, mret, Result_bind, Result_ret in *.

Ltac unfold_statement :=
  unfold createAppointment, reads, SELECT_confirmed, INSERT_appointment, throw;
  unfold mbind, mret, StateExn_bind, StateExn_ret, Result_bind, Result_ret in *.


Lemma createAppointment_inserted now c date time s n d row d' :
  createAppointment now c date time s n d = (d', Ok row) ->
  bind_param col_appointment_date date = Ok (Some (appointment_date row)) /\
  bind_param col_appointment_time time = Ok (Some (appointment_time row)) /\
  filter (holds_slot (Some (appointment_date row)) (Some (appointment_time row)))
         (appointments d) = [] /\
  status row = confirmed /\
  appointments d' = (appointments d ++ [row])%list /\
  users d' = users d /\ conversation_summaries d' = conversation_summaries d /\
  id row = appointments_id_seq d /\
  appointments_id_seq d' = appointments_id_seq d + 1.
Proof.
  unfold_statement.
  destruct (bind_param col_appointment_date date) as [pd|] eqn:Hd; [|discriminate].
  destruct (bind_param col_appointment_time time) as [pt|] eqn:Ht; [|discriminate].
  simpl. case_bool_decide as Hfree; simpl; [|discriminate].
  destruct (bind_param col_contact_number c) as [p1|]; [|discriminate].
  destruct (bind_param col_service_type (or_null s)) as [p4|]; [|discriminate].
  destruct (bind_param col_notes (or_null n)) as [p5|]; [|discriminate].
  destruct p1 as [c'|]; simpl; [|discriminate].
  destruct pd as [dt|]; simpl; [|discriminate].
  destruct pt as [tm|]; simpl; [|discriminate].
  case_bool_decide; [discriminate|].
  case_bool_decide; [discriminate|].
  intros E. injection E as <- <-. simpl. auto 10.
Qed.

(** A refused [createAppointment] leaves every table as it was; the
    sequence has moved when the [INSERT] itself was refused. *)
Lemma createAppointment_refused now c date time s n d d' e :
  createAppointment now c date time s n d = (d', Throw e) ->
  d' = d \/ d' = nextval d.
Proof.
  unfold_statement.
  destruct (bind_param col_appointment_date date) as [pd|]; simpl;
    [|intros E; injection E as <- _; auto].
  destruct (bind_param col_appointment_time time) as [pt|]; simpl;
    [|intros E; injection E as <- _; auto].
  case_bool_decide; simpl; [|intros E; injection E as <- _; auto].
  destruct (bind_param col_contact_number c) as [p1|]; simpl;
    [|intros E; injection E as <- _; auto].
  destruct (bind_param col_service_type (or_null s)) as [p4|]; simpl;
    [|intros E; injection E as <- _; auto].
  destruct (bind_param col_notes (or_null n)) as [p5|]; simpl;
    [|intros E; injection E as <- _; auto].
  match goal with
  | |- context [match ?m with Ok _ => _ | Throw _ => _ end] => destruct m
  end; intros E; injection E as <- ?; auto; discriminate.
Qed.

Lemma slot_held_nextval date time d :
  slot_held date time (nextval d) <-> slot_held date time d.
Proof. reflexivity. Qed.

(** What one [book_appointment] dispatch does to the store. *)
Lemma book_step now tc w :
  name tc = "book_appointment" ->
  (success (fst (executeTool now tc w)) = false /\
   (db (snd (executeTool now tc w)) = db w \/
    db (snd (executeTool now tc w)) = nextval (db w))) \/
  (success (fst (executeTool now tc w)) = true /\
   exists row,
     appointments (db (snd (executeTool now tc w)))
       = (appointments (db w) ++ [row])%list /\
     status row = confirmed /\
     bind_param col_appointment_date (arg_appointment_date (arguments tc))
       = Ok (Some (appointment_date row)) /\
     bind_param col_appointment_time (arg_appointment_time (arguments tc))
       = Ok (Some (appointment_time row)) /\
     filter (holds_slot (Some (appointment_date row)) (Some (appointment_time row)))
            (appointments (db w)) = []).
Proof.
  intros H. rewrite (executeTool_book now tc w H).
  destruct (createAppointment _ _ _ _ _ _ _) as [d' [row|e]] eqn:E; simpl.
  - right. split; [reflexivity|]. exists row.
    destruct (createAppointment_inserted _ _ _ _ _ _ _ _ _ E)
      as (Hd & Ht & Hfree & Hst & Happ & _).
    auto 10.
  - left. split; [reflexivity|]. exact (createAppointment_refused _ _ _ _ _ _ _ _ _ E).
Qed.




Lemma slot_exclusive_after_booking now tc w :
  name tc = "book_appointment" ->
  slot_exclusive (appointments (db w)) ->
  slot_exclusive (appointments (db (snd (executeTool now tc w)))).
Proof.
  intros H Hex.
  destruct (book_step now tc w H) as [[_ [Hdb|Hdb]]|[_ (row & Happ & Hst & _ & _ & Hfree)]].
  - rewrite Hdb. exact Hex.
  - rewrite Hdb. exact Hex.
  - rewrite Happ.
    assert (Hnew : forall i r, appointments (db w) !! i = Some r ->
              status r = confirmed ->
              appointment_date r = appointment_date row ->
              appointment_time r = appointment_time row -> False).
    { intros i r Hi Hc Hd Ht.
      assert (Hr : r ∈ filter (holds_slot (Some (appointment_date row))
                                          (Some (appointment_time row)))
                              (appointments (db w))).
      { apply list_elem_of_filter. split.
        - unfold holds_slot. rewrite Hd, Ht. auto.
        - eapply list_elem_of_lookup_2; eauto. }
      rewrite Hfree in Hr. inversion Hr. }
    intros i j r1 r2 Hi Hj Hc1 Hc2 Hd Ht.
    apply lookup_app_Some in Hi as [Hi|[Hli Hi]];
      apply lookup_app_Some in Hj as [Hj|[Hlj Hj]].
    + eapply Hex; eauto.
    + exfalso. apply list_lookup_singleton_Some in Hj as [_ <-].
      eapply Hnew; eauto.
    + exfalso. apply list_lookup_singleton_Some in Hi as [_ <-].
      eapply (Hnew j r2); eauto.
    + apply list_lookup_singleton_Some in Hi as [Hi _].
      apply list_lookup_singleton_Some in Hj as [Hj _].
      unfold length in *. lia.
Qed.






(** ** Cancelling and modifying *)

Lemma UPDATE_owned_cases i c set d r d' :
  UPDATE_owned i c set d = Ok (r, d') ->
  (r = None /\ d' = d /\ filter (owned_row i c) (appointments d) = []) \/
  (exists first rest,
     r = Some (set first) /\
     filter (owned_row i c) (appointments d) = first :: rest /\
     d' = with_appointments d (rewritten i c set (appointments d))).
Proof.
  unfold UPDATE_owned.
  destruct (filter (owned_row i c) (appointments d)) as [|first rest] eqn:Hf; simpl.
  - intros E. injection E as <- <-. left. auto.
  - destruct (existsb _ _); [discriminate|].
    intros E. injection E as <- <-. right. exists first, rest. auto.
Qed.

Lemma UPDATE_owned_no_row i c set d :
  filter (owned_row i c) (appointments d) = [] ->
  UPDATE_owned i c set d = Ok (None, d).
Proof. intros Hf. unfold UPDATE_owned. rewrite Hf. reflexivity. Qed.

(** A parameter that the store accepts is bound to itself; a parameter
    that it refuses selects no row. *)
Lemma bind_id_Ok p q : bind_id p = Ok q -> q = p.
Proof.
  destruct p as [i|]; simpl; [|congruence].
  destruct (decide (INTEGER i)); congruence.
Qed.

Lemma bind_id_Throw p e c r : bind_id p = Throw e -> ~ owned_row p c r.
Proof.
  destruct p as [i|]; simpl; [|discriminate].
  destruct (decide (INTEGER i)) as [|Hout]; [discriminate|].
  intros _ (Ei & _ & Hin). injection Ei as Ei. apply Hout. rewrite <- Ei. exact Hin.
Qed.

Lemma bind_id_owned p c r : owned_row p c r -> bind_id p = Ok p.
Proof.
  intros (Ei & _ & Hin). rewrite <- Ei. simpl.
  rewrite decide_True by exact Hin. reflexivity.
Qed.

Lemma cancelAppointment_cases now i c d :
  cancelAppointment now i c d = UPDATE_owned i c (set_cancelled now) d \/
  (bind_id i = Throw (DatabaseError numeric_value_out_of_range) /\
   cancelAppointment now i c d = Throw (DatabaseError numeric_value_out_of_range)).
Proof.
  unfold cancelAppointment. unfold_result.
  destruct (bind_id i) as [q|e] eqn:E.
  - left. rewrite (bind_id_Ok _ _ E). reflexivity.
  - right. destruct i as [z|]; simpl in E; [|discriminate].
    destruct (decide (INTEGER z)); [discriminate|]. injection E as <-. auto.
Qed.

(** [cancelAppointment], by what becomes of its parameter. *)
Lemma cancelAppointment_bound now i c d :
  cancelAppointment now i c d
  = match bind_id i with
    | Ok _ => UPDATE_owned i c (set_cancelled now) d
    | Throw e => Throw e
    end.
Proof.
  unfold cancelAppointment. unfold_result.
  destruct (bind_id i) as [q|e] eqn:E; [|reflexivity].
  rewrite (bind_id_Ok _ _ E). reflexivity.
Qed.

(** A call that names no row of the given contact is answered with the
    not-found error, and the store stays as it was. *)
Lemma cancel_not_owned now tc w :
  name tc = "cancel_appointment" ->
  filter (owned_row (arg_appointment_id (arguments tc))
                    (arg_contact_number (arguments tc)))
         (appointments (db w)) = [] ->
  success (fst (executeTool now tc w)) = false /\
  (bind_id (arg_appointment_id (arguments tc)) = Ok (arg_appointment_id (arguments tc)) ->
   fst (executeTool now tc w)
   = failed (Error "Appointment not found or already cancelled")) /\
  db (snd (executeTool now tc w)) = db w.
Proof.
  intros H Hf. rewrite (executeTool_cancel now tc w H).
  rewrite cancelAppointment_bound.
  destruct (bind_id _) as [q|e]; simpl.
  - rewrite (UPDATE_owned_no_row _ _ _ _ Hf). simpl. auto.
  - split; [reflexivity|]. split; [discriminate|reflexivity].
Qed.

(** The conflict check of [modifyAppointment], on the path where both
    fields are supplied. *)
Lemma modifyAppointment_conflict now i c newDate newTime d pd pt r :
  truthy newDate = true -> truthy newTime = true ->
  bind_param col_appointment_date newDate = Ok pd ->
  bind_param col_appointment_time newTime = Ok pt ->
  bind_id i = Ok i ->
  r ∈ appointments d -> holds_slot pd pt r -> other_row i r ->
  modifyAppointment now i c newDate newTime d
    = Throw (Error "New appointment slot already booked").
Proof.
  intros Hd Ht Hbd Hbt Hbi Hin Hh Ho.
  unfold modifyAppointment. unfold_result. rewrite Hd, Ht. simpl.
  rewrite Hbd, Hbt, Hbi.
  rewrite bool_decide_false; [reflexivity|].
  intros E.
  assert (Hr : r ∈ filter (fun r => holds_slot pd pt r /\ other_row i r) (appointments d))
    by (apply list_elem_of_filter; auto).
  rewrite E in Hr. inversion Hr.
Qed.

Lemma modify_conflict_refused now tc w pd pt r :
  name tc = "modify_appointment" ->
  truthy (arg_new_date (arguments tc)) = true ->
  truthy (arg_new_time (arguments tc)) = true ->
  bind_param col_appointment_date (arg_new_date (arguments tc)) = Ok pd ->
  bind_param col_appointment_time (arg_new_time (arguments tc)) = Ok pt ->
  bind_id (arg_appointment_id (arguments tc)) = Ok (arg_appointment_id (arguments tc)) ->
  r ∈ appointments (db w) -> holds_slot pd pt r ->
  other_row (arg_appointment_id (arguments tc)) r ->
  fst (executeTool now tc w) = failed (Error "New appointment slot already booked") /\
  db (snd (executeTool now tc w)) = db w.
Proof.
  intros H Hd Ht Hbd Hbt Hbi Hin Hh Ho. rewrite (executeTool_modify now tc w H).
  rewrite (modifyAppointment_conflict _ _ _ _ _ _ _ _ _ Hd Ht Hbd Hbt Hbi Hin Hh Ho).
  simpl. auto.
Qed.

Lemma modifyAppointment_cases now i c newDate newTime d r d' :
  modifyAppointment now i c newDate newTime d = Ok (r, d') ->
  exists pd pt,
    UPDATE_owned i c (set_date_time now pd pt) d = Ok (r, d').
Proof.
  unfold modifyAppointment. unfold_result.
  destruct (if truthy newDate && truthy newTime then _ else _); [|discriminate].
  destruct (negb _); [discriminate|].
  destruct (bind_param col_appointment_date _) as [pd|]; [|discriminate].
  destruct (bind_param col_appointment_time _) as [pt|]; [|discriminate].
  destruct (bind_id i) as [q|] eqn:Hb; [|discriminate].
  rewrite (bind_id_Ok _ _ Hb). eauto.
Qed.

Lemma createOrUpdateUser_appointments now c n e d u d' :
  createOrUpdateUser now c n e d = Ok (u, d') ->
  appointments d' = appointments d.
Proof.
  unfold createOrUpdateUser. unfold_result.
  destruct (bind_param col_contact_number c) as [p1|]; [|discriminate].
  destruct (bind_param col_name _) as [p2|]; [|discriminate].
  destruct (bind_param col_email _) as [p3|]; [|discriminate].
  destruct (required col_contact_number p1) as [key|]; [|discriminate].
  intros E. injection E as _ <-. reflexivity.
Qed.

(** A row that an update does not select keeps its place and its
    contents; a selected row is rewritten by [set]. *)
Lemma rewritten_lookup i c set rows k r :
  rows !! k = Some r ->
  rewritten i c set rows !! k
    = Some (if bool_decide (owned_row i c r) then set r else r).
Proof. intros Hk. unfold rewritten. rewrite list_lookup_fmap, Hk. reflexivity. Qed.

(** What any dispatch does to a stored appointment: it stays at its
    place with its id and owner, and its status changes only when
    [cancel_appointment] selects it. *)
Lemma executeTool_keeps_row now tc w k r :
  appointments (db w) !! k = Some r ->
  exists r',
    appointments (db (snd (executeTool now tc w))) !! k = Some r' /\
    id r' = id r /\ contact_number r' = contact_number r /\
    (status r' = status r \/
     (name tc = "cancel_appointment" /\
      owned_row (arg_appointment_id (arguments tc))
                (arg_contact_number (arguments tc)) r /\
      status r' = cancelled)).
Proof.
  intros Hk.
  destruct (decide (name tc = "identify_user")) as [H1|H1].
  { rewrite (executeTool_identify now tc w H1).
    destruct (createOrUpdateUser _ _ _ _ _) as [[u d']|e] eqn:E; simpl.
    - rewrite (createOrUpdateUser_appointments _ _ _ _ _ _ _ E). eauto 10.
    - eauto 10. }
  destruct (decide (name tc = "book_appointment")) as [H2|H2].
  { destruct (book_step now tc w H2) as [[_ [-> | ->]]|[_ (row & -> & _)]].
    - eauto 10.
    - simpl. eauto 10.
    - exists r. rewrite lookup_app_l by (eapply lookup_lt_Some; eauto). auto 10. }
  destruct (decide (name tc = "cancel_appointment")) as [H3|H3].
  { rewrite (executeTool_cancel now tc w H3).
    destruct (cancelAppointment_cases now (arg_appointment_id (arguments tc))
                (arg_contact_number (arguments tc)) (db w)) as [-> | [_ ->]];
      [|simpl; eauto 10].
    destruct (UPDATE_owned _ _ _ _) as [[a d']|e] eqn:E; simpl.
    - destruct (UPDATE_owned_cases _ _ _ _ _ _ E)
        as [(-> & -> & _)|(first & rest & -> & _ & ->)]; simpl.
      + eauto 10.
      + rewrite (rewritten_lookup _ _ _ _ _ _ Hk).
        case_bool_decide as Ho; eexists; (split; [reflexivity|]); simpl; auto 10.
    - eauto 10. }
  destruct (decide (name tc = "modify_appointment")) as [H4|H4].
  { rewrite (executeTool_modify now tc w H4).
    destruct (modifyAppointment _ _ _ _ _ _) as [[a d']|e] eqn:E; simpl.
    - destruct (modifyAppointment_cases _ _ _ _ _ _ _ _ E) as (pd & pt & E').
      destruct (UPDATE_owned_cases _ _ _ _ _ _ E')
        as [(-> & -> & _)|(first & rest & -> & _ & ->)]; simpl.
      + eauto 10.
      + rewrite (rewritten_lookup _ _ _ _ _ _ Hk).
        case_bool_decide as Ho; eexists; (split; [reflexivity|]); simpl; auto 10.
    - eauto 10. }
  rewrite (executeTool_reads now tc w H1 H2 H3 H4). eauto 10.
Qed.

(** C4 (as amended): for every stored appointment whose status is
    'completed', no dispatch of [book_appointment] or [modify_appointment]
    (nor of any other operation) changes its status, and a dispatch of
    [cancel_appointment] leaves its status unchanged unless the call names
    that appointment's id together with its owner's contact number. *)
Theorem completed_status_kept (now : Z) (tc : ToolCall) (w : World)
    (k : nat) (r : Appointment) :
  appointments (db w) !! k = Some r ->
  status r = completed ->
  ~ (name tc = "cancel_appointment" /\
     owned_row (arg_appointment_id (arguments tc))
               (arg_contact_number (arguments tc)) r) ->
  exists r',
    appointments (db (snd (executeTool now tc w))) !! k = Some r' /\
    id r' = id r /\ contact_number r' = contact_number r /\
    status r' = completed.
Proof.
  intros Hk Hc Hnot.
  destruct (executeTool_keeps_row now tc w k r Hk) as (r' & Hk' & Hid & Hcn & Hst).
  exists r'. repeat split; auto.
  destruct Hst as [Hst|(Hn & Ho & _)]; [congruence|].
  exfalso. apply Hnot. auto.
Qed.

(** ** Which dispatches keep the slots exclusive *)

Lemma rewritten_ids i c set rows :
  (forall r, id (set r) = id r) ->
  id <$> rewritten i c set rows = id <$> rows.
Proof.
  intros Hid. unfold rewritten. rewrite <- list_fmap_compose.
  apply list_fmap_ext. intros k r _. simpl. case_bool_decide; auto.
Qed.

Lemma rewritten_elem i c set rows r' :
  r' ∈ rewritten i c set rows ->
  exists r, r ∈ rows /\
            r' = if bool_decide (owned_row i c r) then set r else r.
Proof.
  unfold rewritten. intros H. apply list_elem_of_fmap in H as (r & -> & Hr). eauto.
Qed.

Lemma well_keyed_rewritten i c set d :
  (forall r, id (set r) = id r) ->
  well_keyed d -> well_keyed (with_appointments d (rewritten i c set (appointments d))).
Proof.
  intros Hid [Hnd Hlt]. split; simpl.
  - rewrite rewritten_ids by exact Hid. exact Hnd.
  - intros r' Hr'. apply rewritten_elem in Hr' as (r & Hr & ->).
    case_bool_decide; [rewrite Hid|]; auto.
Qed.

(** A store whose rows kept their places, where every confirmed row was
    confirmed before with the same date and time, is exclusive if it
    was. *)
Lemma slot_exclusive_narrowed rows rows' :
  (forall k r', rows' !! k = Some r' -> status r' = confirmed ->
     exists r, rows !! k = Some r /\ status r = confirmed /\
               appointment_date r = appointment_date r' /\
               appointment_time r = appointment_time r') ->
  slot_exclusive rows -> slot_exclusive rows'.
Proof.
  intros Hback Hex j k r1 r2 Hj Hk Hc1 Hc2 Hd Ht.
  destruct (Hback j r1 Hj Hc1) as (q1 & Hq1 & Hs1 & Hd1 & Ht1).
  destruct (Hback k r2 Hk Hc2) as (q2 & Hq2 & Hs2 & Hd2 & Ht2).
  apply (Hex j k q1 q2); auto; congruence.
Qed.

Lemma modifyAppointment_both now i c newDate newTime d r d' :
  truthy newDate = true -> truthy newTime = true ->
  modifyAppointment now i c newDate newTime d = Ok (r, d') ->
  exists dt tm,
    filter (fun r => holds_slot (Some dt) (Some tm) r /\ other_row i r)
           (appointments d) = [] /\
    UPDATE_owned i c (set_date_time now (Some dt) (Some tm)) d = Ok (r, d').
Proof.
  intros Hd Ht. unfold modifyAppointment. unfold_result. rewrite Hd, Ht. simpl.
  assert (Hnd : or_null newDate = newDate)
    by (destruct newDate as [[|? ?]|]; try reflexivity; discriminate Hd).
  assert (Hnt : or_null newTime = newTime)
    by (destruct newTime as [[|? ?]|]; try reflexivity; discriminate Ht).
  rewrite Hnd, Hnt.
  destruct (bind_param col_appointment_date newDate) as [pd|] eqn:Ed; [|discriminate].
  destruct (bind_param col_appointment_time newTime) as [pt|] eqn:Et; [|discriminate].
  destruct (bind_id i) as [q|] eqn:Hb; [|discriminate].
  rewrite (bind_id_Ok _ _ Hb).
  case_bool_decide as Hfree; simpl; [|discriminate].
  intros E.
  destruct pd as [dt|].
  2:{ destruct newDate as [[|? ?]|]; try discriminate Hd.
      simpl in Ed. destruct (store_in _ _); discriminate Ed. }
  destruct pt as [tm|].
  2:{ destruct newTime as [[|? ?]|]; try discriminate Ht.
      simpl in Et. destruct (store_in _ _); discriminate Et. }
  exists dt, tm. auto.
Qed.

Lemma modifyAppointment_neither now i c newDate newTime d :
  truthy newDate = false -> truthy newTime = false ->
  modifyAppointment now i c newDate newTime d = Throw (Error "No fields to update").
Proof.
  intros Hd Ht. unfold modifyAppointment. unfold_result. rewrite Hd, Ht. reflexivity.
Qed.

(** Moving the selected row to a (date, time) that no other confirmed row
    holds keeps the slots exclusive. *)
Lemma slot_exclusive_moved now i c dt tm rows :
  NoDup (id <$> rows) ->
  filter (fun r => holds_slot (Some dt) (Some tm) r /\ other_row i r) rows = [] ->
  slot_exclusive rows ->
  slot_exclusive (rewritten i c (set_date_time now (Some dt) (Some tm)) rows).
Proof.
  intros Hnd Hfree Hex j k r1' r2' Hj Hk Hc1 Hc2 Hd Ht.
  unfold rewritten in Hj, Hk. rewrite list_lookup_fmap in Hj, Hk.
  destruct (rows !! j) as [r1|] eqn:Ej; [|discriminate].
  destruct (rows !! k) as [r2|] eqn:Ek; [|discriminate].
  simpl in Hj, Hk. injection Hj as <-. injection Hk as <-.
  assert (Hsame : id r1 = id r2 -> j = k).
  { intros E. apply (NoDup_lookup (id <$> rows) j k (id r1)); [exact Hnd| |];
      rewrite list_lookup_fmap; [rewrite Ej|rewrite Ek, E]; reflexivity. }
  assert (Hclash : forall r, r ∈ rows -> status r = confirmed ->
            appointment_date r = dt -> appointment_time r = tm ->
            other_row i r -> False).
  { intros r Hr Hs Hdr Htr Ho.
    assert (Hin : r ∈ filter (fun r => holds_slot (Some dt) (Some tm) r /\ other_row i r)
                             rows).
    { apply list_elem_of_filter. unfold holds_slot. rewrite Hdr, Htr. auto. }
    rewrite Hfree in Hin. inversion Hin. }
  destruct (bool_decide (owned_row i c r1)) eqn:H1;
    destruct (bool_decide (owned_row i c r2)) eqn:H2.
  - apply bool_decide_eq_true in H1 as [H1 _]. apply bool_decide_eq_true in H2 as [H2 _].
    apply Hsame. congruence.
  - apply bool_decide_eq_true in H1 as [H1 _]. simpl in *.
    destruct (decide (id r1 = id r2)) as [E|E]; [exact (Hsame E)|].
    exfalso. apply (Hclash r2); auto.
    + eapply list_elem_of_lookup_2; eauto.
    + rewrite <- H1. simpl. congruence.
  - apply bool_decide_eq_true in H2 as [H2 _]. simpl in *.
    destruct (decide (id r1 = id r2)) as [E|E]; [exact (Hsame E)|].
    exfalso. apply (Hclash r1); auto.
    + eapply list_elem_of_lookup_2; eauto.
    + rewrite <- H2. simpl. congruence.
  - apply (Hex j k r1 r2); auto.
Qed.

(** Every dispatch keeps the primary key, and every dispatch other than a
    modification that supplies exactly one of the two fields keeps the
    slots exclusive. *)
Lemma dispatch_keeps_exclusive now tc w :
  well_keyed (db w) ->
  slot_exclusive (appointments (db w)) ->
  ~ one_field_modify tc ->
  well_keyed (db (snd (executeTool now tc w))) /\
  slot_exclusive (appointments (db (snd (executeTool now tc w)))).
Proof.
  intros Hwk Hex Hnot.
  destruct (decide (name tc = "identify_user")) as [H1|H1].
  { rewrite (executeTool_identify now tc w H1).
    destruct (createOrUpdateUser _ _ _ _ _) as [[u d']|e] eqn:E; simpl; [|auto].
    pose proof (createOrUpdateUser_appointments _ _ _ _ _ _ _ E) as Ha.
    assert (Hseq : appointments_id_seq d' = appointments_id_seq (db w)).
    { revert E. unfold createOrUpdateUser. unfold_result.
      destruct (bind_param col_contact_number _) as [p1|]; [|discriminate].
      destruct (bind_param col_name _) as [p2|]; [|discriminate].
      destruct (bind_param col_email _) as [p3|]; [|discriminate].
      destruct (required col_contact_number p1) as [key|]; [|discriminate].
      intros E. injection E as _ <-. reflexivity. }
    unfold well_keyed. rewrite Ha, Hseq. auto. }
  destruct (decide (name tc = "book_appointment")) as [H2|H2].
  { split; [|apply slot_exclusive_after_booking; assumption].
    rewrite (executeTool_book now tc w H2).
    destruct (createAppointment _ _ _ _ _ _ _) as [d' [row|e]] eqn:E; simpl.
    2:{ destruct (createAppointment_refused _ _ _ _ _ _ _ _ _ E) as [-> | ->];
          [exact Hwk|].
        destruct Hwk as [Hnd Hlt]. split; [exact Hnd|].
        intros r Hr. specialize (Hlt r Hr). simpl. lia. }
    destruct (createAppointment_inserted _ _ _ _ _ _ _ _ _ E)
      as (_ & _ & _ & _ & Happ & _ & _ & Hid & Hseq).
    destruct Hwk as [Hnd Hlt]. unfold well_keyed. rewrite Happ, Hseq. split.
    - rewrite fmap_app. simpl. apply NoDup_app. split; [exact Hnd|]. split.
      + intros x Hx Hx'. apply list_elem_of_singleton in Hx'. subst x.
        apply list_elem_of_fmap in Hx as (r & Hr & Hin).
        specialize (Hlt r Hin). lia.
      + apply NoDup_singleton.
    - intros r Hr. apply elem_of_app in Hr as [Hr|Hr].
      + specialize (Hlt r Hr). lia.
      + apply list_elem_of_singleton in Hr. subst r. lia. }
  destruct (decide (name tc = "cancel_appointment")) as [H3|H3].
  { rewrite (executeTool_cancel now tc w H3).
    destruct (cancelAppointment_cases now (arg_appointment_id (arguments tc))
                (arg_contact_number (arguments tc)) (db w)) as [-> | [_ ->]];
      [|simpl; auto].
    destruct (UPDATE_owned _ _ _ _) as [[a d']|e] eqn:E; simpl; [|auto].
    destruct (UPDATE_owned_cases _ _ _ _ _ _ E)
      as [(-> & -> & _)|(first & rest & -> & _ & ->)]; simpl; [auto|].
    split; [apply well_keyed_rewritten; auto|].
    apply (slot_exclusive_narrowed (appointments (db w))); [|exact Hex].
    intros k r' Hk Hc. unfold rewritten in Hk. rewrite list_lookup_fmap in Hk.
    destruct (appointments (db w) !! k) as [r|]; [|discriminate].
    simpl in Hk. injection Hk as <-. exists r.
    destruct (bool_decide _); [discriminate Hc|auto]. }
  destruct (decide (name tc = "modify_appointment")) as [H4|H4].
  { rewrite (executeTool_modify now tc w H4).
    destruct (truthy (arg_new_date (arguments tc))) eqn:Td;
      destruct (truthy (arg_new_time (arguments tc))) eqn:Tt.
    - destruct (modifyAppointment _ _ _ _ _ _) as [[a d']|e] eqn:E; simpl; [|auto].
      destruct (modifyAppointment_both _ _ _ _ _ _ _ _ Td Tt E) as (dt & tm & Hfree & E').
      destruct (UPDATE_owned_cases _ _ _ _ _ _ E')
        as [(-> & -> & _)|(first & rest & -> & _ & ->)]; simpl; [auto|].
      split; [apply well_keyed_rewritten; auto|].
      apply slot_exclusive_moved; [exact (proj1 Hwk)|exact Hfree|exact Hex].
    - exfalso. apply Hnot. split; [exact H4|congruence].
    - exfalso. apply Hnot. split; [exact H4|congruence].
    - rewrite (modifyAppointment_neither _ _ _ _ _ _ Td Tt). simpl. auto. }
  rewrite (executeTool_reads now tc w H1 H2 H3 H4). auto.
Qed.

(** ** Identification: the upsert-merge *)

Lemma createOrUpdateUser_stored now c n e d key u :
  bind_param col_contact_number c = Ok (Some key) ->
  users d !! key = Some u ->
  createOrUpdateUser now c n e d =
    match bind_param col_name (or_null n), bind_param col_email (or_null e) with
    | Ok p2, Ok p3 =>
        Ok (merged now p2 p3 u, with_users d (<[key := merged now p2 p3 u]> (users d)))
    | Throw x, _ => Throw x
    | Ok _, Throw x => Throw x
    end.
Proof.
  intros Hc Hu. unfold createOrUpdateUser. unfold_result. rewrite Hc.
  destruct (bind_param col_name _) as [p2|]; [|reflexivity].
  destruct (bind_param col_email _) as [p3|]; [|reflexivity].
  simpl. rewrite Hu. reflexivity.
Qed.

(** The stored record after an [identify_user] dispatch for a stored user. *)
Lemma identify_stored now tc w key u :
  name tc = "identify_user" ->
  bind_param col_contact_number (arg_contact_number (arguments tc)) = Ok (Some key) ->
  users (db w) !! key = Some u ->
  match bind_param col_name (or_null (arg_name (arguments tc))),
        bind_param col_email (or_null (arg_email (arguments tc))) with
  | Ok p2, Ok p3 =>
      success (fst (executeTool now tc w)) = true /\
      users (db (snd (executeTool now tc w))) !! key = Some (merged now p2 p3 u)
  | _, _ =>
      success (fst (executeTool now tc w)) = false /\
      db (snd (executeTool now tc w)) = db w
  end.
Proof.
  intros H Hc Hu. rewrite (executeTool_identify now tc w H).
  rewrite (createOrUpdateUser_stored now _ _ _ _ key u Hc Hu).
  destruct (bind_param col_name _) as [p2|]; [|simpl; auto].
  destruct (bind_param col_email _) as [p3|]; [|simpl; auto].
  simpl. split; [reflexivity|]. apply lookup_insert_eq.
Qed.

(** A field that is absent or empty in the call is the stored one after
    the call, whether the call succeeds or not. *)
Lemma identify_keeps_unsupplied now tc w key u :
  name tc = "identify_user" ->
  bind_param col_contact_number (arg_contact_number (arguments tc)) = Ok (Some key) ->
  users (db w) !! key = Some u ->
  exists u',
    users (db (snd (executeTool now tc w))) !! key = Some u' /\
    user_contact_number u' = user_contact_number u /\
    user_created_at u' = user_created_at u /\
    (or_null (arg_name (arguments tc)) = None -> user_name u' = user_name u) /\
    (or_null (arg_email (arguments tc)) = None -> user_email u' = user_email u).
Proof.
  intros H Hc Hu. pose proof (identify_stored now tc w key u H Hc Hu) as Hs.
  destruct (bind_param col_name _) as [p2|] eqn:E2.
  - destruct (bind_param col_email _) as [p3|] eqn:E3.
    + destruct Hs as [_ Hs]. exists (merged now p2 p3 u).
      repeat split; auto.
      * intros Hn. rewrite Hn in E2. simpl in E2. injection E2 as <-. reflexivity.
      * intros He. rewrite He in E3. simpl in E3. injection E3 as <-. reflexivity.
    + destruct Hs as [_ ->]. eauto 10.
  - destruct Hs as [_ ->]. eauto 10.
Qed.

(** C5: [identify_user] is an idempotent upsert-merge.  For every stored
    user record, a call with the same contact number and no name or email
    succeeds and leaves the record unchanged except [updated_at]; a call
    with a name the store accepts and no email sets the name and keeps the
    stored email, and symmetrically for an email and no name; and in every
    case a field the call does not supply keeps its stored value. *)
Theorem identify_user_upsert_merge (now : Z) (tc : ToolCall) (w : World)
    (key : string) (u : User) :
  name tc = "identify_user" ->
  bind_param col_contact_number (arg_contact_number (arguments tc)) = Ok (Some key) ->
  users (db w) !! key = Some u ->
  (arg_name (arguments tc) = None -> arg_email (arguments tc) = None ->
   success (fst (executeTool now tc w)) = true /\
   users (db (snd (executeTool now tc w))) !! key
     = Some (mkUser (user_contact_number u) (user_name u) (user_email u)
                    (user_created_at u) now)) /\
  (forall n v, arg_name (arguments tc) = Some n -> n <> EmptyString ->
     store_in col_name n = Some v -> arg_email (arguments tc) = None ->
     success (fst (executeTool now tc w)) = true /\
     users (db (snd (executeTool now tc w))) !! key
       = Some (mkUser (user_contact_number u) (Some v) (user_email u)
                      (user_created_at u) now)) /\
  (forall e v, arg_email (arguments tc) = Some e -> e <> EmptyString ->
     store_in col_email e = Some v -> arg_name (arguments tc) = None ->
     success (fst (executeTool now tc w)) = true /\
     users (db (snd (executeTool now tc w))) !! key
       = Some (mkUser (user_contact_number u) (user_name u) (Some v)
                      (user_created_at u) now)) /\
  (exists u',
     users (db (snd (executeTool now tc w))) !! key = Some u' /\
     (arg_name (arguments tc) = None -> user_name u' = user_name u) /\
     (arg_email (arguments tc) = None -> user_email u' = user_email u)).
Proof.
  intros H Hc Hu. pose proof (identify_stored now tc w key u H Hc Hu) as Hs.
  split; [|split; [|split]].
  - intros Hn He. rewrite Hn, He in Hs. exact Hs.
  - intros n v Hn Hne Hv He. rewrite Hn, He in Hs.
    destruct n; [congruence|]. simpl in Hs. rewrite Hv in Hs. exact Hs.
  - intros e v He Hne Hv Hn. rewrite Hn, He in Hs.
    destruct e; [congruence|]. simpl in Hs. rewrite Hv in Hs. exact Hs.
  - destruct (identify_keeps_unsupplied now tc w key u H Hc Hu)
      as (u' & Hu' & _ & _ & Hn & He).
    exists u'. split; [exact Hu'|]. split.
    + intros E. apply Hn. rewrite E. reflexivity.
    + intros E. apply He. rewrite E. reflexivity.
Qed.

Lemma or_null_idem s : or_null (or_null s) = or_null s.
Proof. destruct s as [[|? ?]|]; reflexivity. Qed.

(** C10: for every stored user record, [identify_user] with the same
    contact number and the empty string as name (or email) keeps the
    stored name (or email); the dispatch does exactly what it does when the
    empty fields are absent. *)
Theorem identify_user_empty_is_absent (now : Z) (tc : ToolCall) (w : World)
    (key : string) (u : User) :
  name tc = "identify_user" ->
  bind_param col_contact_number (arg_contact_number (arguments tc)) = Ok (Some key) ->
  users (db w) !! key = Some u ->
  executeTool now tc w = executeTool now (empty_as_absent tc) w /\
  exists u',
    users (db (snd (executeTool now tc w))) !! key = Some u' /\
    (arg_name (arguments tc) = Some EmptyString -> user_name u' = user_name u) /\
    (arg_email (arguments tc) = Some EmptyString -> user_email u' = user_email u).
Proof.
  intros H Hc Hu. split.
  - rewrite (executeTool_identify now tc w H).
    rewrite (executeTool_identify now (empty_as_absent tc) w) by exact H.
    unfold createOrUpdateUser. simpl. rewrite !or_null_idem. reflexivity.
  - destruct (identify_keeps_unsupplied now tc w key u H Hc Hu)
      as (u' & Hu' & _ & _ & Hn & He).
    exists u'. split; [exact Hu'|]. split.
    + intros E. apply Hn. rewrite E. reflexivity.
    + intros E. apply He. rewrite E. reflexivity.
Qed.

(** ** The summary finalizer *)

(** When the summarization service fails, the placeholder is returned and
    nothing was written to the store: the [catch] is reached before
    [saveConversationSummary]. *)
Lemma generateSummary_rejected now m msgs c sid booked w :
  exists item,
    generateSummary now (rejects m) msgs c sid booked w
      = (mkWorld (db w) (costTracker w ++ [item]), Ok summary_failed) /\
    service item = "openai_summary".
Proof.
  unfold generateSummary, try_catch.
  unfold mbind, mret, StateExn_bind, StateExn_ret, addCost, await, throw. simpl.
  eexists. split; reflexivity.
Qed.

(** When the service answers and the contact is a stored user, the record
    is written with the digest (or its stand-in) and the ledger snapshot. *)
Lemma generateSummary_resolved now response msgs c sid booked w key sid' :
  bind_param col_contact_number (Some c) = Ok (Some key) ->
  bind_param col_session_id (Some sid) = Ok (Some sid') ->
  users (db w) !! key <> None ->
  exists row summary,
    fst (generateSummary now (resolves response) msgs c sid booked w)
      = mkWorld (mkDb (users (db w)) (appointments (db w)) (appointments_id_seq (db w))
                      (conversation_summaries (db w) ++ [row]))
                (costTracker (fst (generateSummary now (resolves response)
                                     msgs c sid booked w))) /\
    snd (generateSummary now (resolves response) msgs c sid booked w) = Ok summary /\
    summary_text row = summary /\
    summary = default "No summary generated."
                (or_null (first_choice response ≫= reply_content)).
Proof.
  intros Hc Hs Hu.
  unfold generateSummary, try_catch.
  unfold mbind at 1 2 3 4 5. unfold StateExn_bind, addCost, await, read_costTracker,
    query, mret, StateExn_ret. simpl.
  unfold saveConversationSummary. unfold_result. rewrite Hc, Hs. simpl.
  rewrite bool_decide_false by exact Hu. simpl.
  eexists _, _. repeat split; reflexivity.
Qed.

(** Awaited, [generateSummary] is its two parts one after the other. *)
Lemma generateSummary_parts now o msgs c sid booked w :
  generateSummary now o msgs c sid booked w
  = (_ ← generateSummary_called msgs booked;
     generateSummary_answered now o msgs c sid booked) w.
Proof.
  unfold generateSummary, generateSummary_called, generateSummary_answered, try_catch.
  unfold mbind, mret, StateExn_bind, StateExn_ret, addCost, await, read_costTracker,
    query, throw.
  simpl. destruct o as [response|m]; simpl; [|reflexivity].
  destruct (saveConversationSummary _ _ _ _ _ _ _ _ _) as [[row d']|e]; reflexivity.
Qed.

Lemma generateSummary_answered_ledger now o msgs c sid booked w :
  costTracker w
    `prefix_of` costTracker (fst (generateSummary_answered now o msgs c sid booked w)).
Proof.
  unfold generateSummary_answered, try_catch.
  unfold mbind, mret, StateExn_bind, StateExn_ret, addCost, await, read_costTracker,
    query, throw.
  simpl. destruct o as [response|m]; simpl.
  - destruct (saveConversationSummary _ _ _ _ _ _ _ _ _) as [[row d']|e]; simpl;
      apply prefix_app_r; reflexivity.
  - reflexivity.
Qed.

Lemma reports_only_nothing : reports_only nothing_in_flight.
Proof.
  intros s. exists []. simpl. rewrite app_nil_r.
  split; [reflexivity|]. split; [reflexivity|]. split; [reflexivity|].
  split; reflexivity.
Qed.

(** The call of the finalizer: it never throws, it counts one run, it
    leaves the session state and what was emitted alone, and what it
    leaves in flight only reports. *)
Lemma generateAndEmitSummary_agent now o s :
  exists k,
    snd (generateAndEmitSummary now o s) = Ok k /\
    state (fst (fst (generateAndEmitSummary now o s))) = state (fst s) /\
    summaryRuns (fst (fst (generateAndEmitSummary now o s))) = S (summaryRuns (fst s)) /\
    emitted (fst (fst (generateAndEmitSummary now o s))) = emitted (fst s) /\
    costTracker (snd s) `prefix_of` costTracker (snd (fst (generateAndEmitSummary now o s))) /\
    reports_only k.
Proof.
  destruct s as [ag w].
  unfold generateAndEmitSummary.
  unfold mbind, StateExn_bind, count_summary_run, read_state. simpl.
  destruct (truthy (contactNumber (state ag))); simpl.
  - unfold in_world. simpl. eexists.
    split; [reflexivity|]. split; [reflexivity|]. split; [reflexivity|].
    split; [reflexivity|]. split; [apply prefix_app_r; reflexivity|].
    intros [ag' w']. unfold try_catch, mbind, StateExn_bind, read_state, in_world. simpl.
    pose proof (generateSummary_answered_ledger now o
                  ((fun m => mkConversationMessage (role m)
                               (default JSON_empty_string (content m)))
                   <$> messages (state ag))
                  (default EmptyString (contactNumber (state ag)))
                  (sessionId (state ag)) (bookedAppointments (state ag')) w') as Hl.
    destruct (generateSummary_answered _ _ _ _ _ _ w') as [w'' [summary|e]]; simpl in *.
    + eexists [_].
      split; [reflexivity|]. split; [reflexivity|]. split; [reflexivity|].
      split; [reflexivity|exact Hl].
    + exists []. rewrite app_nil_r.
      split; [reflexivity|]. split; [reflexivity|]. split; [reflexivity|].
      split; [reflexivity|exact Hl].
  - exists nothing_in_flight.
    split; [reflexivity|]. split; [reflexivity|]. split; [reflexivity|].
    split; [reflexivity|]. split; [reflexivity|apply reports_only_nothing].
Qed.

(** Without a resolved contact number the finalizer touches neither the
    store nor the ledger, emits nothing and leaves nothing in flight. *)
Lemma generateAndEmitSummary_no_contact now o ag w :
  truthy (contactNumber (state ag)) = false ->
  generateAndEmitSummary now o (ag, w)
    = ((mkAgent (state ag) (emitted ag) (S (summaryRuns ag)), w), Ok nothing_in_flight).
Proof.
  intros H. unfold generateAndEmitSummary.
  unfold mbind, StateExn_bind, count_summary_run, read_state. simpl.
  rewrite H. reflexivity.
Qed.

(** With a resolved contact number and a failing summarization service,
    the finalizer, run to its end, emits the placeholder and writes no
    summary record. *)
Lemma generateAndEmitSummary_rejected now m ag w :
  truthy (contactNumber (state ag)) = true ->
  exists item,
    (in_flight ← generateAndEmitSummary now (rejects m); in_flight) (ag, w)
      = ((mkAgent (state ag)
            (emitted ag ++ [event_summary summary_failed
                              (bookedAppointments (state ag)) (toolCalls (state ag))])
            (S (summaryRuns ag)),
          mkWorld (db w) (costTracker w ++ [item])),
         Ok tt).
Proof.
  intros H. eexists. unfold generateAndEmitSummary.
  unfold mbind, StateExn_bind, count_summary_run, read_state, try_catch, in_world.
  cbn -[generateSummary_called generateSummary_answered]. rewrite H.
  cbn -[generateSummary_called generateSummary_answered].
  unfold generateSummary_called, generateSummary_answered, try_catch.
  unfold mbind, mret, StateExn_bind, StateExn_ret, addCost, await, throw. simpl.
  reflexivity.
Qed.

(** ** The session: what a turn keeps true of the agent *)

Lemma triple_bind {A B} P (m : Turn A) Q (k : A -> Turn B) R E :
  triple P m Q E -> (forall a, triple (Q a) (k a) R E) -> triple P (m ≫= k) R E.
Proof.
  intros Hm Hk s HP. unfold mbind, StateExn_bind.
  specialize (Hm s HP). destruct (m s) as [s' [a|e]]; [|exact Hm].
  apply Hk. exact Hm.
Qed.

Lemma triple_in_world {A} (m : Tool A) (P : Agent -> Prop) :
  triple P (in_world m) (fun _ => P) P.
Proof.
  intros s HP. unfold in_world. destruct (m (snd s)) as [w' [a|e]]; exact HP.
Qed.

Lemma triple_await o (P : Agent -> Prop) :
  triple P (await o) (fun _ => P) P.
Proof. intros s HP. destruct o; exact HP. Qed.

Lemma triple_try_catch {A} P (body : Turn A) Q E' handler E :
  triple P body Q E' -> (forall e, triple E' (handler e) Q E) ->
  triple P (try_catch body handler) Q E.
Proof.
  intros Hb Hh s HP. unfold try_catch.
  specialize (Hb s HP). destruct (body s) as [s' [a|e]]; [exact Hb|].
  apply Hh. exact Hb.
Qed.

Lemma finalized_after_other ag t st' events :
  finalized ag -> ~ is_end t ->
  toolCalls st' = (toolCalls (state ag) ++ [t])%list ->
  conversationEnded st' = conversationEnded (state ag) ->
  finalized (mkAgent st' events (summaryRuns ag)).
Proof.
  intros [Hruns Hflag] Hne Ht Hc. unfold finalized, ends in *. simpl.
  rewrite Ht, Hc, filter_app, filter_cons, filter_nil, length_app.
  rewrite decide_False by exact Hne. simpl.
  rewrite Nat.add_0_r. split; assumption.
Qed.

Lemma finalized_after_end ag t st' events :
  finalized ag -> is_end t ->
  toolCalls st' = (toolCalls (state ag) ++ [t])%list ->
  conversationEnded st' = true ->
  finalized (mkAgent st' events (S (summaryRuns ag))).
Proof.
  intros [Hruns Hflag] He Ht Hc. unfold finalized, ends in *. simpl.
  rewrite Ht, Hc, filter_app, filter_cons, filter_nil, length_app.
  rewrite decide_True by exact He. simpl. split; [lia|].
  split; [intros _; lia | reflexivity].
Qed.

(** What the handling of one tool call, from the recording of the
    execution to the folding of its result into the session, keeps true. *)
Lemma triple_record_and_handle {B} now o (toolCall : ModelToolCall) args result_
    (rest : Turn () -> Turn B) (R : B -> Agent -> Prop) :
  let t := mkToolExecution (mkToolCall (function_name toolCall) args) result_ in
  (forall k, reports_only k -> triple finalized (rest k) R finalized) ->
  triple finalized
    (_ ← write_state (push_toolCall t);
     _ ← emit (event_toolCall t);
     k ← handle_specific_result now o toolCall args result_;
     rest k)
    R finalized.
Proof.
  intros t Hrest s Hfin.
  assert (Hname : name (executed t) = function_name toolCall) by reflexivity.
  pose proof (Hrest _ reports_only_nothing) as Hrest0.
  unfold mbind, StateExn_bind, write_state, emit, handle_specific_result. simpl.
  destruct (decide (function_name toolCall = "identify_user")) as [H1|H1].
  { assert (Hne : ~ is_end t) by (unfold is_end; rewrite Hname, H1; discriminate).
    unfold mbind, StateExn_bind.
    destruct (success result_); simpl;
      apply Hrest0; simpl; apply finalized_after_other with (t := t); auto. }
  destruct (decide (function_name toolCall = "book_appointment")) as [H2|H2].
  { assert (Hne : ~ is_end t) by (unfold is_end; rewrite Hname, H2; discriminate).
    unfold mbind, StateExn_bind.
    destruct (success result_); [destruct (payload result_)|]; simpl;
      apply Hrest0; simpl; apply finalized_after_other with (t := t); auto. }
  destruct (decide (function_name toolCall = "end_conversation")) as [H3|H3].
  { unfold mbind, StateExn_bind. simpl.
    match goal with
    | |- context [generateAndEmitSummary now o ?s0] =>
        destruct (generateAndEmitSummary_agent now o s0)
          as (k & Hr & Hst & Hn & _ & _ & Hk);
        destruct (generateAndEmitSummary now o s0) as [[ag' w'] r]
    end.
    simpl in *. subst r. destruct ag' as [st' ev' runs']. simpl in *. subst st' runs'.
    apply (Hrest k Hk). simpl. apply finalized_after_end with (t := t); auto. }
  simpl. apply Hrest0. simpl. apply finalized_after_other with (t := t); auto.
Qed.

Lemma triple_reports_only (P : Agent -> Prop) k :
  (forall ag events, P ag -> P (mkAgent (state ag) events (summaryRuns ag))) ->
  reports_only k -> triple P k (fun _ => P) P.
Proof.
  intros HP Hk s Hs. destruct (Hk s) as (events & Hr & Hst & Hn & He & _).
  destruct (k s) as [[ag' w'] r]. simpl in *. subst r.
  destruct ag' as [st' ev' n']. simpl in *. subst st' ev' n'.
  apply HP. exact Hs.
Qed.

Lemma finalized_push_message m ag :
  finalized ag ->
  finalized (mkAgent (push_message m (state ag)) (emitted ag) (summaryRuns ag)).
Proof. intros H. exact H. Qed.

Lemma triple_chat_cost (P : Agent -> Prop) : triple P chat_cost (fun _ => P) P.
Proof.
  intros s HP. unfold chat_cost, mbind, StateExn_bind, read_state. simpl.
  exact HP.
Qed.

Lemma triple_handle_tool_calls env calls : forall i assistantResponse,
  triple finalized (handle_tool_calls env i calls assistantResponse)
         (fun _ => finalized) finalized.
Proof.
  induction calls as [|toolCall rest IH]; intros i assistantResponse; simpl.
  - intros s HP. exact HP.
  - eapply triple_bind with (Q := fun _ => finalized).
    { unfold parse_arguments. destruct (JSON_parse _); intros s HP; exact HP. }
    intros args.
    eapply triple_bind with (Q := fun _ => finalized).
    { unfold run_executeTool. apply triple_in_world. }
    intros result_.
    apply triple_record_and_handle. intros k Hk.
    eapply triple_bind with (Q := fun _ => finalized).
    { intros s HP. apply finalized_push_message. exact HP. }
    intros [].
    eapply triple_bind with (Q := fun _ => finalized).
    { intros s HP. apply finalized_push_message. exact HP. }
    intros [].
    eapply triple_bind; [apply triple_chat_cost|]. intros [].
    eapply triple_bind with (Q := fun _ => finalized).
    { apply triple_reports_only; [|exact Hk]. intros ag events H. exact H. }
    intros [].
    eapply triple_bind; [apply triple_await|]. intros followUpResponse.
    eapply triple_bind; [unfold chat_output_cost; apply triple_in_world|]. intros [].
    apply IH.
Qed.

Lemma triple_processUserMessage env transcript :
  triple finalized (processUserMessage env transcript) (fun _ => finalized) finalized.
Proof.
  unfold processUserMessage.
  eapply triple_bind with (Q := fun _ => finalized).
  { intros s HP. exact HP. }
  intros st. destruct (conversationEnded st); [intros s HP; exact HP|].
  eapply triple_bind with (Q := fun _ => finalized).
  { intros s HP. apply finalized_push_message. exact HP. }
  intros [].
  apply triple_try_catch with (E' := finalized); [|intros e s HP; exact HP].
  eapply triple_bind; [apply triple_chat_cost|]. intros [].
  eapply triple_bind; [apply triple_await|]. intros response.
  eapply triple_bind; [unfold chat_output_cost; apply triple_in_world|]. intros [].
  destruct (first_choice response) as [message_|]; [|intros s HP; exact HP].
  eapply triple_bind; [apply triple_handle_tool_calls|]. intros assistantResponse.
  eapply triple_bind with (Q := fun _ => finalized).
  { intros s HP. apply finalized_push_message. exact HP. }
  intros [] s HP. exact HP.
Qed.

Lemma reachable_finalized ag : reachable ag -> finalized ag.
Proof.
  induction 1 as [sid|ag w env transcript _ IH].
  - unfold finalized, ends. simpl. split; [reflexivity|]. split; [discriminate|tauto].
  - pose proof (triple_processUserMessage env transcript (ag, w) IH) as H.
    destruct (processUserMessage env transcript (ag, w)) as [s' [a|e]]; exact H.
Qed.

(** The guard at the head of [processUserMessage]. *)
Lemma processUserMessage_ended env transcript s :
  conversationEnded (state (fst s)) = true ->
  processUserMessage env transcript s = (s, Ok conversation_ended_reply).
Proof.
  intros H. unfold processUserMessage, mbind, StateExn_bind, read_state. simpl.
  rewrite H. reflexivity.
Qed.

Lemma conversation_ended turns : forall s,
  conversationEnded (state (fst s)) = true ->
  conversation turns s = (replicate (length turns) (Ok conversation_ended_reply), s).
Proof.
  induction turns as [|[env transcript] rest IH]; intros s H; simpl.
  - reflexivity.
  - rewrite (processUserMessage_ended env transcript s H). rewrite (IH s H). reflexivity.
Qed.

(** C8 (as amended): in every session the finalizer has been called once
    for each dispatch of [end_conversation] the session recorded, so never
    in a session that dispatched none; and once a turn of the session has
    dispatched [end_conversation], every user message received afterwards
    is answered with the fixed reply "The conversation has ended. Thank
    you!" and changes nothing: not the session state, not what was
    emitted, not the store, not the cost ledger, and the finalizer is not
    called again. *)
Theorem ended_session_rejects_messages (ag : Agent) (w : World)
    (turns : list (Environment * string)) :
  reachable ag ->
  summaryRuns ag = length (filter is_end (toolCalls (state ag))) /\
  (Exists is_end (toolCalls (state ag)) ->
   conversation turns (ag, w)
     = (replicate (length turns) (Ok conversation_ended_reply), (ag, w))).
Proof.
  intros Hr. destruct (reachable_finalized ag Hr) as [Hruns Hflag].
  split; [exact Hruns|]. intros Hex.
  apply conversation_ended. simpl. apply Hflag.
  unfold ends. apply Exists_exists in Hex as (t & Hin & Ht).
  intros E. apply length_zero_iff_nil in E.
  assert (Hf : t ∈ filter is_end (toolCalls (state ag)))
    by (apply list_elem_of_filter; auto).
  rewrite E in Hf. inversion Hf.
Qed.

(** ** Further properties of the dispatcher and the store *)

Lemma catalog_NoDup :
  NoDup ((fun s => (slot_date s, slot_time s)) <$> AVAILABLE_SLOTS).
Proof. apply (bool_decide_unpack (NoDup _)). vm_compute. exact I. Qed.

(** [fetch_slots] lists the catalog and nothing else.  The answer is the
    list of the (date, time) pairs of the available slots of
    [AVAILABLE_SLOTS], in the order of the catalog, those of the given date
    only when a non-empty [date] is given; no pair is listed twice, and
    [count] is the length of that list.  The list is the same at every
    time and in every store: the store is neither read nor written, so a
    slot that is already booked is still listed. *)
Theorem fetch_slots_lists_catalog (tc : ToolCall) :
  name tc = "fetch_slots" ->
  let date := arg_date (arguments tc) in
  let slots :=
    (fun s => (slot_date s, slot_time s))
    <$> filter (fun s => available s = true /\
                         (truthy date = true -> Some (slot_date s) = date))
               AVAILABLE_SLOTS in
  NoDup slots /\
  (truthy date = false ->
   slots = (fun s => (slot_date s, slot_time s)) <$> AVAILABLE_SLOTS) /\
  forall (now : Z) (w : World),
    executeTool now tc w
    = (succeeded None (payload_slots slots (length slots)),
       mkWorld (db w) (charged w "fetch_slots" 0.001%float)).
Proof.
  intros H. cbv zeta. split; [|split].
  - apply (sublist_NoDup _ _ catalog_NoDup).
    apply fmap_sublist. apply sublist_filter.
  - intros T. f_equal. rewrite T.
    unfold AVAILABLE_SLOTS. repeat (rewrite filter_cons_True;
      [|split; [reflexivity|intros Hf; discriminate Hf]]).
    reflexivity.
  - intros now w.
    assert (E : getAvailableSlots (arg_date (arguments tc))
                = filter (fun s => available s = true /\
                            (truthy (arg_date (arguments tc)) = true ->
                             Some (slot_date s) = arg_date (arguments tc)))
                         AVAILABLE_SLOTS).
    { unfold getAvailableSlots.
      destruct (truthy (arg_date (arguments tc))) eqn:T;
        apply list_filter_iff; intros s; split.
      - intros [Hd Ha]. split; [exact Ha|]. intros _. exact Hd.
      - intros [Ha Hd]. split; [exact (Hd eq_refl)|exact Ha].
      - intros Ha. split; [exact Ha|]. intros Hf. discriminate Hf.
      - intros [Ha _]. exact Ha. }
    rewrite <- E. tool_case H. rewrite length_fmap. reflexivity.
Qed.

#[global] Instance listed_before_total : Total listed_before.
Proof.
  intros a b. unfold listed_before.
  rewrite (String.compare_antisym (appointment_date b) (appointment_date a)).
  rewrite (String.compare_antisym (appointment_time b) (appointment_time a)).
  destruct (String.compare (appointment_date a) (appointment_date b)); simpl; auto.
  destruct (String.compare (appointment_time a) (appointment_time b)); simpl;
    (left; discriminate) || (right; discriminate).
Qed.



Lemma filter_none {A} (P : A -> Prop) `{!forall x, Decision (P x)} (l : list A) :
  (forall x, x ∈ l -> ~ P x) -> filter P l = [].
Proof.
  induction l as [|x l IH]; intros Hno; [reflexivity|].
  rewrite filter_cons_False by (apply Hno; left).
  apply IH. intros y Hy. apply Hno. right. exact Hy.
Qed.


Lemma book_inserts_row (now : Z) (tc : ToolCall) (w : World)
    (c dt tm : string) (p4 p5 : option string) :
  name tc = "book_appointment" ->
  bind_param col_contact_number (arg_contact_number (arguments tc)) = Ok (Some c) ->
  bind_param col_appointment_date (arg_appointment_date (arguments tc)) = Ok (Some dt) ->
  bind_param col_appointment_time (arg_appointment_time (arguments tc)) = Ok (Some tm) ->
  bind_param col_service_type (or_null (arg_service_type (arguments tc))) = Ok p4 ->
  bind_param col_notes (or_null (arg_notes (arguments tc))) = Ok p5 ->
  users (db w) !! c <> None ->
  (forall r, r ∈ appointments (db w) -> status r = confirmed ->
             appointment_date r = dt -> appointment_time r = tm -> False) ->
  let row := mkAppointment (appointments_id_seq (db w)) c dt tm p4 p5 confirmed now now in
  executeTool now tc w
    = (succeeded (Some "Appointment booked successfully")
         (payload_booked (mkBooked (appointments_id_seq (db w)) dt tm p4)),
       mkWorld (mkDb (users (db w)) (appointments (db w) ++ [row])
                     (appointments_id_seq (db w) + 1) (conversation_summaries (db w)))
               (charged w "book_appointment" 0.002%float)).
Proof.
  intros H Hc Hd Ht H4 H5 Hu Hfree row.
  rewrite (executeTool_book now tc w H).
  unfold_statement. rewrite Hc, Hd, Ht, H4, H5. simpl.
  assert (Hnone : filter (holds_slot (Some dt) (Some tm)) (appointments (db w)) = []).
  { apply filter_none. intros r Hr (Ed & Et & Es).
    injection Ed as Ed. injection Et as Et. exact (Hfree r Hr Es Ed Et). }
  rewrite Hnone. rewrite bool_decide_true by reflexivity. simpl.
  rewrite bool_decide_false.
  2:{ intros Hin. apply list_elem_of_fmap in Hin as (r & Ek & Hr).
      unfold unique_key in Ek. simpl in Ek. injection Ek as _ Ed Et Es.
      exact (Hfree r Hr (eq_sym Es) (eq_sym Ed) (eq_sym Et)). }
  rewrite bool_decide_false by exact Hu. reflexivity.
Qed.

(** When the store accepts the texts, the contact is a stored user and no
    confirmed appointment holds the slot, [book_appointment] succeeds: the
    table grows by exactly one confirmed row, numbered by the sequence,
    with the bound values and both timestamps at [now], and the answer
    carries that row's id, date, time and service type. *)
Theorem book_appointment_inserts (now : Z) (tc : ToolCall) (w : World)
    (c dt tm : string) (p4 p5 : option string) :
  name tc = "book_appointment" ->
  bind_param col_contact_number (arg_contact_number (arguments tc)) = Ok (Some c) ->
  bind_param col_appointment_date (arg_appointment_date (arguments tc)) = Ok (Some dt) ->
  bind_param col_appointment_time (arg_appointment_time (arguments tc)) = Ok (Some tm) ->
  bind_param col_service_type (or_null (arg_service_type (arguments tc))) = Ok p4 ->
  bind_param col_notes (or_null (arg_notes (arguments tc))) = Ok p5 ->
  users (db w) !! c <> None ->
  (forall r, r ∈ appointments (db w) -> status r = confirmed ->
             appointment_date r = dt -> appointment_time r = tm -> False) ->
  let row := mkAppointment (appointments_id_seq (db w)) c dt tm p4 p5 confirmed now now in
  executeTool now tc w
    = (succeeded (Some "Appointment booked successfully")
         (payload_booked (mkBooked (appointments_id_seq (db w)) dt tm p4)),
       mkWorld (mkDb (users (db w)) (appointments (db w) ++ [row])
                     (appointments_id_seq (db w) + 1) (conversation_summaries (db w)))
               (charged w "book_appointment" 0.002%float)).
Proof. apply book_inserts_row. Qed.

(** A booking can be read back: after a successful [book_appointment] in
    a store whose ids are distinct and below the sequence,
    [getAppointmentById] with the answered id and the stored contact number
    returns the inserted row, which is confirmed and carries the answered
    date and time. *)
Theorem booked_appointment_is_found (now : Z) (tc : ToolCall) (w : World)
    (b : BookedAppointment) :
  name tc = "book_appointment" ->
  well_keyed (db w) ->
  payload (fst (executeTool now tc w)) = payload_booked b ->
  exists row,
    last (appointments (db (snd (executeTool now tc w)))) = Some row /\
    getAppointmentById (Some (booked_id b)) (Some (contact_number row))
                       (db (snd (executeTool now tc w))) = Some row /\
    id row = booked_id b /\ status row = confirmed /\
    appointment_date row = booked_date b /\ appointment_time row = booked_time b /\
    created_at row = now.
Proof.
  intros H [Hnd Hlt] Hp. revert Hp. rewrite (executeTool_book now tc w H).
  destruct (createAppointment _ _ _ _ _ _ _) as [d' [row|e]] eqn:E; simpl;
    [|discriminate].
  intros Hp. injection Hp as <-. simpl.
  destruct (createAppointment_inserted _ _ _ _ _ _ _ _ _ E)
    as (_ & _ & _ & Hst & Happ & _ & _ & Hid & _).
  exists row. rewrite Happ, last_snoc. split; [reflexivity|]. split.
  - unfold getAppointmentById. rewrite Happ, filter_app.
    assert (Hnone : filter (fun r => Some (id r) = Some (id row) /\
                                     Some (contact_number r) = Some (contact_number row))
                           (appointments (db w)) = []).
    { apply filter_none. intros r Hr [Ei _].
      injection Ei as Ei. specialize (Hlt r Hr). lia. }
    rewrite Hnone. simpl. rewrite filter_cons, filter_nil.
    rewrite decide_True by (split; reflexivity). reflexivity.
  - repeat split; auto.
    revert E. unfold_statement.
    destruct (bind_param col_appointment_date _) as [pd|]; [|discriminate].
    destruct (bind_param col_appointment_time _) as [pt|]; [|discriminate].
    simpl. destruct (negb _); [discriminate|].
    destruct (bind_param col_contact_number _) as [p1|]; [|discriminate].
    destruct (bind_param col_service_type _) as [q4|]; [|discriminate].
    destruct (bind_param col_notes _) as [q5|]; [|discriminate].
    destruct p1; simpl; [|discriminate]. destruct pd; simpl; [|discriminate].
    destruct pt; simpl; [|discriminate].
    destruct (bool_decide _); [discriminate|]. destruct (bool_decide _); [discriminate|].
    intros E. injection E as _ <-. reflexivity.
Qed.

(** ** Two bookings in flight *)

Lemma SELECT_confirmed_free date time d dt tm :
  bind_param col_appointment_date date = Ok (Some dt) ->
  bind_param col_appointment_time time = Ok (Some tm) ->
  (forall r, r ∈ appointments d -> status r = confirmed ->
             appointment_date r = dt -> appointment_time r = tm -> False) ->
  SELECT_confirmed date time d = Ok [].
Proof.
  intros Hd Ht Hfree. unfold SELECT_confirmed. unfold_result. rewrite Hd, Ht.
  f_equal. apply filter_none. intros r Hr (Ed & Et & Es).
  injection Ed as Ed. injection Et as Et. exact (Hfree r Hr Es Ed Et).
Qed.

Lemma INSERT_appointment_accepted now c date time s n d c' dt tm p4 p5 :
  bind_param col_contact_number c = Ok (Some c') ->
  bind_param col_appointment_date date = Ok (Some dt) ->
  bind_param col_appointment_time time = Ok (Some tm) ->
  bind_param col_service_type (or_null s) = Ok p4 ->
  bind_param col_notes (or_null n) = Ok p5 ->
  users d !! c' <> None ->
  (c', dt, tm, confirmed) ∉ unique_key <$> appointments d ->
  let row := mkAppointment (appointments_id_seq d) c' dt tm p4 p5 confirmed now now in
  INSERT_appointment now c date time s n d
  = (mkDb (users d) (appointments d ++ [row]) (appointments_id_seq d + 1)
          (conversation_summaries d),
     Ok row).
Proof.
  intros Hc Hd Ht H4 H5 Hu Hk. cbv zeta.
  unfold INSERT_appointment. unfold_result. rewrite Hc, Hd, Ht, H4, H5. simpl.
  rewrite bool_decide_false by exact Hk.
  rewrite bool_decide_false by exact Hu. reflexivity.
Qed.

(** The check of [createAppointment] does not hold between calls in
    flight.  Two callers who are stored users ask for the same slot, which
    no confirmed appointment holds; when the store answers both conflict
    queries before either [INSERT], both calls succeed and the slot has two
    confirmed appointments. *)
Lemma bookings_in_flight_race now1 tc1 now2 tc2 w c1 c2 dt tm p4 p5 q4 q5 :
  bind_param col_contact_number (arg_contact_number (arguments tc1)) = Ok (Some c1) ->
  bind_param col_appointment_date (arg_appointment_date (arguments tc1)) = Ok (Some dt) ->
  bind_param col_appointment_time (arg_appointment_time (arguments tc1)) = Ok (Some tm) ->
  bind_param col_service_type (or_null (arg_service_type (arguments tc1))) = Ok p4 ->
  bind_param col_notes (or_null (arg_notes (arguments tc1))) = Ok p5 ->
  bind_param col_contact_number (arg_contact_number (arguments tc2)) = Ok (Some c2) ->
  bind_param col_appointment_date (arg_appointment_date (arguments tc2)) = Ok (Some dt) ->
  bind_param col_appointment_time (arg_appointment_time (arguments tc2)) = Ok (Some tm) ->
  bind_param col_service_type (or_null (arg_service_type (arguments tc2))) = Ok q4 ->
  bind_param col_notes (or_null (arg_notes (arguments tc2))) = Ok q5 ->
  c1 <> c2 ->
  users (db w) !! c1 <> None -> users (db w) !! c2 <> None ->
  (forall r, r ∈ appointments (db w) -> status r = confirmed ->
             appointment_date r = dt -> appointment_time r = tm -> False) ->
  let first := book_in_flight now1 tc1 w in
  let second := book_in_flight now2 tc2 (fst first) in
  let final :=
    interleave [true; false; true; false] (snd first) (snd second) (fst second) in
  let row1 :=
    mkAppointment (appointments_id_seq (db w)) c1 dt tm p4 p5 confirmed now1 now1 in
  let row2 :=
    mkAppointment (appointments_id_seq (db w) + 1) c2 dt tm q4 q5 confirmed now2 now2 in
  exists r1 r2,
    snd final = (settled r1, settled r2) /\
    success r1 = true /\ success r2 = true /\
    appointments (db (fst final)) = (appointments (db w) ++ [row1; row2])%list.
Proof.
  intros Hc1 Hd1 Ht1 H41 H51 Hc2 Hd2 Ht2 H42 H52 Hne Hu1 Hu2 Hfree.
  assert (Hkey : forall c : string,
            (c, dt, tm, confirmed) ∉ unique_key <$> appointments (db w)).
  { intros c Hin. apply list_elem_of_fmap in Hin as (r & Ek & Hr).
    unfold unique_key in Ek. injection Ek as _ Ed Et Es.
    exact (Hfree r Hr (eq_sym Es) (eq_sym Ed) (eq_sym Et)). }
  cbv zeta. unfold book_in_flight, createAppointment_async.
  cbn [interleave awaited fst snd db costTracker].
  rewrite (SELECT_confirmed_free _ _ _ dt tm Hd1 Ht1 Hfree).
  cbn [interleave awaited fst snd db costTracker bool_decide negb decide_rel].
  rewrite bool_decide_true by reflexivity.
  cbn [interleave awaited fst snd db costTracker negb].
  rewrite (SELECT_confirmed_free _ _ _ dt tm Hd2 Ht2 Hfree).
  rewrite bool_decide_true by reflexivity.
  cbn [interleave awaited fst snd db costTracker negb].
  rewrite (INSERT_appointment_accepted now1 _ _ _ _ _ _ c1 dt tm p4 p5
             Hc1 Hd1 Ht1 H41 H51 Hu1 (Hkey c1)).
  cbn [interleave awaited fst snd db costTracker negb].
  rewrite (INSERT_appointment_accepted now2 _ _ _ _ _ _ c2 dt tm q4 q5
             Hc2 Hd2 Ht2 H42 H52).
  2:{ exact Hu2. }
  2:{ cbn [appointments]. rewrite fmap_app. intros Hin.
      apply elem_of_app in Hin as [Hin|Hin].
      - exact (Hkey c2 Hin).
      - apply list_elem_of_singleton in Hin.
        unfold unique_key in Hin. simpl in Hin. congruence. }
  cbn [interleave awaited fst snd db costTracker appointments appointments_id_seq].
  eexists _, _. split; [reflexivity|]. split; [reflexivity|]. split; [reflexivity|].
  rewrite <- app_assoc. reflexivity.
Qed.

Lemma filter_two {A} (P : A -> Prop) `{!forall x, Decision (P x)} (l : list A) :
  forall j k x y, l !! j = Some x -> l !! k = Some y -> j <> k -> P x -> P y ->
  (2 <= length (filter P l))%nat.
Proof.
  induction l as [|a l IH]; intros j k x y Hj Hk Hne Hx Hy; [discriminate Hj|].
  destruct j as [|j], k as [|k]; simpl in Hj, Hk.
  - congruence.
  - injection Hj as ->. rewrite filter_cons_True by exact Hx. simpl.
    assert (Hin : y ∈ filter P l)
      by (apply list_elem_of_filter; split; [exact Hy|eapply list_elem_of_lookup_2; eauto]).
    destruct (filter P l); [inversion Hin|simpl; lia].
  - injection Hk as ->. rewrite filter_cons_True by exact Hy. simpl.
    assert (Hin : x ∈ filter P l)
      by (apply list_elem_of_filter; split; [exact Hx|eapply list_elem_of_lookup_2; eauto]).
    destruct (filter P l); [inversion Hin|simpl; lia].
  - assert (Hjk : j <> k) by lia.
    specialize (IH j k x y Hj Hk Hjk Hx Hy).
    rewrite filter_cons. case_decide; simpl; lia.
Qed.

(** Cancelling frees the slot: after a successful [cancel_appointment] of
    a confirmed appointment, in a store where no two confirmed appointments
    shared a slot, a [book_appointment] for the same date and time by any
    stored user succeeds. *)
Theorem cancel_then_book_succeeds (now : Z) (tc : ToolCall) (w : World)
    (k : nat) (r : Appointment)
    (now' : Z) (tc' : ToolCall) (c : string) (p4 p5 : option string) :
  name tc = "cancel_appointment" ->
  slot_exclusive (appointments (db w)) ->
  appointments (db w) !! k = Some r ->
  owned_row (arg_appointment_id (arguments tc)) (arg_contact_number (arguments tc)) r ->
  status r = confirmed ->
  success (fst (executeTool now tc w)) = true ->
  name tc' = "book_appointment" ->
  bind_param col_contact_number (arg_contact_number (arguments tc')) = Ok (Some c) ->
  bind_param col_appointment_date (arg_appointment_date (arguments tc'))
    = Ok (Some (appointment_date r)) ->
  bind_param col_appointment_time (arg_appointment_time (arguments tc'))
    = Ok (Some (appointment_time r)) ->
  bind_param col_service_type (or_null (arg_service_type (arguments tc'))) = Ok p4 ->
  bind_param col_notes (or_null (arg_notes (arguments tc'))) = Ok p5 ->
  users (db w) !! c <> None ->
  success (fst (executeTool now' tc' (snd (executeTool now tc w)))) = true /\
  status <$> appointments (db (snd (executeTool now tc w))) !! k = Some cancelled.
Proof.
  intros H Hex Hk Ho Hst Hs H' Hc Hd Ht H4 H5 Hu.
  revert Hs. rewrite (executeTool_cancel now tc w H).
  rewrite cancelAppointment_bound, (bind_id_owned _ _ _ Ho).
  destruct (UPDATE_owned _ _ _ _) as [[[a|] d']|e] eqn:E; simpl; try discriminate.
  intros _.
  destruct (UPDATE_owned_cases _ _ _ _ _ _ E)
    as [(Hn & _)|(first & rest & _ & _ & ->)]; [discriminate Hn|].
  split.
  - rewrite (book_inserts_row now' tc' _ c _ _ p4 p5 H' Hc Hd Ht H4 H5); simpl;
      [reflexivity|exact Hu|].
    intros r' Hr' Hc' Hd' Ht'.
    apply rewritten_elem in Hr' as (r0 & Hr0 & ->).
    case_bool_decide as Hhit; [discriminate Hc'|].
    apply list_elem_of_lookup_1 in Hr0 as [j Hj].
    assert (j = k) by (apply (Hex j k r0 r); auto).
    subst j. rewrite Hk in Hj. injection Hj as <-. exact (Hhit Ho).
  - simpl. rewrite (rewritten_lookup _ _ _ _ _ _ Hk).
    rewrite bool_decide_true by exact Ho. reflexivity.
Qed.

Lemma UPDATE_owned_keeps_other i c set d r d' k row :
  UPDATE_owned i c set d = Ok (r, d') ->
  appointments d !! k = Some row ->
  appointments d' !! k
    = Some (if bool_decide (owned_row i c row) then set row else row) \/
  (d' = d /\ ~ owned_row i c row).
Proof.
  intros E Hk.
  destruct (UPDATE_owned_cases _ _ _ _ _ _ E)
    as [(_ & -> & Hnone)|(first & rest & _ & _ & ->)].
  - right. split; [reflexivity|]. intros Ho.
    assert (Hin : row ∈ filter (owned_row i c) (appointments d)).
    { apply list_elem_of_filter. split; [exact Ho|].
      eapply list_elem_of_lookup_2; eauto. }
    rewrite Hnone in Hin. inversion Hin.
  - left. simpl. apply rewritten_lookup. exact Hk.
Qed.

(** What a dispatch may change of a stored appointment.  The row stays at
    its place with its id, owner, service type, notes and creation time;
    its status changes only under [cancel_appointment] and its date and
    time only under [modify_appointment]; and a row whose id and contact
    number are not those of the call is left exactly as it was.  So no
    dispatch deletes an appointment or touches another caller's. *)
Theorem dispatch_frame (now : Z) (tc : ToolCall) (w : World) (k : nat) (r : Appointment) :
  appointments (db w) !! k = Some r ->
  exists r',
    appointments (db (snd (executeTool now tc w))) !! k = Some r' /\
    id r' = id r /\ contact_number r' = contact_number r /\
    service_type r' = service_type r /\ notes r' = notes r /\
    created_at r' = created_at r /\
    (name tc <> "cancel_appointment" -> status r' = status r) /\
    (name tc <> "modify_appointment" ->
     appointment_date r' = appointment_date r /\
     appointment_time r' = appointment_time r) /\
    (~ owned_row (arg_appointment_id (arguments tc))
                 (arg_contact_number (arguments tc)) r -> r' = r).
Proof.
  intros Hk.
  assert (Hsame : exists r', appointments (db w) !! k = Some r' /\
            id r' = id r /\ contact_number r' = contact_number r /\
            service_type r' = service_type r /\ notes r' = notes r /\
            created_at r' = created_at r /\
            (name tc <> "cancel_appointment" -> status r' = status r) /\
            (name tc <> "modify_appointment" ->
             appointment_date r' = appointment_date r /\
             appointment_time r' = appointment_time r) /\
            (~ owned_row (arg_appointment_id (arguments tc))
                         (arg_contact_number (arguments tc)) r -> r' = r))
    by (exists r; auto 12).
  destruct (decide (name tc = "identify_user")) as [H1|H1].
  { rewrite (executeTool_identify now tc w H1).
    destruct (createOrUpdateUser _ _ _ _ _) as [[u d']|e] eqn:E; simpl; [|exact Hsame].
    rewrite (createOrUpdateUser_appointments _ _ _ _ _ _ _ E). exact Hsame. }
  destruct (decide (name tc = "book_appointment")) as [H2|H2].
  { destruct (book_step now tc w H2) as [[_ [-> | ->]]|[_ (row & -> & _)]];
      [exact Hsame|exact Hsame|].
    rewrite lookup_app_l by (eapply lookup_lt_Some; eauto). exact Hsame. }
  destruct (decide (name tc = "cancel_appointment")) as [H3|H3].
  { rewrite (executeTool_cancel now tc w H3).
    destruct (cancelAppointment_cases now (arg_appointment_id (arguments tc))
                (arg_contact_number (arguments tc)) (db w)) as [-> | [_ ->]];
      [|simpl; exact Hsame].
    destruct (UPDATE_owned _ _ _ _) as [[a d']|e] eqn:E; simpl.
    - destruct (UPDATE_owned_keeps_other _ _ _ _ _ _ _ _ E Hk) as [Hk'|[-> _]].
      + assert (Hk'' : appointments (db (snd
                  (match a with
                   | Some a0 => (succeeded (Some "Appointment cancelled successfully")
                       (payload_appointment (id a0) (appointment_date a0)
                          (appointment_time a0)),
                       mkWorld d' (charged w "cancel_appointment" 0.002%float))
                   | None => (failed (Error "Appointment not found or already cancelled"),
                       mkWorld d' (charged w "cancel_appointment" 0.002%float))
                   end))) !! k
                 = Some (if bool_decide (owned_row (arg_appointment_id (arguments tc))
                                           (arg_contact_number (arguments tc)) r)
                         then set_cancelled now r else r))
          by (destruct a; exact Hk').
        rewrite Hk''. eexists. split; [reflexivity|].
        case_bool_decide as Ho; simpl; repeat split; auto; try congruence;
          intros Hn; contradiction.
      + destruct a; exact Hsame.
    - exact Hsame. }
  destruct (decide (name tc = "modify_appointment")) as [H4|H4].
  { rewrite (executeTool_modify now tc w H4).
    destruct (modifyAppointment _ _ _ _ _ _) as [[a d']|e] eqn:E; simpl.
    - destruct (modifyAppointment_cases _ _ _ _ _ _ _ _ E) as (pd & pt & E').
      destruct (UPDATE_owned_keeps_other _ _ _ _ _ _ _ _ E' Hk) as [Hk'|[-> _]].
      + assert (Hk'' : appointments (db (snd
                  (match a with
                   | Some a0 => (succeeded (Some "Appointment modified successfully")
                       (payload_appointment (id a0) (appointment_date a0)
                          (appointment_time a0)),
                       mkWorld d' (charged w "modify_appointment" 0.002%float))
                   | None => (failed (Error "Appointment not found"),
                       mkWorld d' (charged w "modify_appointment" 0.002%float))
                   end))) !! k
                 = Some (if bool_decide (owned_row (arg_appointment_id (arguments tc))
                                           (arg_contact_number (arguments tc)) r)
                         then set_date_time now pd pt r else r))
          by (destruct a; exact Hk').
        rewrite Hk''. eexists. split; [reflexivity|].
        case_bool_decide as Ho; simpl; repeat split; auto; try congruence;
          intros Hn; contradiction.
      + destruct a; exact Hsame.
    - exact Hsame. }
  rewrite (executeTool_reads now tc w H1 H2 H3 H4). exact Hsame.
Qed.

(** The store's uniqueness constraint can refuse a cancellation.  When
    the contact already has a cancelled appointment at the same date and
    time as the one being cancelled (it cancelled the slot, booked it again
    and cancels again), the [UPDATE] would give two rows the same
    (contact, date, time, status): [cancel_appointment] fails with the
    store's uniqueness error and the appointment stays as it was. *)
Theorem cancel_refused_by_unique_constraint (now : Z) (tc : ToolCall) (w : World)
    (j k : nat) (r r0 : Appointment) :
  name tc = "cancel_appointment" ->
  appointments (db w) !! k = Some r ->
  owned_row (arg_appointment_id (arguments tc)) (arg_contact_number (arguments tc)) r ->
  appointments (db w) !! j = Some r0 ->
  j <> k ->
  contact_number r0 = contact_number r ->
  appointment_date r0 = appointment_date r ->
  appointment_time r0 = appointment_time r ->
  status r0 = cancelled ->
  fst (executeTool now tc w) = failed (DatabaseError unique_violation) /\
  db (snd (executeTool now tc w)) = db w.
Proof.
  intros H Hk Ho Hj Hne Hc Hd Ht Hs.
  rewrite (executeTool_cancel now tc w H).
  rewrite cancelAppointment_bound, (bind_id_owned _ _ _ Ho). unfold UPDATE_owned.
  assert (Hin : r ∈ appointments (db w)) by (eapply list_elem_of_lookup_2; eauto).
  destruct (set_cancelled now <$> filter _ (appointments (db w))) as [|first rest] eqn:Ef.
  { exfalso. apply fmap_nil_inv in Ef.
    assert (Hr : r ∈ filter (owned_row (arg_appointment_id (arguments tc))
                                       (arg_contact_number (arguments tc)))
                            (appointments (db w)))
      by (apply list_elem_of_filter; auto).
    rewrite Ef in Hr. inversion Hr. }
  match goal with
  | |- context [existsb ?f ?l] => assert (Hclash : existsb f l = true)
  end.
  { apply existsb_exists. exists r. split; [apply list_elem_of_In; exact Hin|].
    rewrite bool_decide_true by exact Ho. simpl.
    apply negb_true_iff. apply bool_decide_eq_false. intros Hlen.
    match type of Hlen with
    | length (filter ?P ?l) = _ =>
        assert (Htwo : (2 <= length (filter P l))%nat)
    end.
    { apply (filter_two _ _ j k
               (if bool_decide (owned_row (arg_appointment_id (arguments tc))
                                  (arg_contact_number (arguments tc)) r0)
                then set_cancelled now r0 else r0)
               (set_cancelled now r)).
      - rewrite list_lookup_fmap, Hj. reflexivity.
      - rewrite list_lookup_fmap, Hk. simpl.
        rewrite bool_decide_true by exact Ho. reflexivity.
      - exact Hne.
      - unfold unique_key. destruct (bool_decide _); simpl; congruence.
      - reflexivity. }
    lia. }
  rewrite Hclash. simpl. auto.
Qed.

(** A first identification can be read back: for a contact that is not
    stored yet, [identify_user] stores a record with the given name and
    email (an empty one counts as none) and both timestamps at [now],
    answers with that record, and [getUser] then returns it; every other
    user and the appointments are as before. *)
Theorem identify_new_user_is_found (now : Z) (tc : ToolCall) (w : World)
    (key : string) (p2 p3 : option string) :
  name tc = "identify_user" ->
  bind_param col_contact_number (arg_contact_number (arguments tc)) = Ok (Some key) ->
  bind_param col_name (or_null (arg_name (arguments tc))) = Ok p2 ->
  bind_param col_email (or_null (arg_email (arguments tc))) = Ok p3 ->
  users (db w) !! key = None ->
  fst (executeTool now tc w)
    = succeeded
        (Some ("User identified: " +:+ template (arg_contact_number (arguments tc))))
        (payload_user (mkUser key p2 p3 now now)) /\
  getUser (Some key) (db (snd (executeTool now tc w)))
    = Some (mkUser key p2 p3 now now) /\
  (forall other, other <> key ->
     getUser (Some other) (db (snd (executeTool now tc w))) = getUser (Some other) (db w)) /\
  appointments (db (snd (executeTool now tc w))) = appointments (db w).
Proof.
  intros H Hc H2 H3 Hu. rewrite (executeTool_identify now tc w H).
  unfold createOrUpdateUser. unfold_result. rewrite Hc, H2, H3. simpl. rewrite Hu.
  simpl. split; [reflexivity|]. split; [apply lookup_insert_eq|].
  split; [|reflexivity].
  intros other Hne. apply lookup_insert_ne. congruence.
Qed.

(** Only the owner can cancel or modify: when no stored appointment has
    both the id and the contact number of the call, [cancel_appointment]
    and [modify_appointment] fail and leave the store as it was. *)
Theorem not_owner_is_refused (now : Z) (tc : ToolCall) (w : World) :
  name tc = "cancel_appointment" \/ name tc = "modify_appointment" ->
  (forall r, r ∈ appointments (db w) ->
     ~ owned_row (arg_appointment_id (arguments tc))
                 (arg_contact_number (arguments tc)) r) ->
  success (fst (executeTool now tc w)) = false /\
  db (snd (executeTool now tc w)) = db w.
Proof.
  intros Hname Hno.
  assert (Hf : filter (owned_row (arg_appointment_id (arguments tc))
                                 (arg_contact_number (arguments tc)))
                      (appointments (db w)) = [])
    by (apply filter_none; exact Hno).
  destruct Hname as [H|H].
  - destruct (cancel_not_owned now tc w H Hf) as (Hs & _ & Hdb). auto.
  - rewrite (executeTool_modify now tc w H).
    destruct (modifyAppointment _ _ _ _ _ _) as [[a d']|e] eqn:E; simpl; [|auto].
    destruct (modifyAppointment_cases _ _ _ _ _ _ _ _ E) as (pd & pt & E').
    rewrite (UPDATE_owned_no_row _ _ _ _ Hf) in E'. injection E' as <- <-. auto.
Qed.

(** The entry a dispatch adds to the ledger, if any. *)
Lemma executeTool_ledger now tc w :
  costTracker (snd (executeTool now tc w))
    = (costTracker w ++
       (if decide (name tc ∈ toolDefinitions)
        then [mkCost (name tc) (operation_cost (name tc)) "call"] else []))%list.
Proof.
  destruct (decide (name tc ∈ toolDefinitions)) as [Hin|Hout].
  2:{ rewrite (executeTool_unknown now tc w Hout). simpl. rewrite app_nil_r. reflexivity. }
  unfold toolDefinitions in Hin. rewrite !elem_of_cons, elem_of_nil in Hin.
  unfold charged in *.
  destruct Hin as [H|[H|[H|[H|[H|[H|[H|[]]]]]]]].
  - rewrite (executeTool_identify now tc w H), H.
    destruct (createOrUpdateUser _ _ _ _ _) as [[? ?]|?]; reflexivity.
  - unfold executeTool, tool_switch. rewrite H. reflexivity.
  - rewrite (executeTool_book now tc w H), H.
    destruct (createAppointment _ _ _ _ _ _ _) as [? [?|?]]; reflexivity.
  - unfold executeTool, tool_switch. rewrite H. reflexivity.
  - rewrite (executeTool_cancel now tc w H), H.
    destruct (cancelAppointment _ _ _ _) as [[[?|] ?]|?]; reflexivity.
  - rewrite (executeTool_modify now tc w H), H.
    destruct (modifyAppointment _ _ _ _ _ _) as [[[?|] ?]|?]; reflexivity.
  - unfold executeTool, tool_switch. rewrite H. reflexivity.
Qed.


(** ** Further properties of the agent *)



(** When the first call of the language-model service fails, the caller
    gets the apology; the turn has recorded the user's message and charged
    the input tokens of the request, and nothing else: no tool is
    dispatched, the store is as before and no assistant message is
    added. *)
Theorem chat_failure_apologizes (env : Environment) (transcript : string)
    (ag : Agent) (w : World) (m : string) :
  conversationEnded (state ag) = false ->
  chat env = rejects m ->
  let user_message := mkChatMessage role_user (Some transcript) [] None in
  processUserMessage env transcript (ag, w)
    = ((mkAgent (push_message user_message (state ag)) (emitted ag) (summaryRuns ag),
        mkWorld (db w)
          (costTracker w ++
           [mkCost "openai_chat"
              (token_cost (inputTokens (messages (state ag) ++ [user_message])) 0.01%float)
              "1k_tokens"])),
       Ok "I apologize, but I encountered an error. Please try again.").
Proof.
  intros He Hc. cbv zeta.
  unfold processUserMessage, mbind, StateExn_bind, read_state. simpl.
  rewrite He. simpl. unfold try_catch, chat_cost, mbind, StateExn_bind, read_state.
  simpl. rewrite Hc. reflexivity.
Qed.

(** When the argument text of the first tool call of a reply does not
    parse, no tool call of that reply is dispatched: the recorded tool
    calls, the booked appointments, the contact number, the terminal flag
    and the store are as before, and the caller gets the apology. *)
Theorem unparseable_arguments_dispatch_nothing (env : Environment) (transcript : string)
    (ag : Agent) (w : World) (response : Completion) (reply : ModelReply)
    (toolCall : ModelToolCall) (rest : list ModelToolCall) :
  conversationEnded (state ag) = false ->
  chat env = resolves response ->
  first_choice response = Some reply ->
  reply_tool_calls reply = toolCall :: rest ->
  JSON_parse (if decide (function_arguments toolCall = EmptyString)
              then "{}" else function_arguments toolCall) = None ->
  let s' := fst (processUserMessage env transcript (ag, w)) in
  snd (processUserMessage env transcript (ag, w))
    = Ok "I apologize, but I encountered an error. Please try again." /\
  toolCalls (state s'.1) = toolCalls (state ag) /\
  bookedAppointments (state s'.1) = bookedAppointments (state ag) /\
  contactNumber (state s'.1) = contactNumber (state ag) /\
  conversationEnded (state s'.1) = false /\
  emitted s'.1 = emitted ag /\
  db s'.2 = db w.
Proof.
  intros He Hc Hf Ht Hp. cbv zeta.
  unfold processUserMessage, mbind, StateExn_bind, read_state. simpl.
  rewrite He. simpl. unfold try_catch, chat_cost, chat_output_cost, mbind, StateExn_bind,
    read_state. simpl. rewrite Hc. simpl. rewrite Hf, Ht. simpl.
  unfold parse_arguments, mbind, StateExn_bind. rewrite Hp. simpl.
  repeat split; assumption || reflexivity.
Qed.

(** *** Invariants of the session across a turn *)

Section SessionInvariant.

(** An invariant of the agent that the handling of one tool call keeps,
    and that does not depend on the history of messages. *)
Variable I : Agent -> Prop.

Hypothesis I_push_message : forall m ag,
  I ag -> I (mkAgent (push_message m (state ag)) (emitted ag) (summaryRuns ag)).

Hypothesis I_emitted : forall ag events,
  I ag -> I (mkAgent (state ag) events (summaryRuns ag)).

Hypothesis I_record_and_handle : forall B now o toolCall args result_
    (rest : Turn () -> Turn B) (R : B -> Agent -> Prop),
  (forall k, reports_only k -> triple I (rest k) R I) ->
  triple I
    (_ ← write_state (push_toolCall
           (mkToolExecution (mkToolCall (function_name toolCall) args) result_));
     _ ← emit (event_toolCall
           (mkToolExecution (mkToolCall (function_name toolCall) args) result_));
     k ← handle_specific_result now o toolCall args result_;
     rest k)
    R I.

Lemma invariant_handle_tool_calls env calls : forall i assistantResponse,
  triple I (handle_tool_calls env i calls assistantResponse) (fun _ => I) I.
Proof.
  induction calls as [|toolCall rest IH]; intros i assistantResponse; simpl.
  - intros s HP. exact HP.
  - eapply triple_bind with (Q := fun _ => I).
    { unfold parse_arguments. destruct (JSON_parse _); intros s HP; exact HP. }
    intros args.
    eapply triple_bind with (Q := fun _ => I).
    { unfold run_executeTool. apply triple_in_world. }
    intros result_.
    apply I_record_and_handle. intros k Hk.
    eapply triple_bind with (Q := fun _ => I).
    { intros s HP. apply I_push_message. exact HP. }
    intros [].
    eapply triple_bind with (Q := fun _ => I).
    { intros s HP. apply I_push_message. exact HP. }
    intros [].
    eapply triple_bind; [apply triple_chat_cost|]. intros [].
    eapply triple_bind with (Q := fun _ => I).
    { apply triple_reports_only; [exact I_emitted|exact Hk]. }
    intros [].
    eapply triple_bind; [apply triple_await|]. intros followUpResponse.
    eapply triple_bind; [unfold chat_output_cost; apply triple_in_world|]. intros [].
    apply IH.
Qed.

Lemma invariant_processUserMessage env transcript :
  triple I (processUserMessage env transcript) (fun _ => I) I.
Proof.
  unfold processUserMessage.
  eapply triple_bind with (Q := fun _ => I).
  { intros s HP. exact HP. }
  intros st. destruct (conversationEnded st); [intros s HP; exact HP|].
  eapply triple_bind with (Q := fun _ => I).
  { intros s HP. apply I_push_message. exact HP. }
  intros [].
  apply triple_try_catch with (E' := I); [|intros e s HP; exact HP].
  eapply triple_bind; [apply triple_chat_cost|]. intros [].
  eapply triple_bind; [apply triple_await|]. intros response.
  eapply triple_bind; [unfold chat_output_cost; apply triple_in_world|]. intros [].
  destruct (first_choice response) as [message_|]; [|intros s HP; exact HP].
  eapply triple_bind; [apply invariant_handle_tool_calls|]. intros assistantResponse.
  eapply triple_bind with (Q := fun _ => I).
  { intros s HP. apply I_push_message. exact HP. }
  intros [] s HP. exact HP.
Qed.

Lemma invariant_reachable :
  (forall sessionId_, I (new_AppointmentAgent sessionId_)) ->
  forall ag, reachable ag -> I ag.
Proof.
  intros Hnew ag. induction 1 as [sid|ag w env transcript _ IH]; [apply Hnew|].
  pose proof (invariant_processUserMessage env transcript (ag, w) IH) as H.
  destruct (processUserMessage env transcript (ag, w)) as [s' [a|e]]; exact H.
Qed.

End SessionInvariant.

Lemma recorded_after ag t st' events runs :
  recorded ag ->
  toolCalls st' = (toolCalls (state ag) ++ [t])%list ->
  bookedAppointments st'
    = (bookedAppointments (state ag) ++ option_list (booked_by t))%list ->
  contactNumber st' = default (contactNumber (state ag)) (identified_by t) ->
  recorded (mkAgent st' events runs).
Proof.
  intros [Hb Hc] Ht Hb' Hc'. unfold recorded. simpl.
  rewrite Ht, Hb', Hc', !omap_app, Hb, Hc. simpl. split.
  - destruct (booked_by t); reflexivity.
  - destruct (identified_by t) as [x|]; simpl.
    + rewrite last_snoc. reflexivity.
    + rewrite app_nil_r. reflexivity.
Qed.

Lemma recorded_record_and_handle {B} now o (toolCall : ModelToolCall) args result_
    (rest : Turn () -> Turn B) (R : B -> Agent -> Prop) :
  (forall k, reports_only k -> triple recorded (rest k) R recorded) ->
  triple recorded
    (_ ← write_state (push_toolCall
           (mkToolExecution (mkToolCall (function_name toolCall) args) result_));
     _ ← emit (event_toolCall
           (mkToolExecution (mkToolCall (function_name toolCall) args) result_));
     k ← handle_specific_result now o toolCall args result_;
     rest k)
    R recorded.
Proof.
  intros Hrest0 s Hrec.
  set (t := mkToolExecution (mkToolCall (function_name toolCall) args) result_).
  assert (Hname : name (executed t) = function_name toolCall) by reflexivity.
  assert (Hres : result t = result_) by reflexivity.
  assert (Hargs : arguments (executed t) = args) by reflexivity.
  pose proof (Hrest0 _ reports_only_nothing) as Hrest.
  unfold mbind, StateExn_bind, write_state, emit, handle_specific_result. simpl.
  destruct (decide (function_name toolCall = "identify_user")) as [H1|H1].
  { unfold mbind, StateExn_bind.
    destruct (success result_) eqn:Hs; simpl; apply Hrest; simpl;
      (apply recorded_after with (ag := fst s) (t := t);
       [exact Hrec | reflexivity | | ]);
      unfold booked_by, identified_by; rewrite Hname, Hres, ?Hargs, H1, ?Hs; simpl;
      rewrite ?app_nil_r; reflexivity. }
  destruct (decide (function_name toolCall = "book_appointment")) as [H2|H2].
  { unfold mbind, StateExn_bind.
    destruct (success result_) eqn:Hs; [destruct (payload result_) eqn:Hp|]; simpl;
      apply Hrest; simpl;
      (apply recorded_after with (ag := fst s) (t := t);
       [exact Hrec | reflexivity | | ]);
      unfold booked_by, identified_by; rewrite Hname, Hres, ?Hargs, H2, ?Hs, ?Hp; simpl;
      rewrite ?app_nil_r; reflexivity. }
  destruct (decide (function_name toolCall = "end_conversation")) as [H3|H3].
  { unfold mbind, StateExn_bind. simpl.
    match goal with
    | |- context [generateAndEmitSummary now o ?s0] =>
        destruct (generateAndEmitSummary_agent now o s0)
          as (k & Hr & Hst & _ & _ & _ & Hk);
        destruct (generateAndEmitSummary now o s0) as [[ag' w'] r]
    end.
    simpl in Hr, Hst. subst r. destruct ag' as [st' ev' runs']. simpl in Hst. subst st'.
    apply (Hrest0 k Hk). simpl.
    (apply recorded_after with (ag := fst s) (t := t);
     [exact Hrec | reflexivity | | ]);
      unfold booked_by, identified_by; rewrite Hname, H3; simpl;
      rewrite ?app_nil_r; reflexivity. }
  simpl. apply Hrest. simpl.
  (apply recorded_after with (ag := fst s) (t := t);
   [exact Hrec | reflexivity | | ]);
    unfold booked_by, identified_by; rewrite Hname;
    rewrite ?decide_False by assumption; simpl; rewrite ?app_nil_r; reflexivity.
Qed.

(** In every session, the booked appointments are exactly the
    appointments answered by the successful [book_appointment] calls the
    session recorded, in order, and the resolved contact number is the
    [contact_number] argument of the last successful [identify_user] call
    (none when there was no such call). *)
Theorem session_fields_follow_tool_calls (ag : Agent) :
  reachable ag ->
  bookedAppointments (state ag) = omap booked_by (toolCalls (state ag)) /\
  contactNumber (state ag) = mjoin (last (omap identified_by (toolCalls (state ag)))).
Proof.
  intros Hr. apply (invariant_reachable recorded); [| | |split; reflexivity|exact Hr].
  - intros m ag0 H. exact H.
  - intros ag0 events H. exact H.
  - intros B now o toolCall args result_ rest R. apply recorded_record_and_handle.
Qed.

(** *** A turn continues the session *)

Lemma holds_through_bind {A B} (P : Agent * World -> Prop) (m : Turn A) (k : A -> Turn B) :
  holds_through P m -> (forall a, holds_through P (k a)) -> holds_through P (m ≫= k).
Proof.
  intros Hm Hk s HP. unfold mbind, StateExn_bind.
  specialize (Hm s HP). destruct (m s) as [s' [a|e]]; simpl in *; [|exact Hm].
  apply Hk. exact Hm.
Qed.

Lemma holds_through_try_catch {A} (P : Agent * World -> Prop) (body : Turn A) handler :
  holds_through P body -> (forall e, holds_through P (handler e)) ->
  holds_through P (try_catch body handler).
Proof.
  intros Hb Hh s HP. unfold try_catch.
  specialize (Hb s HP). destruct (body s) as [s' [a|e]]; simpl in *; [exact Hb|].
  apply Hh. exact Hb.
Qed.

Lemma continues_refl s : continues s s.
Proof. unfold continues. repeat split; reflexivity. Qed.

Lemma continues_trans s0 s1 s2 : continues s0 s1 -> continues s1 s2 -> continues s0 s2.
Proof.
  unfold continues. intros (H1 & H2 & H3 & H4 & H5 & H6) (G1 & G2 & G3 & G4 & G5 & G6).
  repeat split; etransitivity; eassumption.
Qed.

(** A step that continues the session it starts from keeps every session
    it continues. *)
Lemma holds_through_step {A} s0 (m : Turn A) :
  (forall s, continues s (fst (m s))) -> holds_through (continues s0) m.
Proof. intros H s Hs. eapply continues_trans; [exact Hs|apply H]. Qed.

Ltac continues_by_append :=
  unfold continues; simpl; repeat split;
  solve [reflexivity | apply prefix_app_r; reflexivity].

Lemma write_state_continues s0 f :
  (forall st, sessionId (f st) = sessionId st /\
              messages st `prefix_of` messages (f st) /\
              toolCalls st `prefix_of` toolCalls (f st) /\
              bookedAppointments st `prefix_of` bookedAppointments (f st)) ->
  holds_through (continues s0) (write_state f).
Proof.
  intros Hf. apply holds_through_step. intros s.
  destruct (Hf (state (fst s))) as (H1 & H2 & H3 & H4).
  unfold continues. simpl. repeat split; auto; reflexivity.
Qed.

Lemma in_world_continues {A} s0 (m : Tool A) :
  (forall w, costTracker w `prefix_of` costTracker (fst (m w))) ->
  holds_through (continues s0) (in_world m).
Proof.
  intros Hm. apply holds_through_step. intros s. unfold in_world.
  specialize (Hm (snd s)). destruct (m (snd s)) as [w' r]. simpl in *.
  unfold continues. simpl. repeat split; auto; reflexivity.
Qed.

Lemma generateSummary_ledger now o msgs c sid booked w :
  costTracker w `prefix_of` costTracker (fst (generateSummary now o msgs c sid booked w)).
Proof.
  unfold generateSummary, try_catch.
  unfold mbind, mret, StateExn_bind, StateExn_ret, addCost, await, read_costTracker,
    query, throw.
  simpl. destruct o as [response|m]; simpl.
  - destruct (saveConversationSummary _ _ _ _ _ _ _ _ _) as [[row d']|e]; simpl;
      rewrite <- app_assoc; apply prefix_app_r; reflexivity.
  - apply prefix_app_r. reflexivity.
Qed.

(** A step whose result has the property [Q], followed by a step that
    keeps [P] for every such result. *)
Lemma holds_through_bind_result {A B} (P : Agent * World -> Prop) (Q : A -> Prop)
    (m : Turn A) (k : A -> Turn B) :
  holds_through P m -> (forall s a, snd (m s) = Ok a -> Q a) ->
  (forall a, Q a -> holds_through P (k a)) -> holds_through P (m ≫= k).
Proof.
  intros Hm HQ Hk s HP. unfold mbind, StateExn_bind.
  specialize (Hm s HP). specialize (HQ s).
  destruct (m s) as [s' [a|e]]; simpl in *; [|exact Hm].
  apply (Hk a (HQ a eq_refl)). exact Hm.
Qed.

Lemma reports_only_continues s0 k :
  reports_only k -> holds_through (continues s0) k.
Proof.
  intros Hk. apply holds_through_step. intros s.
  destruct (Hk s) as (events & _ & Hst & _ & He & Hl).
  unfold continues. rewrite Hst, He.
  repeat split; solve [reflexivity | apply prefix_app_r; reflexivity | exact Hl].
Qed.

Lemma generateAndEmitSummary_continues s0 now o :
  holds_through (continues s0) (generateAndEmitSummary now o).
Proof.
  apply holds_through_step. intros s.
  destruct (generateAndEmitSummary_agent now o s) as (k & _ & Hst & _ & He & Hl & _).
  unfold continues. rewrite Hst, He.
  repeat split; solve [reflexivity | exact Hl].
Qed.

Lemma handle_specific_result_continues s0 now o toolCall args result_ :
  holds_through (continues s0) (handle_specific_result now o toolCall args result_).
Proof.
  unfold handle_specific_result.
  repeat case_decide.
  - apply holds_through_bind; [|intros []; apply holds_through_step; intros s;
                                 apply continues_refl].
    destruct (success result_).
    + apply holds_through_step. intros s. continues_by_append.
    + apply holds_through_step. intros s. apply continues_refl.
  - apply holds_through_bind; [|intros []; apply holds_through_step; intros s;
                                 apply continues_refl].
    destruct (success result_); [destruct (payload result_)|];
      apply holds_through_step; intros s;
      solve [apply continues_refl | continues_by_append].
  - apply holds_through_bind.
    { apply holds_through_step. intros s. continues_by_append. }
    intros []. apply generateAndEmitSummary_continues.
  - apply holds_through_step. intros s. apply continues_refl.
Qed.

(** What [handle_specific_result] leaves in flight only reports. *)
Lemma handle_specific_result_in_flight now o toolCall args result_ s k :
  snd (handle_specific_result now o toolCall args result_ s) = Ok k -> reports_only k.
Proof.
  unfold handle_specific_result.
  repeat case_decide.
  - unfold mbind, StateExn_bind. destruct (success result_); simpl;
      intros E; injection E as <-; apply reports_only_nothing.
  - unfold mbind, StateExn_bind.
    destruct (success result_); [destruct (payload result_)|]; simpl;
      intros E; injection E as <-; apply reports_only_nothing.
  - unfold mbind, StateExn_bind, write_state. simpl.
    match goal with
    | |- context [generateAndEmitSummary now o ?s0] =>
        destruct (generateAndEmitSummary_agent now o s0) as (k' & Hr & _ & _ & _ & _ & Hk)
    end.
    rewrite Hr. intros E. injection E as <-. exact Hk.
  - simpl. intros E. injection E as <-. apply reports_only_nothing.
Qed.

Lemma chat_cost_continues s0 : holds_through (continues s0) chat_cost.
Proof.
  unfold chat_cost. apply holds_through_bind.
  { apply holds_through_step. intros s. apply continues_refl. }
  intros st. apply in_world_continues. intros w. simpl. apply prefix_app_r. reflexivity.
Qed.

Lemma await_continues s0 o : holds_through (continues s0) (await o).
Proof. apply holds_through_step. intros s. destruct o; apply continues_refl. Qed.

Lemma handle_tool_calls_continues s0 env calls : forall i assistantResponse,
  holds_through (continues s0) (handle_tool_calls env i calls assistantResponse).
Proof.
  induction calls as [|toolCall rest IH]; intros i assistantResponse; simpl.
  - apply holds_through_step. intros s. apply continues_refl.
  - apply holds_through_bind.
    { apply holds_through_step. intros s. unfold parse_arguments.
      destruct (JSON_parse _); apply continues_refl. }
    intros args. apply holds_through_bind.
    { unfold run_executeTool. apply in_world_continues. intros w.
      pose proof (executeTool_ledger (timestamp env i)
                    (mkToolCall (function_name toolCall) args) w) as Hl.
      destruct (executeTool _ _ w) as [r w']. simpl in *. rewrite Hl.
      apply prefix_app_r. reflexivity. }
    intros result_. apply holds_through_bind.
    { apply holds_through_step. intros s. continues_by_append. }
    intros []. apply holds_through_bind.
    { apply holds_through_step. intros s. continues_by_append. }
    intros []. apply holds_through_bind_result with (Q := reports_only).
    { apply handle_specific_result_continues. }
    { intros s k. apply handle_specific_result_in_flight. }
    intros k Hk. apply holds_through_bind.
    { apply holds_through_step. intros s. continues_by_append. }
    intros []. apply holds_through_bind.
    { apply holds_through_step. intros s. continues_by_append. }
    intros []. apply holds_through_bind; [apply chat_cost_continues|].
    intros []. apply holds_through_bind; [apply reports_only_continues; exact Hk|].
    intros []. apply holds_through_bind; [apply await_continues|].
    intros followUpResponse. apply holds_through_bind.
    { unfold chat_output_cost. apply in_world_continues. intros w. simpl.
      apply prefix_app_r. reflexivity. }
    intros []. apply IH.
Qed.

(** A turn only adds to the session: the session id is kept, and the
    history of messages, the recorded tool calls, the booked appointments,
    the emitted events and the cost ledger before the turn are prefixes of
    those after it, whether the turn ends normally or with the apology.
    Nothing the session recorded is rewritten or dropped. *)
Theorem turn_continues_session (env : Environment) (transcript : string)
    (s : Agent * World) :
  continues s (fst (processUserMessage env transcript s)).
Proof.
  assert (H : holds_through (continues s) (processUserMessage env transcript)).
  { unfold processUserMessage. apply holds_through_bind.
    { apply holds_through_step. intros s1. apply continues_refl. }
    intros st. destruct (conversationEnded st).
    { apply holds_through_step. intros s1. apply continues_refl. }
    apply holds_through_bind.
    { apply holds_through_step. intros s1. continues_by_append. }
    intros []. apply holds_through_try_catch.
    - apply holds_through_bind; [apply chat_cost_continues|].
      intros []. apply holds_through_bind; [apply await_continues|].
      intros response. apply holds_through_bind.
      { unfold chat_output_cost. apply in_world_continues. intros w. simpl.
        apply prefix_app_r. reflexivity. }
      intros []. destruct (first_choice response) as [message_|].
      + apply holds_through_bind; [apply handle_tool_calls_continues|].
        intros assistantResponse. apply holds_through_bind.
        { apply holds_through_step. intros s1. continues_by_append. }
        intros []. apply holds_through_step. intros s1. apply continues_refl.
      + apply holds_through_step. intros s1. apply continues_refl.
    - intros e. apply holds_through_step. intros s1. apply continues_refl. }
  apply H. apply continues_refl.
Qed.

(** ** Further properties of the summary finalizer *)

(** When the summarization service answers and the contact is a stored
    user, [generateSummary] charges the input and the output tokens,
    persists one summary record and returns its digest.  The record holds
    the returned digest (the stand-in "No summary generated." when the
    answer has no text), the booked appointments it was given, the
    preferences of the transcript, and a snapshot of the ledger that
    already contains the two entries of the summary itself, with the total
    of exactly that snapshot. *)
Theorem summary_record_snapshots_ledger (now : Z) (response : Completion)
    (msgs : list ConversationMessage) (c sid : string)
    (booked : list BookedAppointment) (w : World) (key sid' : string) :
  bind_param col_contact_number (Some c) = Ok (Some key) ->
  bind_param col_session_id (Some sid) = Ok (Some sid') ->
  users (db w) !! key <> None ->
  let digest :=
    default "No summary generated." (or_null (first_choice response ≫= reply_content)) in
  exists e1 e2,
    service e1 = "openai_summary" /\ service e2 = "openai_summary_output" /\
    let ledger := (costTracker w ++ [e1; e2])%list in
    generateSummary now (resolves response) msgs c sid booked w
      = (mkWorld
           (mkDb (users (db w)) (appointments (db w)) (appointments_id_seq (db w))
                 (conversation_summaries (db w) ++
                  [mkSummary key sid' digest booked (extractPreferences msgs)
                             (getTotalCost ledger) ledger now]))
           ledger,
         Ok digest).
Proof.
  intros Hc Hs Hu. cbv zeta.
  unfold generateSummary, try_catch.
  unfold mbind at 1 2 3 4 5. unfold StateExn_bind, addCost, await, read_costTracker,
    query, mret, StateExn_ret. simpl.
  unfold saveConversationSummary. unfold_result. rewrite Hc, Hs. simpl.
  rewrite bool_decide_false by exact Hu. simpl.
  rewrite <- app_assoc. simpl.
  eexists _, _. split; [|split]; [| |reflexivity]; reflexivity.
Qed.

(** *** The preference tags *)

Lemma prefix_spec sub : forall s,
  String.prefix sub s = true <-> exists post, s = sub +:+ post.
Proof.
  induction sub as [|a sub IH]; intros s; simpl.
  - destruct s; split; eauto.
  - destruct s as [|b s]; simpl.
    + split; [discriminate|]. intros [post E]. discriminate E.
    + destruct (Ascii.ascii_dec a b) as [->|Hne].
      * rewrite IH. split; intros [post E]; exists post; [rewrite E; reflexivity|].
        injection E as E. exact E.
      * split; [discriminate|]. intros [post E]. injection E as E _. congruence.
Qed.

(** [includes] is the substring test. *)
Lemma includes_spec sub : forall s,
  includes s sub = true <-> exists pre post, s = pre +:+ sub +:+ post.
Proof.
  intros s. induction s as [|a s IH].
  - change (includes EmptyString sub) with (String.prefix sub EmptyString || false).
    rewrite orb_false_r. split.
    + intros H. apply prefix_spec in H as [post E]. exists EmptyString, post. exact E.
    + intros (pre & post & E). apply prefix_spec.
      destruct pre; [eauto|discriminate E].
  - change (includes (String a s) sub)
      with (String.prefix sub (String a s) || includes s sub).
    rewrite orb_true_iff. split.
    + intros [H|H].
      * apply prefix_spec in H as [post E]. exists EmptyString, post. exact E.
      * apply IH in H as (pre & post & E).
        exists (String a pre), post. simpl. rewrite E. reflexivity.
    + intros (pre & post & E). destruct pre as [|b pre]; simpl in E.
      * left. apply prefix_spec. eauto.
      * right. apply IH. injection E as _ E. eauto.
Qed.

Lemma string_app_assoc (a b c : string) : (a +:+ b) +:+ c = a +:+ (b +:+ c).
Proof.
  induction a as [|x a IH]; [reflexivity|].
  change (String x ((a +:+ b) +:+ c) = String x (a +:+ (b +:+ c))).
  rewrite IH. reflexivity.
Qed.

Lemma toLowerCase_app (a b : string) :
  toLowerCase (a +:+ b) = toLowerCase a +:+ toLowerCase b.
Proof.
  induction a as [|x a IH]; [reflexivity|].
  change (String (lower_ascii x) (toLowerCase (a +:+ b))
          = String (lower_ascii x) (toLowerCase a +:+ toLowerCase b)).
  rewrite IH. reflexivity.
Qed.

Lemma string_app_nil_r (a : string) : a +:+ EmptyString = a.
Proof.
  induction a as [|x a IH]; [reflexivity|].
  change (String x (a +:+ EmptyString) = String x a). rewrite IH. reflexivity.
Qed.

Lemma concat_holds_element sep (x : string) l :
  x ∈ l -> exists pre post, String.concat sep l = pre +:+ x +:+ post.
Proof.
  induction l as [|y l IH]; intros Hin; [inversion Hin|].
  apply elem_of_cons in Hin as [->|Hin].
  - destruct l as [|z l].
    + exists EmptyString, EmptyString.
      change (y = y +:+ EmptyString). symmetry. apply string_app_nil_r.
    + exists EmptyString, (sep +:+ String.concat sep (z :: l)). reflexivity.
  - destruct (IH Hin) as (pre & post & E).
    destruct l as [|z l]; [inversion Hin|].
    exists (y +:+ sep +:+ pre), post.
    change (String.concat sep (y :: z :: l))
      with (y +:+ sep +:+ String.concat sep (z :: l)).
    rewrite E, !string_app_assoc. reflexivity.
Qed.

(** A keyword written in any letter case inside a user's message is found
    in the text [extractPreferences] searches. *)
Lemma keyword_in_user_text msgs m pre kw post :
  m ∈ msgs -> cm_role m = role_user -> cm_content m = pre +:+ kw +:+ post ->
  includes (toLowerCase (String.concat " "
              (cm_content <$> filter (fun m => cm_role m = role_user) msgs)))
           (toLowerCase kw) = true.
Proof.
  intros Hin Hrole Hcontent.
  assert (Hc : cm_content m ∈ cm_content <$> filter (fun m => cm_role m = role_user) msgs).
  { apply list_elem_of_fmap. exists m. split; [reflexivity|].
    apply list_elem_of_filter. auto. }
  destruct (concat_holds_element " " _ _ Hc) as (a & b & E).
  apply includes_spec. rewrite E, Hcontent.
  exists (toLowerCase (a +:+ pre)), (toLowerCase (post +:+ b)).
  rewrite !toLowerCase_app, !string_app_assoc. reflexivity.
Qed.

(** The preference tags come from the user's messages only, and a keyword
    counts in any letter case: a user message that contains "urgent" or
    "asap" gives the priority 'urgent'; one that contains "afternoon" or
    "pm" gives the time preference 'afternoon', whatever else was said
    about the morning; and the messages of the other roles change
    nothing. *)
Theorem preferences_from_user_messages (msgs : list ConversationMessage) :
  (forall m pre kw post,
     m ∈ msgs -> cm_role m = role_user -> cm_content m = pre +:+ kw +:+ post ->
     toLowerCase kw = "urgent" \/ toLowerCase kw = "asap" ->
     priority (extractPreferences msgs) = Some "urgent") /\
  (forall m pre kw post,
     m ∈ msgs -> cm_role m = role_user -> cm_content m = pre +:+ kw +:+ post ->
     toLowerCase kw = "afternoon" \/ toLowerCase kw = "pm" ->
     time_preference (extractPreferences msgs) = Some "afternoon") /\
  extractPreferences msgs
    = extractPreferences (filter (fun m => cm_role m = role_user) msgs) /\
  (filter (fun m => cm_role m = role_user) msgs = [] ->
   extractPreferences msgs = mkPreferences None None).
Proof.
  split; [|split; [|split]].
  - intros m pre kw post Hin Hrole Hcontent Hkw.
    pose proof (keyword_in_user_text msgs m pre kw post Hin Hrole Hcontent) as Hfound.
    unfold extractPreferences. simpl.
    destruct Hkw as [E|E]; rewrite E in Hfound; rewrite Hfound;
      [reflexivity|rewrite orb_true_r; reflexivity].
  - intros m pre kw post Hin Hrole Hcontent Hkw.
    pose proof (keyword_in_user_text msgs m pre kw post Hin Hrole Hcontent) as Hfound.
    unfold extractPreferences. simpl.
    destruct Hkw as [E|E]; rewrite E in Hfound; rewrite Hfound;
      [reflexivity|rewrite orb_true_r; reflexivity].
  - unfold extractPreferences.
    rewrite (list_filter_filter (fun m => cm_role m = role_user)
                                (fun m => cm_role m = role_user) msgs).
    erewrite (list_filter_iff (fun m => cm_role m = role_user /\ cm_role m = role_user)
                              (fun m => cm_role m = role_user)); [reflexivity|].
    intros m. split; [intros [H _]; exact H|intros H; split; exact H].
  - intros Hnone. unfold extractPreferences. rewrite Hnone. reflexivity.
Qed.

(** ** Modifications *)

(** [modify_appointment] without a new date and without a new time (absent
    or empty) is refused with "No fields to update"; the store is not
    touched and the call is charged. *)
Theorem modify_without_fields_is_refused (now : Z) (tc : ToolCall) (w : World) :
  name tc = "modify_appointment" ->
  truthy (arg_new_date (arguments tc)) = false ->
  truthy (arg_new_time (arguments tc)) = false ->
  executeTool now tc w
  = (failed (Error "No fields to update"),
     mkWorld (db w) (charged w "modify_appointment" 0.002%float)).
Proof.
  intros H Hd Ht. rewrite (executeTool_modify now tc w H).
  rewrite (modifyAppointment_neither _ _ _ _ _ _ Hd Ht). reflexivity.
Qed.

(** [modify_appointment] with a new date and a new time that another
    appointment (one with another id) holds as confirmed is refused with
    "New appointment slot already booked", before the ownership of the
    appointment is looked at; the store is not touched and the call is
    charged.  The appointment id of the call is one that the store takes
    as an [INTEGER]: with a number outside that type the conflict query
    itself is refused (lemma [out_of_range_id_is_refused] below). *)
Theorem modify_to_held_slot_is_refused (now : Z) (tc : ToolCall) (w : World)
    (dt tm : string) (r : Appointment) (i : Z) :
  name tc = "modify_appointment" ->
  truthy (arg_new_date (arguments tc)) = true ->
  truthy (arg_new_time (arguments tc)) = true ->
  bind_param col_appointment_date (arg_new_date (arguments tc)) = Ok (Some dt) ->
  bind_param col_appointment_time (arg_new_time (arguments tc)) = Ok (Some tm) ->
  arg_appointment_id (arguments tc) = Some i ->
  INTEGER i ->
  r ∈ appointments (db w) ->
  status r = confirmed -> appointment_date r = dt -> appointment_time r = tm ->
  id r <> i ->
  executeTool now tc w
  = (failed (Error "New appointment slot already booked"),
     mkWorld (db w) (charged w "modify_appointment" 0.002%float)).
Proof.
  intros H Hd Ht Hbd Hbt Hi Hint Hin Hs Hrd Hrt Hne.
  rewrite (executeTool_modify now tc w H).
  rewrite (modifyAppointment_conflict _ _ _ _ _ _ _ _ r Hd Ht Hbd Hbt).
  - reflexivity.
  - rewrite Hi. simpl. rewrite decide_True by exact Hint. reflexivity.
  - exact Hin.
  - unfold holds_slot. rewrite Hrd, Hrt. split; [reflexivity|]. split; [reflexivity|].
    exact Hs.
  - rewrite Hi. exact Hne.
Qed.

(** An appointment id outside [INTEGER] refuses [cancel_appointment] and
    [modify_appointment] with the store's range error, whatever the store
    holds, as soon as a statement with the id reaches the store (for
    [modify_appointment]: when the store accepts the new date and time
    that are given, and at least one is given); the store is not
    touched. *)
Lemma out_of_range_id_is_refused (now : Z) (tc : ToolCall) (w : World) (i : Z) pd pt :
  name tc = "cancel_appointment" \/
  (name tc = "modify_appointment" /\
   bind_param col_appointment_date (or_null (arg_new_date (arguments tc))) = Ok pd /\
   bind_param col_appointment_time (or_null (arg_new_time (arguments tc))) = Ok pt /\
   truthy (arg_new_date (arguments tc)) || truthy (arg_new_time (arguments tc)) = true) ->
  arg_appointment_id (arguments tc) = Some i ->
  ~ INTEGER i ->
  executeTool now tc w
  = (failed (DatabaseError numeric_value_out_of_range),
     mkWorld (db w) (charged w (name tc) 0.002%float)).
Proof.
  intros Hname Hi Hout.
  assert (Hb : bind_id (arg_appointment_id (arguments tc))
               = Throw (DatabaseError numeric_value_out_of_range)).
  { rewrite Hi. simpl. rewrite decide_False by exact Hout. reflexivity. }
  destruct Hname as [H|(H & Hbd & Hbt & Htr)].
  - rewrite (executeTool_cancel now tc w H), H.
    rewrite cancelAppointment_bound, Hb. reflexivity.
  - rewrite (executeTool_modify now tc w H), H.
    unfold modifyAppointment. unfold_result. rewrite Htr. simpl.
    assert (Hor : forall s, truthy s = true -> or_null s = s)
      by (intros [[|? ?]|] T; try reflexivity; discriminate T).
    pose proof Hbd as Hbd'. pose proof Hbt as Hbt'.
    destruct (truthy (arg_new_date (arguments tc))) eqn:Td;
      destruct (truthy (arg_new_time (arguments tc))) eqn:Tt; simpl in *;
      try discriminate Htr;
      rewrite ?(Hor _ Td) in Hbd'; rewrite ?(Hor _ Tt) in Hbt';
      rewrite ?Hbd', ?Hbt', ?Hbd, ?Hbt, ?Hb; simpl;
      rewrite ?Hbd, ?Hbt, ?Hb; reflexivity.
Qed.

Lemma modifyAppointment_binds now i c newDate newTime d r d' :
  modifyAppointment now i c newDate newTime d = Ok (r, d') ->
  exists pd pt,
    bind_param col_appointment_date (or_null newDate) = Ok pd /\
    bind_param col_appointment_time (or_null newTime) = Ok pt /\
    UPDATE_owned i c (set_date_time now pd pt) d = Ok (r, d').
Proof.
  unfold modifyAppointment. unfold_result.
  destruct (if truthy newDate && truthy newTime then _ else _); [|discriminate].
  destruct (negb _); [discriminate|].
  destruct (bind_param col_appointment_date _) as [pd|]; [|discriminate].
  destruct (bind_param col_appointment_time _) as [pt|]; [|discriminate].
  destruct (bind_id i) as [q|] eqn:Hb; [|discriminate].
  rewrite (bind_id_Ok _ _ Hb).
  intros E. exists pd, pt. split; [reflexivity|]. split; [reflexivity|]. exact E.
Qed.

(** A [modify_appointment] that reports success has rewritten an
    appointment of the caller at its place: the date and the time are the
    supplied ones (a field that was not supplied keeps its value), the
    status, the id and the owner are as before, [updated_at] is the time
    of the call, and the result shows that row's id, date and time. *)
Theorem modify_success_rewrites_owned_row (now : Z) (tc : ToolCall) (w : World) :
  name tc = "modify_appointment" ->
  success (fst (executeTool now tc w)) = true ->
  exists k r pd pt,
    bind_param col_appointment_date (or_null (arg_new_date (arguments tc))) = Ok pd /\
    bind_param col_appointment_time (or_null (arg_new_time (arguments tc))) = Ok pt /\
    appointments (db w) !! k = Some r /\
    owned_row (arg_appointment_id (arguments tc)) (arg_contact_number (arguments tc)) r /\
    appointments (db (snd (executeTool now tc w))) !! k
    = Some (mkAppointment (id r) (contact_number r)
              (default (appointment_date r) pd) (default (appointment_time r) pt)
              (service_type r) (notes r) (status r) (created_at r) now) /\
    payload (fst (executeTool now tc w))
    = payload_appointment (id r) (default (appointment_date r) pd)
                          (default (appointment_time r) pt).
Proof.
  intros H. rewrite (executeTool_modify now tc w H).
  destruct (modifyAppointment _ _ _ _ _ _) as [[[a|] d']|e] eqn:E; simpl;
    try discriminate.
  intros _.
  apply modifyAppointment_binds in E as (pd & pt & Hbd & Hbt & E).
  apply UPDATE_owned_cases in E as [[Hn _]|(first & rest & Ha & Hf & Hd')];
    [discriminate Hn|].
  injection Ha as ->.
  assert (Hin : first ∈ filter (owned_row (arg_appointment_id (arguments tc))
                                  (arg_contact_number (arguments tc)))
                          (appointments (db w)))
    by (rewrite Hf; apply elem_of_cons; left; reflexivity).
  apply list_elem_of_filter in Hin as [Hown Hin].
  apply list_elem_of_lookup in Hin as [k Hk].
  exists k, first, pd, pt.
  split; [exact Hbd|]. split; [exact Hbt|]. split; [exact Hk|]. split; [exact Hown|].
  split; [|reflexivity].
  rewrite Hd'. simpl. rewrite (rewritten_lookup _ _ _ _ _ _ Hk).
  rewrite (bool_decide_eq_true_2 _ Hown). reflexivity.
Qed.

(** ** The speech services *)

(** [synthesizeSpeech] charges 0.0001 per character of the text before it
    sends the request, so the charge is made whether the request succeeds
    or not; a failed request reaches the caller as the error it was, and
    the store is not touched. *)
Theorem synthesizeSpeech_charges_first (text : string) (outcome : TtsOutcome) (w : World) :
  db (fst (synthesizeSpeech text outcome w)) = db w /\
  costTracker (fst (synthesizeSpeech text outcome w)) =
    (costTracker w ++
     [mkCost "cartesia_tts" (Number_of_Z (Z.of_nat (String.length text)) * 0.0001)%float
             "character"])%list /\
  (forall audio, snd (synthesizeSpeech text outcome w) = Ok audio <->
                 outcome = tts_ok audio) /\
  (forall body, outcome = tts_not_ok body ->
     snd (synthesizeSpeech text outcome w)
     = Throw (Error ("Cartesia TTS failed: " +:+ body))) /\
  (forall m, outcome = tts_rejects m ->
     snd (synthesizeSpeech text outcome w) = Throw (ServiceError m)).
Proof.
  unfold synthesizeSpeech, try_catch, mbind, mret, StateExn_bind, StateExn_ret,
    addCost, throw, length_of.
  destruct outcome as [m|body|audio]; simpl;
    (split; [reflexivity|]); (split; [reflexivity|]);
    (split; [intros a; split; intros H; congruence|]);
    split; intros x H; congruence.
Qed.

(** [transcribeAudio] charges one minute (0.0043) before it sends the
    request, whether the request succeeds or not; a response without a
    transcript gives the empty string, and a rejection reaches the caller. *)
Theorem transcribeAudio_charges_first (outcome : SttOutcome) (w : World) :
  fst (transcribeAudio outcome w)
  = mkWorld (db w) (costTracker w ++ [mkCost "deepgram_stt" 0.0043%float "minute"]) /\
  match outcome with
  | stt_resolves (Some transcript) => snd (transcribeAudio outcome w) = Ok transcript
  | stt_resolves None => snd (transcribeAudio outcome w) = Ok EmptyString
  | stt_rejects m => snd (transcribeAudio outcome w) = Throw (ServiceError m)
  end.
Proof.
  unfold transcribeAudio, try_catch, mbind, mret, StateExn_bind, StateExn_ret,
    addCost, throw.
  destruct outcome as [[t|]|m]; simpl; split; reflexivity.
Qed.

(** ** The tool handler of the voice agent *)

Lemma getOrCreateSession_lookup uuid roomName sessions :
  (getOrCreateSession uuid roomName sessions).2 !! roomName
  = Some (getOrCreateSession uuid roomName sessions).1.
Proof.
  unfold getOrCreateSession.
  destruct (sessions !! roomName) as [st|] eqn:E; simpl.
  - exact E.
  - apply lookup_insert_eq.
Qed.

(** A room has one session: once [getOrCreateSession] has answered for a
    room, every later call for that room answers the same session, with
    the session id of the first call, and leaves the map as it is; the
    sessions of the other rooms are never touched. *)
Theorem getOrCreateSession_stable (uuid uuid' roomName : string)
    (sessions : gmap string AgentSessionState) :
  let first := getOrCreateSession uuid roomName sessions in
  getOrCreateSession uuid' roomName first.2 = first /\
  (forall other, other <> roomName -> first.2 !! other = sessions !! other) /\
  (sessions !! roomName = None -> room_sessionId first.1 = uuid) /\
  (forall st, sessions !! roomName = Some st -> first = (st, sessions)).
Proof.
  simpl. split; [|split; [|split]].
  - pose proof (getOrCreateSession_lookup uuid roomName sessions) as Hl.
    destruct (getOrCreateSession uuid roomName sessions) as [st m] eqn:E.
    simpl in *. unfold getOrCreateSession at 1. rewrite Hl. reflexivity.
  - intros other Hne. unfold getOrCreateSession.
    destruct (sessions !! roomName); simpl; [reflexivity|].
    apply lookup_insert_ne. congruence.
  - intros Hn. unfold getOrCreateSession. rewrite Hn. reflexivity.
  - intros st Hs. unfold getOrCreateSession. rewrite Hs. reflexivity.
Qed.

Lemma track_tool_result_returns env toolName args r s :
  snd (track_tool_result env toolName args r s) = Ok tt /\
  room_toolCalls (session (fst (track_tool_result env toolName args r s)))
  = room_toolCalls (session s).
Proof.
  unfold track_tool_result.
  destruct (bool_decide (toolName = "identify_user") && success r).
  { split; reflexivity. }
  destruct (bool_decide (toolName = "book_appointment") && success r).
  { destruct (payload r); split; reflexivity. }
  destruct (bool_decide (toolName = "end_conversation")); [|split; reflexivity].
  unfold mbind, mret, StateExn_bind, StateExn_ret, read_session. simpl.
  destruct (truthy (room_contactNumber (session s))); [|split; reflexivity].
  unfold try_catch, room_in_world, read_costTracker, publishData. simpl.
  destruct (generateSummary _ _ _ _ _ _ _) as [w' [summary|e]]; simpl.
  - destruct (publish_summary env); simpl; split; reflexivity.
  - split; reflexivity.
Qed.

Lemma reverse_snoc_cases {A} (l : list A) (x y : A) :
  match reverse (l ++ [x])%list with
  | _ :: earlier => (reverse earlier ++ [y])%list
  | [] => []
  end = (l ++ [y])%list.
Proof. rewrite reverse_snoc. rewrite reverse_involutive. reflexivity. Qed.

(** The shape of one call of the handler, by the outcome of the
    publication of the tool call. *)
Lemma execute_cases env toolName args s :
  let tc := mkToolCall toolName args in
  let r := fst (executeTool (room_now env) tc (room_world s)) in
  let pushed :=
    mkRoomState (room_push_toolCall (mkToolExecution tc r) (session s)) (published s)
                (snd (executeTool (room_now env) tc (room_world s))) in
  let tracked := fst (track_tool_result env toolName args r pushed) in
  match publish_toolCall env with
  | delivered =>
      execute env toolName args s
      = (mkRoomState (session tracked)
           (published tracked ++ [data_toolCall (mkToolExecution tc r)])
           (room_world tracked),
         Ok (JSON_stringify_result r))
  | no_participant =>
      execute env toolName args s = (tracked, Ok (JSON_stringify_result r))
  | publish_rejects text =>
      execute env toolName args s
      = (mkRoomState (room_overwrite_result tc (unpublished text) (session tracked))
           (published tracked) (room_world tracked),
         Ok (JSON_stringify_result (unpublished text)))
  end.
Proof.
  simpl. unfold execute, try_catch.
  unfold mbind, mret, StateExn_bind, StateExn_ret, room_in_world, write_session.
  destruct (executeTool (room_now env) (mkToolCall toolName args) (room_world s))
    as [r w'] eqn:E. simpl.
  match goal with
  | |- context [track_tool_result env toolName args r ?p] =>
      pose proof (track_tool_result_returns env toolName args r p) as [Hok _];
      destruct (track_tool_result env toolName args r p) as [tracked res] eqn:Et
  end.
  simpl in Hok. subst res. simpl.
  unfold publishData.
  destruct (publish_toolCall env); simpl; reflexivity.
Qed.

(** The handler of the voice agent never throws; it records exactly one
    tool call, after those recorded before, and the result it answers to
    the language model is the result of that recorded call.  The result is
    the dispatcher's, unless the publication of the tool call to the room
    was rejected: then the recorded call and the answer both carry a
    failure with the text of the rejection. *)
Theorem execute_answers_what_it_records (env : RoomEnvironment) (toolName : string)
    (args : Args) (s : RoomState) :
  exists r,
    snd (execute env toolName args s) = Ok (JSON_stringify_result r) /\
    room_toolCalls (session (fst (execute env toolName args s)))
    = (room_toolCalls (session s) ++ [mkToolExecution (mkToolCall toolName args) r])%list /\
    match publish_toolCall env with
    | publish_rejects text => r = unpublished text
    | _ => r = fst (executeTool (room_now env) (mkToolCall toolName args) (room_world s))
    end.
Proof.
  pose proof (execute_cases env toolName args s) as Hc. simpl in Hc.
  match type of Hc with
  | context [track_tool_result env toolName args ?r ?p] =>
      pose proof (track_tool_result_returns env toolName args r p) as [_ Ht]
  end.
  simpl in Ht.
  destruct (publish_toolCall env) as [| |text]; rewrite Hc; simpl.
  - eexists. split; [reflexivity|]. split; [exact Ht|reflexivity].
  - eexists. split; [reflexivity|]. split; [exact Ht|reflexivity].
  - eexists. split; [reflexivity|]. split; [|reflexivity].
    rewrite Ht. apply reverse_snoc_cases.
Qed.

(** When the publication of the tool call is rejected, the operation has
    still taken place: for every operation but [end_conversation] the
    world is the one the dispatcher left, the session's booked
    appointments and contact number follow the dispatcher's result, and
    only the recorded call and the answer say that the call failed. *)
Theorem unpublished_call_is_answered_as_failed (env : RoomEnvironment)
    (toolName : string) (args : Args) (s : RoomState) (text : string) :
  publish_toolCall env = publish_rejects text ->
  toolName <> "end_conversation" ->
  let tc := mkToolCall toolName args in
  let done := mkToolExecution tc (fst (executeTool (room_now env) tc (room_world s))) in
  let s' := fst (execute env toolName args s) in
  snd (execute env toolName args s) = Ok (JSON_stringify_result (unpublished text)) /\
  last (room_toolCalls (session s')) = Some (mkToolExecution tc (unpublished text)) /\
  room_world s' = snd (executeTool (room_now env) tc (room_world s)) /\
  room_bookedAppointments (session s')
  = (room_bookedAppointments (session s) ++ omap booked_by [done])%list /\
  room_contactNumber (session s')
  = default (room_contactNumber (session s)) (identified_by done) /\
  published s' = published s.
Proof.
  intros Hp Hne. simpl.
  pose proof (execute_cases env toolName args s) as Hc. simpl in Hc.
  rewrite Hp in Hc. rewrite Hc. clear Hc. simpl.
  split; [reflexivity|].
  destruct (executeTool (room_now env) (mkToolCall toolName args) (room_world s))
    as [r w'] eqn:E. simpl.
  unfold track_tool_result, booked_by, identified_by. simpl.
  destruct (decide (toolName = "identify_user")) as [Hi|Hi].
  - rewrite (bool_decide_eq_true_2 _ Hi). simpl.
    destruct (decide (toolName = "book_appointment")) as [Hb|Hb]; [congruence|].
    rewrite (bool_decide_eq_false_2 _ Hb). simpl.
    rewrite (bool_decide_eq_false_2 _ Hne).
    destruct (success r); simpl;
      rewrite reverse_snoc_cases, last_snoc, app_nil_r; repeat split; reflexivity.
  - rewrite (bool_decide_eq_false_2 _ Hi). simpl.
    destruct (decide (toolName = "book_appointment")) as [Hb|Hb].
    + rewrite (bool_decide_eq_true_2 _ Hb). simpl.
      destruct (success r); simpl.
      * destruct (payload r); simpl;
          rewrite reverse_snoc_cases, last_snoc, ?app_nil_r; repeat split; reflexivity.
      * rewrite (bool_decide_eq_false_2 _ Hne). simpl.
        rewrite reverse_snoc_cases, last_snoc, app_nil_r; repeat split; reflexivity.
    + rewrite (bool_decide_eq_false_2 _ Hb). simpl.
      rewrite (bool_decide_eq_false_2 _ Hne). simpl.
      rewrite reverse_snoc_cases, last_snoc, app_nil_r; repeat split; reflexivity.
Qed.

(** [end_conversation] in a room whose session has no contact number
    writes no summary: the store is the one before the call, the ledger
    has the one entry of the dispatcher, and nothing but the tool call is
    published. *)
Theorem end_without_contact_writes_no_summary (env : RoomEnvironment) (args : Args)
    (s : RoomState) :
  truthy (room_contactNumber (session s)) = false ->
  let s' := fst (execute env "end_conversation" args s) in
  db (room_world s') = db (room_world s) /\
  costTracker (room_world s') = charged (room_world s) "end_conversation" 0.001%float /\
  (forall d, d ∈ published s' ->
     d ∈ published s \/ exists t, d = data_toolCall t).
Proof.
  intros Hc. simpl.
  pose proof (execute_cases env "end_conversation" args s) as Hx. cbv zeta in Hx.
  assert (He : executeTool (room_now env) (mkToolCall "end_conversation" args)
                 (room_world s)
               = (fst (executeTool (room_now env) (mkToolCall "end_conversation" args)
                         (room_world s)),
                  mkWorld (db (room_world s))
                    (charged (room_world s) "end_conversation" 0.001%float))).
  { unfold executeTool, tool_switch. simpl.
    unfold mbind, mret, StateExn_bind, StateExn_ret, addCost, query, throw.
    simpl. reflexivity. }
  rewrite He in Hx. simpl in Hx.
  unfold track_tool_result in Hx. simpl in Hx.
  unfold mbind, mret, StateExn_bind, StateExn_ret, read_session in Hx.
  simpl in Hx. rewrite Hc in Hx. simpl in Hx.
  destruct (publish_toolCall env) as [| |text]; rewrite Hx; simpl.
  - split; [reflexivity|]. split; [reflexivity|].
    intros d Hd. apply elem_of_app in Hd as [Hd|Hd]; [left; exact Hd|].
    right. apply list_elem_of_singleton in Hd. eexists. exact Hd.
  - split; [reflexivity|]. split; [reflexivity|]. intros d Hd. left. exact Hd.
  - split; [reflexivity|]. split; [reflexivity|]. intros d Hd. left. exact Hd.
Qed.

(** [end_conversation] in a room whose session has a contact number runs
    [generateSummary] on the session's history; what happens to the
    publication of the summary does not reach the caller: the world is the
    one [generateSummary] left, and the tool call is published and
    answered with the dispatcher's result, also when the publication of
    the summary was rejected. *)
Theorem summary_publication_failure_is_swallowed (env : RoomEnvironment) (args : Args)
    (s : RoomState) (c : string) :
  room_contactNumber (session s) = Some c ->
  c <> EmptyString ->
  publish_toolCall env = delivered ->
  let tc := mkToolCall "end_conversation" args in
  let r := fst (executeTool (room_now env) tc (room_world s)) in
  let st := room_push_toolCall (mkToolExecution tc r) (session s) in
  let summarized :=
    generateSummary (room_now env) (room_summarizer env)
      (room_conversationHistory st) c (room_sessionId st) (room_bookedAppointments st)
      (snd (executeTool (room_now env) tc (room_world s))) in
  let s' := fst (execute env "end_conversation" args s) in
  snd (execute env "end_conversation" args s) = Ok (JSON_stringify_result r) /\
  session s' = st /\
  room_world s' = fst summarized /\
  published s'
  = (published s ++
     match publish_summary env, snd summarized with
     | delivered, Ok summary =>
         [data_summary summary (room_bookedAppointments st) (room_toolCalls st)
            (getTotalCost (costTracker (fst summarized))) (costTracker (fst summarized))]
     | _, _ => []
     end ++ [data_toolCall (mkToolExecution tc r)])%list.
Proof.
  intros Hc Hne Hp. simpl.
  pose proof (execute_cases env "end_conversation" args s) as Hx. simpl in Hx.
  rewrite Hp in Hx. rewrite Hx. clear Hx. simpl.
  split; [reflexivity|].
  unfold track_tool_result. simpl.
  unfold mbind, mret, StateExn_bind, StateExn_ret, read_session. simpl.
  rewrite Hc. simpl.
  assert (Ht : truthy (Some c) = true).
  { unfold truthy. destruct c; [congruence|reflexivity]. }
  rewrite Ht.
  unfold try_catch, room_in_world, read_costTracker, publishData. simpl.
  destruct (generateSummary _ _ _ _ _ _ _) as [w' [summary|e]]; simpl.
  - destruct (publish_summary env); simpl;
      rewrite <- ?app_assoc; repeat split; reflexivity.
  - destruct (publish_summary env); repeat split; reflexivity.
Qed.

End Backend.

(** ** Worked sessions *)

(** A store that keeps every text as it is given. *)
Definition keep_text : column -> string -> option string := fun _ s => Some s.

(** The error texts of that store. *)
Definition store_message (e : DbError) : string :=
  match e with
  | invalid_text _ => "invalid input syntax"
  | not_null_violation _ => "null value violates not-null constraint"
  | unique_violation => "duplicate key value violates unique constraint"
  | foreign_key_violation => "insert violates foreign key constraint"
  | numeric_value_out_of_range => "value is out of range for type integer"
  end.

(** The empty store with an empty ledger. *)
Definition empty_world : World := mkWorld (mkDb ∅ [] 1 []) [].

(** [executeTool] against that store. *)
Definition dispatch : Z -> ToolCall -> World -> ToolResult * World :=
  executeTool keep_text store_message.

(** The worlds reached by dispatching the calls in order. *)
Definition world_after (calls : list (Z * ToolCall)) (w : World) : World :=
  fold_left (fun w c => snd (dispatch c.1 c.2 w)) calls w.

(** Two callers. *)
Definition alice : string := "+15551234567".

Definition bob : string := "+15559876543".

(** The tool calls of the sessions. *)

Definition identify_user (contact : string) (name_ email_ : option string) : ToolCall :=
  mkToolCall "identify_user"
    (mkArgs (Some contact) name_ email_ None None None None None None None None None).

Definition book_appointment (contact date time : string) : ToolCall :=
  mkToolCall "book_appointment"
    (mkArgs (Some contact) None None None (Some date) (Some time)
            None None None None None None).

Definition cancel_appointment (contact : string) (appointment_id : Z) : ToolCall :=
  mkToolCall "cancel_appointment"
    (mkArgs (Some contact) None None None None None None None None
            (Some appointment_id) None None).

Definition modify_appointment (contact : string) (appointment_id : Z)
    (new_date new_time : option string) : ToolCall :=
  mkToolCall "modify_appointment"
    (mkArgs (Some contact) None None None None None None None None
            (Some appointment_id) new_date new_time).

(** Both callers identified. *)
Definition identified_world : World :=
  world_after [(1, identify_user alice (Some "Alice") (Some "alice@example.com"));
               (2, identify_user bob None None)] empty_world.

(** Both ask for 2024-01-15 09:00, Alice first. *)
Definition two_bookings : list (Z * ToolCall) :=
  [(3, book_appointment alice "2024-01-15" "09:00");
   (4, book_appointment bob "2024-01-15" "09:00")].

(** Alice holds 2024-01-15 09:00 and Bob holds 2024-01-16 09:00. *)
Definition booked_world : World :=
  world_after [(3, book_appointment alice "2024-01-15" "09:00");
               (5, book_appointment bob "2024-01-16" "09:00")] identified_world.

Definition alices_appointment : Appointment :=
  mkAppointment 1 alice "2024-01-15" "09:00" None None confirmed 3 3.

Definition bobs_appointment : Appointment :=
  mkAppointment 2 bob "2024-01-16" "09:00" None None confirmed 5 5.

(** Alice holds 2024-01-15 09:00 and Bob holds 2024-01-15 10:00. *)
Definition same_day_world : World :=
  world_after [(3, book_appointment alice "2024-01-15" "09:00");
               (5, book_appointment bob "2024-01-15" "10:00")] identified_world.

(** Alice booked and then cancelled her appointment. *)
Definition cancelled_world : World :=
  world_after [(3, book_appointment alice "2024-01-15" "09:00");
               (7, cancel_appointment alice 1)] identified_world.

(** Alice's appointment, marked completed by the post-processing that is
    outside the dispatcher. *)
Definition completed_world : World :=
  mkWorld
    (mkDb (users (db identified_world))
          [mkAppointment 1 alice "2024-01-15" "09:00" None None completed 3 4] 2 [])
    [].

(** Alice's row of [users] in [identified_world]. *)
Definition alice_record : User :=
  mkUser alice (Some "Alice") (Some "alice@example.com") 1 1.

(** *** Conversations *)

(** The double-quote character of a JSON text. *)
Definition quote : string := String (Ascii.ascii_of_nat 34) EmptyString.

(** The JSON text of an object with string fields. *)
Definition json_object (fields : list (string * string)) : string :=
  "{" +:+ String.concat ","
            ((fun f => quote +:+ f.1 +:+ quote +:+ ":" +:+ quote +:+ f.2 +:+ quote)
             <$> fields)
      +:+ "}".

Definition identify_text : string := json_object [("contact_number", alice)].

Definition book_text : string :=
  json_object [("contact_number", alice); ("appointment_date", "2024-01-15");
               ("appointment_time", "09:00")].

(** [JSON.parse] on the argument texts of the conversations below. *)
Definition parse_example (text : string) : option Args :=
  if decide (text = "{}") then Some no_args
  else if decide (text = identify_text) then Some (arguments (identify_user alice None None))
  else if decide (text = book_text)
       then Some (arguments (book_appointment alice "2024-01-15" "09:00"))
  else None.

Definition stringify_booked_example (booked : list BookedAppointment) : string :=
  "[" +:+ String.concat "," (booked_date <$> booked) +:+ "]".

Definition stringify_result_example (r : ToolResult) : string :=
  if success r then "{success:true}" else "{success:false}".

(** [processUserMessage] against that store and those texts. *)
Definition turn : Environment -> string -> Agent * World -> (Agent * World) * Result string :=
  processUserMessage keep_text store_message stringify_booked_example parse_example
                     stringify_result_example.

(** A reply of the model that asks for the given tool calls. *)
Definition asks (calls : list ModelToolCall) : LlmOutcome :=
  resolves (mkCompletion (Some 20) (Some (mkModelReply None calls))).

Definition says (text : string) : LlmOutcome :=
  resolves (mkCompletion (Some 20) (Some (mkModelReply (Some text) []))).

Definition call_identify : ModelToolCall :=
  mkModelToolCall "call_1" "identify_user" identify_text.

Definition call_book : ModelToolCall :=
  mkModelToolCall "call_2" "book_appointment" book_text.

Definition call_end : ModelToolCall :=
  mkModelToolCall "call_3" "end_conversation" "{}".

(** The environment of a turn: the model's first reply, with fixed
    follow-ups, a summarization service that answers or fails, and the
    clock at [now]. *)
Definition environment (first : LlmOutcome) (summarizer_ : LlmOutcome) (now : Z)
    : Environment :=
  mkEnvironment first (fun _ => says "Done.") (fun _ => summarizer_) (fun _ => now).

Definition summary_ok : LlmOutcome := says "The caller identified herself and left.".

(** The session after the caller was identified in a first turn. *)
Definition identified_session : Agent * World :=
  fst (turn (environment (asks [call_identify]) summary_ok 1) "Hi, this is Alice"
            (new_AppointmentAgent "session-1", empty_world)).

(** The digests the agent emitted as 'summary' events. *)
Definition emitted_summaries (ag : Agent) : list string :=
  omap (fun e => match e with
                 | event_summary summary _ _ => Some summary
                 | event_toolCall _ => None
                 end) (emitted ag).

(** The model answers the caller's goodbye with three tool calls:
    [end_conversation], then [book_appointment], then [end_conversation]
    again. *)
Definition overrun_session : Agent * World :=
  fst (turn (environment (asks [call_end; call_book; call_end]) summary_ok 5) "Bye"
            identified_session).

(** The caller says goodbye and the model ends the conversation. *)
Definition goodbye : Environment := environment (asks [call_end]) summary_ok 5.

Definition ended_session : Agent * World := fst (turn goodbye "Bye" identified_session).

(** The same goodbye while the summarization service is failing. *)
Definition failed_summary_session : Agent * World :=
  fst (turn (environment (asks [call_end]) (rejects "503 Service Unavailable") 5) "Bye"
            identified_session).

(** *** Further calls and sessions *)

(** A request for the slots of one day, and for a caller's appointments. *)
Definition fetch_slots (date : option string) : ToolCall :=
  mkToolCall "fetch_slots"
    (mkArgs None None None date None None None None None None None None).


(** Alice booked 2024-01-15 09:00, cancelled, and booked the same slot
    again. *)
Definition rebooked_world : World :=
  world_after [(3, book_appointment alice "2024-01-15" "09:00");
               (7, cancel_appointment alice 1);
               (8, book_appointment alice "2024-01-15" "09:00")] identified_world.


(** Alice's two rows in [rebooked_world]. *)
Definition alices_cancelled_appointment : Appointment :=
  mkAppointment 1 alice "2024-01-15" "09:00" None None cancelled 3 7.

Definition alices_second_appointment : Appointment :=
  mkAppointment 2 alice "2024-01-15" "09:00" None None confirmed 8 8.


(** A reply of the model whose argument text is not JSON. *)
Definition call_garbled : ModelToolCall :=
  mkModelToolCall "call_4" "book_appointment" "{contact_number:".

Definition garbled_completion : Completion :=
  mkCompletion (Some 20) (Some (mkModelReply None [call_garbled])).

(** The session after the first turn and a goodbye. *)
Definition ended_agent : Agent :=
  fst (fst (turn goodbye "Bye"
              (fst (fst (turn (environment (asks [call_identify]) summary_ok 1)
                              "Hi, this is Alice"
                              (new_AppointmentAgent "session-1", empty_world))),
               snd identified_session))).

(** A room of the voice agent, with Alice identified or nobody yet, over
    [identified_world]. *)
Definition room_of (contact : option string) : RoomState :=
  mkRoomState (mkAgentSessionState "room-session" contact [] [] []) [] identified_world.

(** The handler of the voice agent against that store. *)
Definition room_execute : RoomEnvironment -> string -> Args -> RoomState
    -> RoomState * Result string :=
  execute keep_text store_message stringify_booked_example stringify_result_example.

(** The publication of the tool call is rejected. *)
Definition lost_connection : RoomEnvironment :=
  mkRoomEnvironment 9 summary_ok delivered (publish_rejects "Error: connection closed").

(** The publication of the summary is rejected. *)
Definition lost_summary : RoomEnvironment :=
  mkRoomEnvironment 9 summary_ok (publish_rejects "Error: connection closed") delivered.

(** *** The properties at these sessions *)


(** The second of the two bookings is the one that is refused. *)
Example second_booking_refused :
  (fun s => (success (outcome s), error (outcome s)))
  <$> dispatch_trace keep_text store_message two_bookings identified_world
  = [(true, None); (false, Some "Appointment slot already booked")].
Proof. vm_compute. reflexivity. Qed.

Example booked_world_appointments :
  appointments (db booked_world) = [alices_appointment; bobs_appointment].
Proof. vm_compute. reflexivity. Qed.

(** With both fields supplied, the move onto Alice's slot is refused. *)
Example modify_both_fields_refused :
  let r := dispatch 6 (modify_appointment bob 2 (Some "2024-01-15") (Some "09:00"))
                    booked_world in
  error (fst r) = Some "New appointment slot already booked" /\
  appointments (db (snd r)) = [alices_appointment; bobs_appointment].
Proof. vm_compute. split; reflexivity. Qed.

(** C2 (the code at the failing input): Bob moves his appointment onto
    Alice's confirmed slot by supplying [new_date] only.  The conflict
    check is skipped, the call succeeds, and the store then holds two
    confirmed appointments for 2024-01-15 09:00. *)
Theorem modify_date_only_double_books :
  let r := dispatch 6 (modify_appointment bob 2 (Some "2024-01-15") None)
                    booked_world in
  success (fst r) = true /\
  message (fst r) = Some "Appointment modified successfully" /\
  appointments (db (snd r))
    = [alices_appointment;
       mkAppointment 2 bob "2024-01-15" "09:00" None None confirmed 5 6] /\
  ~ slot_exclusive (appointments (db (snd r))).
Proof.
  assert (E : appointments (db (snd (dispatch 6
                (modify_appointment bob 2 (Some "2024-01-15") None) booked_world)))
              = [alices_appointment;
                 mkAppointment 2 bob "2024-01-15" "09:00" None None confirmed 5 6])
    by (vm_compute; reflexivity).
  cbv zeta. split; [vm_compute; reflexivity|]. split; [vm_compute; reflexivity|].
  split; [exact E|].
  rewrite E. intros H.
  specialize (H 0%nat 1%nat _ _ eq_refl eq_refl eq_refl eq_refl eq_refl eq_refl).
  discriminate H.
Qed.

Example cancelled_world_appointments :
  appointments (db cancelled_world)
    = [mkAppointment 1 alice "2024-01-15" "09:00" None None cancelled 3 7].
Proof. vm_compute. reflexivity. Qed.

(** The same with [new_time] only: Bob moves from 10:00 to Alice's 09:00. *)
Example modify_time_only_double_books :
  let r := dispatch 6 (modify_appointment bob 2 None (Some "09:00")) same_day_world in
  success (fst r) = true /\
  (fun a => (appointment_date a, appointment_time a, status a))
    <$> appointments (db (snd r))
    = [("2024-01-15", "09:00", confirmed); ("2024-01-15", "09:00", confirmed)].
Proof. vm_compute. split; reflexivity. Qed.

(** An appointment of another caller is not found, and nothing changes. *)
Example cancel_foreign_not_found :
  let r := dispatch 8 (cancel_appointment bob 1) cancelled_world in
  error (fst r) = Some "Appointment not found or already cancelled" /\
  appointments (db (snd r)) = appointments (db cancelled_world).
Proof. vm_compute. split; reflexivity. Qed.

(** C3 (the code at the failing input): Alice cancels her appointment a
    second time.  The [UPDATE] selects the row by id and contact number
    only, so the already cancelled row is selected and rewritten: the call
    answers success, not "Appointment not found or already cancelled", and
    the row's [updated_at] moves from 7 to 8. *)
Theorem cancel_twice_succeeds :
  let r := dispatch 8 (cancel_appointment alice 1) cancelled_world in
  success (fst r) = true /\
  message (fst r) = Some "Appointment cancelled successfully" /\
  error (fst r) = None /\
  appointments (db (snd r))
    = [mkAppointment 1 alice "2024-01-15" "09:00" None None cancelled 3 8] /\
  appointments (db (snd r)) <> appointments (db cancelled_world).
Proof.
  cbv zeta. repeat split; try (vm_compute; reflexivity).
  vm_compute. discriminate.
Qed.

(** C4 (counterexample): [cancel_appointment] by the owner of a completed
    appointment succeeds and sets its status to 'cancelled'. *)
Lemma completed_cancelled_by_owner :
  let r := dispatch 9 (cancel_appointment alice 1) completed_world in
  status <$> appointments (db completed_world) = [completed] /\
  success (fst r) = true /\
  status <$> appointments (db (snd r)) = [cancelled].
Proof. vm_compute. repeat split; reflexivity. Qed.

(** C4 (as amended) at a call: Alice moves her completed appointment; it
    stays completed. *)
Lemma completed_status_kept_witness :
  let tc := modify_appointment alice 1 (Some "2024-01-16") (Some "10:00") in
  let r := mkAppointment 1 alice "2024-01-15" "09:00" None None completed 3 4 in
  appointments (db completed_world) !! 0%nat = Some r /\
  status r = completed /\
  ~ (name tc = "cancel_appointment" /\
     owned_row (arg_appointment_id (arguments tc))
               (arg_contact_number (arguments tc)) r) /\
  exists r',
    appointments (db (snd (executeTool keep_text store_message 9 tc completed_world)))
      !! 0%nat = Some r' /\
    id r' = id r /\ contact_number r' = contact_number r /\
    status r' = completed.
Proof.
  cbv zeta.
  assert (H1 : appointments (db completed_world) !! 0%nat
               = Some (mkAppointment 1 alice "2024-01-15" "09:00" None None
                                     completed 3 4)) by reflexivity.
  assert (H3 : ~ (name (modify_appointment alice 1 (Some "2024-01-16") (Some "10:00"))
                    = "cancel_appointment" /\
                  owned_row (Some 1) (Some alice)
                    (mkAppointment 1 alice "2024-01-15" "09:00" None None
                                   completed 3 4)))
    by (intros [H _]; discriminate H).
  split; [exact H1|]. split; [reflexivity|]. split; [exact H3|].
  exact (completed_status_kept keep_text store_message 9 _ completed_world 0%nat _
           H1 eq_refl H3).
Defined.

Example alice_is_stored : users (db identified_world) !! alice = Some alice_record.
Proof. vm_compute. reflexivity. Qed.


(** The failed cancellation above is charged like a successful one. *)
Example failed_dispatch_is_charged :
  service <$> costTracker (snd (dispatch 8 (cancel_appointment bob 1) cancelled_world))
  = ["identify_user"; "identify_user"; "book_appointment"; "cancel_appointment";
     "cancel_appointment"].
Proof. vm_compute. reflexivity. Qed.

(** C5 at a call: Alice is identified again, with no name and no
    email. *)
Lemma identify_user_upsert_merge_witness :
  let tc := identify_user alice None None in
  let w := identified_world in
  let u := alice_record in
  name tc = "identify_user" /\
  bind_param keep_text col_contact_number (arg_contact_number (arguments tc))
    = Ok (Some alice) /\
  users (db w) !! alice = Some u /\
  (arg_name (arguments tc) = None -> arg_email (arguments tc) = None ->
   success (fst (executeTool keep_text store_message 10 tc w)) = true /\
   users (db (snd (executeTool keep_text store_message 10 tc w))) !! alice
     = Some (mkUser (user_contact_number u) (user_name u) (user_email u)
                    (user_created_at u) 10)) /\
  (forall n v, arg_name (arguments tc) = Some n -> n <> EmptyString ->
     keep_text col_name n = Some v -> arg_email (arguments tc) = None ->
     success (fst (executeTool keep_text store_message 10 tc w)) = true /\
     users (db (snd (executeTool keep_text store_message 10 tc w))) !! alice
       = Some (mkUser (user_contact_number u) (Some v) (user_email u)
                      (user_created_at u) 10)) /\
  (forall e v, arg_email (arguments tc) = Some e -> e <> EmptyString ->
     keep_text col_email e = Some v -> arg_name (arguments tc) = None ->
     success (fst (executeTool keep_text store_message 10 tc w)) = true /\
     users (db (snd (executeTool keep_text store_message 10 tc w))) !! alice
       = Some (mkUser (user_contact_number u) (user_name u) (Some v)
                      (user_created_at u) 10)) /\
  (exists u',
     users (db (snd (executeTool keep_text store_message 10 tc w))) !! alice = Some u' /\
     (arg_name (arguments tc) = None -> user_name u' = user_name u) /\
     (arg_email (arguments tc) = None -> user_email u' = user_email u)).
Proof.
  cbv zeta.
  assert (H3 : users (db identified_world) !! alice = Some alice_record)
    by (vm_compute; reflexivity).
  split; [reflexivity|]. split; [reflexivity|]. split; [exact H3|].
  exact (identify_user_upsert_merge keep_text store_message 10
           (identify_user alice None None) identified_world alice alice_record
           eq_refl eq_refl H3).
Defined.

(** Identification repeated with no new fields, and with a new name only. *)
Example identify_again :
  users (db (snd (dispatch 10 (identify_user alice None None) identified_world))) !! alice
    = Some (mkUser alice (Some "Alice") (Some "alice@example.com") 1 10) /\
  users (db (snd (dispatch 11 (identify_user alice (Some "Alice B.") None)
                           identified_world))) !! alice
    = Some (mkUser alice (Some "Alice B.") (Some "alice@example.com") 1 11).
Proof. vm_compute. split; reflexivity. Qed.

(** C10 at a call: Alice is identified again, with an empty name and an
    empty email. *)
Lemma identify_user_empty_is_absent_witness :
  let tc := identify_user alice (Some EmptyString) (Some EmptyString) in
  let w := identified_world in
  let u := alice_record in
  name tc = "identify_user" /\
  bind_param keep_text col_contact_number (arg_contact_number (arguments tc))
    = Ok (Some alice) /\
  users (db w) !! alice = Some u /\
  executeTool keep_text store_message 12 tc w
    = executeTool keep_text store_message 12 (empty_as_absent tc) w /\
  exists u',
    users (db (snd (executeTool keep_text store_message 12 tc w))) !! alice = Some u' /\
    (arg_name (arguments tc) = Some EmptyString -> user_name u' = user_name u) /\
    (arg_email (arguments tc) = Some EmptyString -> user_email u' = user_email u).
Proof.
  cbv zeta.
  assert (H3 : users (db identified_world) !! alice = Some alice_record)
    by (vm_compute; reflexivity).
  split; [reflexivity|]. split; [reflexivity|]. split; [exact H3|].
  exact (identify_user_empty_is_absent keep_text store_message 12
           (identify_user alice (Some EmptyString) (Some EmptyString))
           identified_world alice alice_record eq_refl eq_refl H3).
Defined.

Example identify_with_empty_fields :
  users (db (snd (dispatch 12 (identify_user alice (Some EmptyString) (Some EmptyString))
                           identified_world))) !! alice
    = Some (mkUser alice (Some "Alice") (Some "alice@example.com") 1 12).
Proof. vm_compute. reflexivity. Qed.

Example identified_session_state :
  contactNumber (state (fst identified_session)) = Some alice /\
  conversationEnded (state (fst identified_session)) = false /\
  summaryRuns (fst identified_session) = 0%nat.
Proof. vm_compute. repeat split; reflexivity. Qed.

(** C8 (counterexample): the tool calls that follow [end_conversation] in
    the same reply of the model are dispatched.  The booking after the end
    succeeds, writes an appointment, adds to the booked appointments of the
    session and to the cost ledger, and [end_conversation] is dispatched a
    second time: the finalizer is called twice in the session. *)
Lemma operations_after_end_are_dispatched :
  (fun t => (name (executed t), success (result t)))
    <$> toolCalls (state (fst overrun_session))
    = [("identify_user", true); ("end_conversation", true);
       ("book_appointment", true); ("end_conversation", true)] /\
  appointments (db (snd identified_session)) = [] /\
  appointments (db (snd overrun_session))
    = [mkAppointment 1 alice "2024-01-15" "09:00" None None confirmed 5 5] /\
  bookedAppointments (state (fst overrun_session))
    = [mkBooked 1 "2024-01-15" "09:00" None] /\
  service <$> filter (fun item => unit item = "call") (costTracker (snd overrun_session))
    = ["identify_user"; "end_conversation"; "book_appointment"; "end_conversation"] /\
  summaryRuns (fst overrun_session) = 2%nat.
Proof. vm_compute. repeat split; reflexivity. Qed.

(** C8 (as amended) at a session: Alice is identified, says goodbye, and
    two more messages arrive. *)
Lemma ended_session_rejects_messages_witness :
  let ag :=
    fst (fst (turn goodbye "Bye"
                (fst (fst (turn (environment (asks [call_identify]) summary_ok 1)
                                "Hi, this is Alice"
                                (new_AppointmentAgent "session-1", empty_world))),
                 snd identified_session))) in
  let later := [(environment (asks [call_book]) summary_ok 6, "One more thing");
                (goodbye, "Hello?")] in
  reachable keep_text store_message stringify_booked_example parse_example
            stringify_result_example ag /\
  Exists is_end (toolCalls (state ag)) /\
  summaryRuns ag = length (filter is_end (toolCalls (state ag))) /\
  (Exists is_end (toolCalls (state ag)) ->
   conversation keep_text store_message stringify_booked_example parse_example
                stringify_result_example later (ag, snd ended_session)
     = (replicate (length later) (Ok conversation_ended_reply), (ag, snd ended_session))).
Proof.
  cbv zeta.
  match goal with
  | |- reachable _ _ _ _ _ ?ag /\ _ =>
      assert (Hr : reachable keep_text store_message stringify_booked_example
                             parse_example stringify_result_example ag)
        by (unfold turn; apply reachable_turn, reachable_turn, reachable_new);
      assert (He : Exists is_end (toolCalls (state ag)))
        by (vm_compute; apply Exists_cons_tl, Exists_cons_hd; reflexivity)
  end.
  split; [exact Hr|]. split; [exact He|].
  exact (ended_session_rejects_messages keep_text store_message stringify_booked_example
           parse_example stringify_result_example _ (snd ended_session) _ Hr).
Defined.

(** After the end, a further message changes nothing. *)
Example message_after_end :
  turn (environment (asks [call_book]) summary_ok 6) "One more thing" ended_session
    = (ended_session, Ok conversation_ended_reply).
Proof.
  apply processUserMessage_ended. vm_compute. reflexivity.
Qed.

(** With an answering summarization service the finalizer persists the
    digest. *)
Example summary_persisted :
  summary_text <$> conversation_summaries (db (snd ended_session))
    = ["The caller identified herself and left."] /\
  emitted_summaries (fst ended_session) = ["The caller identified herself and left."].
Proof. vm_compute. split; reflexivity. Qed.

(** The finalizer is in flight while the turn goes on: the input tokens of
    the follow-up request are charged before the output tokens of the
    summarizer, and the ledger that is persisted has that charge in it. *)
Example finalizer_in_flight :
  drop 7 (service <$> costTracker (snd ended_session))
    = ["end_conversation"; "openai_summary"; "openai_chat"; "openai_summary_output";
       "openai_chat_output"] /\
  (fun row => drop 7 (service <$> summary_cost_breakdown row))
    <$> conversation_summaries (db (snd ended_session))
    = [["end_conversation"; "openai_summary"; "openai_chat"; "openai_summary_output"]].
Proof. vm_compute. split; reflexivity. Qed.

(** Without a resolved contact number nothing is persisted or emitted. *)
Example no_contact_no_summary :
  let s := fst (turn goodbye "Bye" (new_AppointmentAgent "session-2", empty_world)) in
  conversationEnded (state (fst s)) = true /\ summaryRuns (fst s) = 1%nat /\
  conversation_summaries (db (snd s)) = [] /\ emitted_summaries (fst s) = [] /\
  service <$> costTracker (snd s)
    = ["openai_chat"; "openai_chat_output"; "end_conversation"; "openai_chat";
       "openai_chat_output"].
Proof. vm_compute. repeat split; reflexivity. Qed.

(** C9 (the code at the failing input): the contact number is resolved and
    the summarization service fails.  The failure does not escape and the
    fixed placeholder "Summary generation failed. Conversation details
    saved." is emitted, but no summary record is written: the [catch] of
    [generateSummary] returns before [saveConversationSummary]. *)
Theorem failed_summarizer_persists_nothing :
  contactNumber (state (fst failed_summary_session)) = Some alice /\
  conversationEnded (state (fst failed_summary_session)) = true /\
  summaryRuns (fst failed_summary_session) = 1%nat /\
  emitted_summaries (fst failed_summary_session)
    = ["Summary generation failed. Conversation details saved."] /\
  conversation_summaries (db (snd failed_summary_session)) = [] /\
  db (snd failed_summary_session) = db (snd identified_session).
Proof.
  repeat split; try (vm_compute; reflexivity).
Qed.

(** *** The further properties at these sessions *)

(** The slots of 2024-01-15, asked while Alice holds 09:00 of that day. *)
Lemma fetch_slots_lists_catalog_witness :
  let tc := fetch_slots (Some "2024-01-15") in
  let slots := [("2024-01-15", "09:00"); ("2024-01-15", "10:00");
                ("2024-01-15", "11:00"); ("2024-01-15", "14:00");
                ("2024-01-15", "15:00")] in
  name tc = "fetch_slots" /\
  NoDup slots /\
  forall (now : Z) (w : World),
    executeTool keep_text store_message now tc w
    = (succeeded None (payload_slots slots 5),
       mkWorld (db w) (charged w "fetch_slots" 0.001%float)).
Proof.
  cbv zeta.
  pose proof (fetch_slots_lists_catalog keep_text store_message
                (fetch_slots (Some "2024-01-15")) eq_refl) as H.
  cbv zeta in H. destruct H as (Hnd & _ & Hx).
  split; [reflexivity|]. split; [exact Hnd|exact Hx].
Defined.



(** Alice's first booking. *)
Lemma book_appointment_inserts_witness :
  dispatch 3 (book_appointment alice "2024-01-15" "09:00") identified_world
  = (succeeded (Some "Appointment booked successfully")
       (payload_booked (mkBooked 1 "2024-01-15" "09:00" None)),
     mkWorld
       (mkDb (users (db identified_world))
             (appointments (db identified_world) ++ [alices_appointment])
             (appointments_id_seq (db identified_world) + 1)
             (conversation_summaries (db identified_world)))
       (charged identified_world "book_appointment" 0.002%float)).
Proof.
  apply (book_appointment_inserts keep_text store_message 3
           (book_appointment alice "2024-01-15" "09:00") identified_world
           alice "2024-01-15" "09:00" None None);
    try reflexivity.
  - vm_compute. discriminate.
  - intros r Hr. vm_compute in Hr. inversion Hr.
Defined.

(** The row of Alice's first booking is found by its id. *)
Lemma booked_appointment_is_found_witness :
  let out := dispatch 3 (book_appointment alice "2024-01-15" "09:00") identified_world in
  let b := mkBooked 1 "2024-01-15" "09:00" None in
  payload (fst out) = payload_booked b /\
  exists row,
    last (appointments (db (snd out))) = Some row /\
    getAppointmentById (Some (booked_id b)) (Some (contact_number row)) (db (snd out))
    = Some row /\
    id row = booked_id b /\ status row = confirmed /\
    appointment_date row = booked_date b /\ appointment_time row = booked_time b /\
    created_at row = 3.
Proof.
  cbv zeta. split; [vm_compute; reflexivity|].
  apply (booked_appointment_is_found keep_text store_message 3
           (book_appointment alice "2024-01-15" "09:00") identified_world
           (mkBooked 1 "2024-01-15" "09:00" None)).
  - reflexivity.
  - split.
    + vm_compute. constructor.
    + intros r Hr. vm_compute in Hr. inversion Hr.
  - vm_compute. reflexivity.
Defined.

(** The rows of a concrete table, one by one. *)
Ltac row_cases H :=
  vm_compute in H;
  repeat (apply elem_of_cons in H as [H|H]; [subst|]);
  try (apply elem_of_nil in H; destruct H).

(** Alice cancels 2024-01-15 09:00 and Bob books it. *)
Lemma cancel_then_book_succeeds_witness :
  let w := booked_world in
  let cancel := cancel_appointment alice 1 in
  let book := book_appointment bob "2024-01-15" "09:00" in
  appointments (db w) !! 0%nat = Some alices_appointment /\
  success (fst (dispatch 7 cancel w)) = true /\
  success (fst (dispatch 8 book (snd (dispatch 7 cancel w)))) = true /\
  status <$> appointments (db (snd (dispatch 7 cancel w))) !! 0%nat = Some cancelled.
Proof.
  cbv zeta. split; [reflexivity|]. split; [vm_compute; reflexivity|].
  apply (cancel_then_book_succeeds keep_text store_message 7
           (cancel_appointment alice 1) booked_world 0%nat alices_appointment 8
           (book_appointment bob "2024-01-15" "09:00") bob None None);
    try reflexivity.
  - intros i j r1 r2 H1 H2 _ _ Hd _.
    destruct i as [|[|i]], j as [|[|j]]; try reflexivity;
      vm_compute in H1, H2; try discriminate;
      injection H1 as <-; injection H2 as <-; vm_compute in Hd; discriminate.
  - split; [reflexivity|]. split; [reflexivity|]. unfold INTEGER. simpl. lia.
  - vm_compute. discriminate.
Defined.

(** Alice's cancellation leaves Bob's row as it is. *)
Lemma dispatch_frame_witness :
  let tc := cancel_appointment alice 1 in
  appointments (db booked_world) !! 1%nat = Some bobs_appointment /\
  exists r',
    appointments (db (snd (dispatch 7 tc booked_world))) !! 1%nat = Some r' /\
    id r' = id bobs_appointment /\
    contact_number r' = contact_number bobs_appointment /\
    service_type r' = service_type bobs_appointment /\
    notes r' = notes bobs_appointment /\
    created_at r' = created_at bobs_appointment /\
    (name tc <> "cancel_appointment" -> status r' = status bobs_appointment) /\
    (name tc <> "modify_appointment" ->
     appointment_date r' = appointment_date bobs_appointment /\
     appointment_time r' = appointment_time bobs_appointment) /\
    (~ owned_row (arg_appointment_id (arguments tc))
                 (arg_contact_number (arguments tc)) bobs_appointment ->
     r' = bobs_appointment).
Proof.
  cbv zeta. split; [reflexivity|].
  exact (dispatch_frame keep_text store_message 7 (cancel_appointment alice 1)
           booked_world 1%nat bobs_appointment eq_refl).
Defined.

(** Alice cancels the same slot a second time. *)
Lemma cancel_refused_by_unique_constraint_witness :
  let tc := cancel_appointment alice 2 in
  appointments (db rebooked_world) !! 0%nat = Some alices_cancelled_appointment /\
  appointments (db rebooked_world) !! 1%nat = Some alices_second_appointment /\
  fst (dispatch 9 tc rebooked_world)
  = failed store_message (DatabaseError unique_violation) /\
  db (snd (dispatch 9 tc rebooked_world)) = db rebooked_world.
Proof.
  cbv zeta. split; [reflexivity|]. split; [reflexivity|].
  apply (cancel_refused_by_unique_constraint keep_text store_message 9
           (cancel_appointment alice 2) rebooked_world 0%nat 1%nat
           alices_second_appointment alices_cancelled_appointment);
    try reflexivity.
  - split; [reflexivity|]. split; [reflexivity|]. unfold INTEGER. simpl. lia.
  - lia.
Defined.

(** Alice is identified in the empty store. *)
Lemma identify_new_user_is_found_witness :
  let tc := identify_user alice (Some "Alice") None in
  let record := mkUser alice (Some "Alice") None 1 1 in
  users (db empty_world) !! alice = None /\
  fst (dispatch 1 tc empty_world)
  = succeeded (Some ("User identified: " +:+ template (arg_contact_number (arguments tc))))
              (payload_user record) /\
  getUser (Some alice) (db (snd (dispatch 1 tc empty_world))) = Some record /\
  (forall other, other <> alice ->
     getUser (Some other) (db (snd (dispatch 1 tc empty_world)))
     = getUser (Some other) (db empty_world)) /\
  appointments (db (snd (dispatch 1 tc empty_world))) = appointments (db empty_world).
Proof.
  cbv zeta. split; [reflexivity|].
  apply (identify_new_user_is_found keep_text store_message 1
           (identify_user alice (Some "Alice") None) empty_world alice
           (Some "Alice") None);
    reflexivity.
Defined.

(** Bob asks to cancel Alice's appointment. *)
Lemma not_owner_is_refused_witness :
  let tc := cancel_appointment bob 1 in
  appointments (db booked_world) !! 0%nat = Some alices_appointment /\
  success (fst (dispatch 7 tc booked_world)) = false /\
  db (snd (dispatch 7 tc booked_world)) = db booked_world.
Proof.
  cbv zeta. split; [reflexivity|].
  apply (not_owner_is_refused keep_text store_message 7 (cancel_appointment bob 1)
           booked_world).
  - left. reflexivity.
  - intros r Hr (Hid & Hc & _). row_cases Hr; vm_compute in Hid, Hc; discriminate.
Defined.

(** The language-model service times out. *)
Lemma chat_failure_apologizes_witness :
  let env := environment (rejects "timeout") summary_ok 5 in
  let user_message := mkChatMessage role_user (Some "Hello") [] None in
  let ag := fst identified_session in
  let w := snd identified_session in
  conversationEnded (state ag) = false /\
  turn env "Hello" (ag, w)
  = ((mkAgent (push_message user_message (state ag)) (emitted ag) (summaryRuns ag),
      mkWorld (db w)
        (costTracker w ++
         [mkCost "openai_chat"
            (token_cost (inputTokens (messages (state ag) ++ [user_message])) 0.01%float)
            "1k_tokens"])),
     Ok "I apologize, but I encountered an error. Please try again.").
Proof.
  cbv zeta. split; [vm_compute; reflexivity|].
  exact (chat_failure_apologizes keep_text store_message stringify_booked_example
           parse_example stringify_result_example
           (environment (rejects "timeout") summary_ok 5) "Hello"
           (fst identified_session) (snd identified_session) "timeout"
           ltac:(vm_compute; reflexivity) eq_refl).
Defined.

(** The model sends an argument text that is not JSON. *)
Lemma unparseable_arguments_dispatch_nothing_witness :
  let env := environment (resolves garbled_completion) summary_ok 5 in
  let ag := fst identified_session in
  let w := snd identified_session in
  let s' := fst (turn env "Book me in" (ag, w)) in
  parse_example (function_arguments call_garbled) = None /\
  snd (turn env "Book me in" (ag, w))
  = Ok "I apologize, but I encountered an error. Please try again." /\
  toolCalls (state s'.1) = toolCalls (state ag) /\
  bookedAppointments (state s'.1) = bookedAppointments (state ag) /\
  contactNumber (state s'.1) = contactNumber (state ag) /\
  conversationEnded (state s'.1) = false /\
  emitted s'.1 = emitted ag /\
  db s'.2 = db w.
Proof.
  cbv zeta. split; [vm_compute; reflexivity|].
  apply (unparseable_arguments_dispatch_nothing keep_text store_message
           stringify_booked_example parse_example stringify_result_example
           (environment (resolves garbled_completion) summary_ok 5) "Book me in"
           (fst identified_session) (snd identified_session) garbled_completion
           (mkModelReply None [call_garbled]) call_garbled []);
    vm_compute; reflexivity.
Defined.

(** The session after an identification and a goodbye. *)
Lemma session_fields_follow_tool_calls_witness :
  reachable keep_text store_message stringify_booked_example parse_example
            stringify_result_example ended_agent /\
  bookedAppointments (state ended_agent) = omap booked_by (toolCalls (state ended_agent)) /\
  contactNumber (state ended_agent)
  = mjoin (last (omap identified_by (toolCalls (state ended_agent)))).
Proof.
  assert (Hr : reachable keep_text store_message stringify_booked_example
                         parse_example stringify_result_example ended_agent)
    by (unfold ended_agent, turn; apply reachable_turn, reachable_turn, reachable_new).
  split; [exact Hr|].
  exact (session_fields_follow_tool_calls keep_text store_message
           stringify_booked_example parse_example stringify_result_example
           ended_agent Hr).
Defined.

(** A summary of Alice's conversation. *)
Lemma summary_record_snapshots_ledger_witness :
  let response := mkCompletion (Some 20) (Some (mkModelReply (Some "Alice called.") [])) in
  let msgs := [mkConversationMessage role_user "It is urgent"] in
  users (db identified_world) !! alice <> None /\
  exists e1 e2,
    service e1 = "openai_summary" /\
    service e2 = "openai_summary_output" /\
    let ledger := (costTracker identified_world ++ [e1; e2])%list in
    generateSummary keep_text stringify_booked_example 9 (resolves response) msgs
                    alice "session-1" [] identified_world
    = (mkWorld
         (mkDb (users (db identified_world)) (appointments (db identified_world))
               (appointments_id_seq (db identified_world))
               (conversation_summaries (db identified_world) ++
                [mkSummary alice "session-1" "Alice called." [] (extractPreferences msgs)
                           (getTotalCost ledger) ledger 9]))
         ledger,
       Ok "Alice called.").
Proof.
  cbv zeta.
  assert (Hu : users (db identified_world) !! alice <> None)
    by (vm_compute; discriminate).
  split; [exact Hu|].
  exact (summary_record_snapshots_ledger keep_text stringify_booked_example 9
           (mkCompletion (Some 20) (Some (mkModelReply (Some "Alice called.") [])))
           [mkConversationMessage role_user "It is urgent"]
           alice "session-1" [] identified_world alice "session-1"
           eq_refl eq_refl Hu).
Defined.

(** Alice books through the voice agent while the room connection is lost. *)
Lemma unpublished_call_is_answered_as_failed_witness :
  let args := arguments (book_appointment alice "2024-01-15" "09:00") in
  let s' := fst (room_execute lost_connection "book_appointment" args (room_of (Some alice))) in
  publish_toolCall lost_connection = publish_rejects "Error: connection closed" /\
  snd (room_execute lost_connection "book_appointment" args (room_of (Some alice)))
  = Ok (stringify_result_example (unpublished "Error: connection closed")) /\
  appointments (db (room_world s')) = [mkAppointment 1 alice "2024-01-15" "09:00" None None confirmed 9 9] /\
  room_bookedAppointments (session s') = [mkBooked 1 "2024-01-15" "09:00" None] /\
  success <$> (result <$> last (room_toolCalls (session s'))) = Some false.
Proof.
  cbv zeta.
  pose proof (unpublished_call_is_answered_as_failed keep_text store_message
                stringify_booked_example stringify_result_example lost_connection
                "book_appointment"
                (arguments (book_appointment alice "2024-01-15" "09:00"))
                (room_of (Some alice)) "Error: connection closed" eq_refl
                ltac:(discriminate)) as H.
  cbv zeta in H. destruct H as (Ha & Hl & Hw & Hb & _ & _).
  split; [reflexivity|]. split; [exact Ha|].
  unfold room_execute. rewrite Hw, Hb, Hl. vm_compute. repeat split; reflexivity.
Defined.

(** A goodbye in a room where nobody was identified. *)
Lemma end_without_contact_writes_no_summary_witness :
  let s' := fst (room_execute lost_summary "end_conversation" no_args (room_of None)) in
  truthy (room_contactNumber (session (room_of None))) = false /\
  db (room_world s') = db identified_world /\
  costTracker (room_world s') = charged identified_world "end_conversation" 0.001%float /\
  (forall d, d ∈ published s' ->
     d ∈ published (room_of None) \/ exists t, d = data_toolCall t).
Proof.
  cbv zeta. split; [reflexivity|].
  exact (end_without_contact_writes_no_summary keep_text store_message
           stringify_booked_example stringify_result_example lost_summary no_args
           (room_of None) eq_refl).
Defined.

(** A goodbye in a room where the summary cannot be published. *)
Lemma summary_publication_failure_is_swallowed_witness :
  let s' := fst (room_execute lost_summary "end_conversation" no_args
                   (room_of (Some alice))) in
  snd (room_execute lost_summary "end_conversation" no_args (room_of (Some alice)))
  = Ok "{success:true}" /\
  length (conversation_summaries (db (room_world s'))) = 1%nat /\
  length (published s') = 1%nat.
Proof.
  cbv zeta.
  pose proof (summary_publication_failure_is_swallowed keep_text store_message
                stringify_booked_example stringify_result_example lost_summary no_args
                (room_of (Some alice)) alice eq_refl ltac:(discriminate) eq_refl) as H.
  cbv zeta in H. destruct H as (Ha & _ & Hw & Hp).
  unfold room_execute. rewrite Ha, Hw, Hp. vm_compute. repeat split; reflexivity.
Defined.

(** Alice asks for a modification and names no new date or time. *)
Lemma modify_without_fields_is_refused_witness :
  let tc := modify_appointment alice 1 None None in
  truthy (arg_new_date (arguments tc)) = false /\
  truthy (arg_new_time (arguments tc)) = false /\
  dispatch 9 tc booked_world
  = (failed store_message (Error "No fields to update"),
     mkWorld (db booked_world) (charged booked_world "modify_appointment" 0.002%float)).
Proof.
  cbv zeta. split; [reflexivity|]. split; [reflexivity|].
  apply (modify_without_fields_is_refused keep_text store_message 9
           (modify_appointment alice 1 None None) booked_world);
    reflexivity.
Defined.

(** Alice asks to move her appointment to the slot that Bob holds. *)
Lemma modify_to_held_slot_is_refused_witness :
  let tc := modify_appointment alice 1 (Some "2024-01-16") (Some "09:00") in
  bobs_appointment ∈ appointments (db booked_world) /\
  dispatch 9 tc booked_world
  = (failed store_message (Error "New appointment slot already booked"),
     mkWorld (db booked_world) (charged booked_world "modify_appointment" 0.002%float)).
Proof.
  cbv zeta.
  assert (Hin : bobs_appointment ∈ appointments (db booked_world))
    by (vm_compute; apply elem_of_cons; right; apply elem_of_cons; left; reflexivity).
  split; [exact Hin|].
  apply (modify_to_held_slot_is_refused keep_text store_message 9
           (modify_appointment alice 1 (Some "2024-01-16") (Some "09:00")) booked_world
           "2024-01-16" "09:00" bobs_appointment 1);
    try reflexivity.
  - unfold INTEGER. lia.
  - exact Hin.
  - vm_compute. discriminate.
Defined.

(** Alice moves her appointment to a free slot. *)
Lemma modify_success_rewrites_owned_row_witness :
  let tc := modify_appointment alice 1 (Some "2024-01-17") (Some "10:00") in
  success (fst (dispatch 9 tc booked_world)) = true /\
  exists k r pd pt,
    bind_param keep_text col_appointment_date (or_null (arg_new_date (arguments tc)))
    = Ok pd /\
    bind_param keep_text col_appointment_time (or_null (arg_new_time (arguments tc)))
    = Ok pt /\
    appointments (db booked_world) !! k = Some r /\
    owned_row (arg_appointment_id (arguments tc)) (arg_contact_number (arguments tc)) r /\
    appointments (db (snd (dispatch 9 tc booked_world))) !! k
    = Some (mkAppointment (id r) (contact_number r)
              (default (appointment_date r) pd) (default (appointment_time r) pt)
              (service_type r) (notes r) (status r) (created_at r) 9) /\
    payload (fst (dispatch 9 tc booked_world))
    = payload_appointment (id r) (default (appointment_date r) pd)
                          (default (appointment_time r) pt).
Proof.
  cbv zeta.
  assert (Hs : success (fst (dispatch 9 (modify_appointment alice 1 (Some "2024-01-17")
                                           (Some "10:00")) booked_world)) = true)
    by (vm_compute; reflexivity).
  split; [exact Hs|].
  exact (modify_success_rewrites_owned_row keep_text store_message 9
           (modify_appointment alice 1 (Some "2024-01-17") (Some "10:00")) booked_world
           eq_refl Hs).
Defined.

(** C7 (counterexample): nine [fetch_slots] calls are dispatched from the
    empty ledger.  Each one is charged 0.001, and the total that
    [getTotalCost] reports is 0.009000000000000001: the sum of the nine
    numbers, rounded after each addition.  It is not the arithmetic sum of
    the nine costs. *)
Lemma total_is_not_the_arithmetic_sum :
  let calls := replicate 9 (1, fetch_slots None) in
  let ledger := costTracker (dispatch_all keep_text store_message calls empty_world) in
  cost <$> ledger = replicate 9 0.001%float /\
  getTotalCost ledger = 0.009000000000000001%float /\
  PrimFloat.eqb (getTotalCost ledger) 0.009%float = false /\
  ~ (exact (getTotalCost ledger) == arithmetic_sum ledger)%Q.
Proof.
  cbv zeta. split; [vm_compute; reflexivity|]. split; [vm_compute; reflexivity|].
  split; [vm_compute; reflexivity|].
  intros E. apply Qeq_bool_iff in E. vm_compute in E. discriminate E.
Qed.

(** C1 (the code at the failing input): Alice and Bob ask for 2024-01-15
    09:00 at the same time.  Both dispatches are in flight, and the store
    answers both conflict queries before either [INSERT] reaches it, as it
    may: [createAppointment] awaits the two statements one after the other
    outside any transaction, and the [UNIQUE] constraint has the contact
    number in it.  Both calls answer "Appointment booked successfully" and
    the slot has two confirmed appointments. *)
Theorem concurrent_bookings_both_succeed :
  let alice_books := book_appointment alice "2024-01-15" "09:00" in
  let bob_books := book_appointment bob "2024-01-15" "09:00" in
  let first := book_in_flight keep_text store_message 3 alice_books identified_world in
  let second := book_in_flight keep_text store_message 4 bob_books (fst first) in
  let final :=
    interleave [true; false; true; false] (snd first) (snd second) (fst second) in
  slot_exclusive (appointments (db identified_world)) /\
  snd final
  = (settled (succeeded (Some "Appointment booked successfully")
                (payload_booked (mkBooked 1 "2024-01-15" "09:00" None))),
     settled (succeeded (Some "Appointment booked successfully")
                (payload_booked (mkBooked 2 "2024-01-15" "09:00" None)))) /\
  appointments (db (fst final))
  = [mkAppointment 1 alice "2024-01-15" "09:00" None None confirmed 3 3;
     mkAppointment 2 bob "2024-01-15" "09:00" None None confirmed 4 4] /\
  ~ slot_exclusive (appointments (db (fst final))).
Proof.
  cbv zeta. split; [|split; [|split]].
  - intros i j r1 r2 Hi. vm_compute in Hi. destruct i; discriminate Hi.
  - vm_compute. reflexivity.
  - vm_compute. reflexivity.
  - intros Hex.
    specialize (Hex 0%nat 1%nat
                  (mkAppointment 1 alice "2024-01-15" "09:00" None None confirmed 3 3)
                  (mkAppointment 2 bob "2024-01-15" "09:00" None None confirmed 4 4)).
    assert (H01 : 0%nat = 1%nat) by (apply Hex; vm_compute; reflexivity).
    discriminate H01.
Qed.

(** Dispatched one after the other, the second of the two calls is
    refused. *)
Example sequential_bookings_one_succeeds :
  let alice_books := book_appointment alice "2024-01-15" "09:00" in
  let bob_books := book_appointment bob "2024-01-15" "09:00" in
  let first := book_in_flight keep_text store_message 3 alice_books identified_world in
  let second := book_in_flight keep_text store_message 4 bob_books (fst first) in
  let final :=
    interleave [true; true; false; false] (snd first) (snd second) (fst second) in
  snd final
  = (settled (succeeded (Some "Appointment booked successfully")
                (payload_booked (mkBooked 1 "2024-01-15" "09:00" None))),
     settled (failed store_message (Error "Appointment slot already booked"))).
Proof. vm_compute. reflexivity. Qed.
